(** * PingPals: check executor, uptime store and slave scheduler

    A shallow embedding of the TypeScript sources of the monitoring slave
    (the two variants of [monitor.ts], [storage.ts] and the slave's
    [index.ts]) together with the properties of the specification that
    were checked against them.

    Conventions of the embedding.
    - Timestamps and durations are the integers [Date.now()] yields
      (milliseconds), kept in [Z]; sums and differences of them are exact
      in a JavaScript number as long as they stay below 2^53.
    - The two quotients the code computes (the uptime percentages) are kept
      as exact rationals extended with the three IEEE values a division by
      zero can produce ([jsnum]).
    - An [await] is one atomic step of the world: the clock advances by the
      latency the world attaches to the awaited operation.
    - In the store a method call is one step. The callback of a debounce
      timer is not: it takes one turn of the event loop up to its
      [await writeFile(...)] and another when the write has settled, and
      requests arrive in between.
    - Objects are values, except where the code shares one: a timer that
      was handed the object [this.data] refers to is marked as sharing it.
    - Text that is only ever handed to [JSON.parse] is identified with what
      [JSON.parse] makes of it: either a syntax error or a parsed value. *)

From Stdlib Require Import ZArith QArith Bool Lia.
From stdpp Require Import gmap strings list pretty.

Set Warnings "-register-all".
Open Scope Z_scope.

(* ===================================================================== *)
(** ** JavaScript runtime values                                          *)
(* ===================================================================== *)

Module Js.

(** [s.startsWith(p)] *)
Fixpoint startsWith (s p : string) : bool :=
  match p, s with
  | EmptyString, _ => true
  | String c p', String d s' => if Ascii.eqb c d then startsWith s' p' else false
  | String _ _, EmptyString => false
  end.

(** [s.includes(sub)] *)
Fixpoint includes (s sub : string) : bool :=
  if startsWith s sub then true
  else match s with
       | EmptyString => false
       | String _ s' => includes s' sub
       end.

Definition lower_ascii (c : Ascii.ascii) : Ascii.ascii :=
  let n := Ascii.N_of_ascii c in
  if ((65 <=? n) && (n <=? 90))%N then Ascii.ascii_of_N (n + 32) else c.

(** [s.toLowerCase()], on the ASCII letters *)
Fixpoint toLowerCase (s : string) : string :=
  match s with
  | EmptyString => EmptyString
  | String c s' => String (lower_ascii c) (toLowerCase s')
  end.

(** A string in a boolean position: the empty string is falsy. *)
Definition truthy_string (s : string) : bool :=
  match s with EmptyString => false | _ => true end.

(** [a || b] where [a : string | null | undefined] *)
Definition or_string (a : option string) (b : string) : string :=
  match a with
  | Some s => if truthy_string s then s else b
  | None => b
  end.

(** [a || b] on numbers: [0] is falsy. *)
Definition or_number (a b : Z) : Z := if a =? 0 then b else a.

(** A value caught by [catch (err)]: whether [err instanceof Error], its
    [name], [message] and [code] (if it has one), and what [String(err)]
    gives. *)
Record Thrown := mkThrown {
  instanceofError : bool;
  name : string;
  message : string;
  code : option string;
  asString : string
}.

(** [new Error(msg)] *)
Definition newError (msg : string) : Thrown :=
  {| instanceofError := true; name := "Error"; message := msg;
     code := None; asString := "Error: " +:+ msg |}.

(** The error [readFile] and [writeFile] reject with when the path does
    not exist. *)
Definition ENOENT : Thrown :=
  {| instanceofError := true; name := "Error";
     message := "ENOENT: no such file or directory";
     code := Some "ENOENT";
     asString := "Error: ENOENT: no such file or directory" |}.

(** The error [JSON.parse] throws. *)
Definition SyntaxError : Thrown :=
  {| instanceofError := true; name := "SyntaxError";
     message := "Unexpected token in JSON";
     code := None;
     asString := "SyntaxError: Unexpected token in JSON" |}.

(** [error instanceof Error && 'code' in error && error.code === 'ENOENT'] *)
Definition isENOENT (err : Thrown) : bool :=
  instanceofError err
  && match code err with Some c => String.eqb c "ENOENT" | None => false end.

(** [err instanceof Error ? err.message : String(err)] *)
Definition errorMessage (err : Thrown) : string :=
  if instanceofError err then message err else asString err.

(** The values [JSON.parse] returns. An object is the list of its own
    properties. *)
Inductive json :=
| JNull
| JBool (b : bool)
| JNum (q : Q)
| JStr (s : string)
| JArr (items : list json)
| JObj (fields : list (string * json)).

(** Reading property [k] of a parsed object. *)
Fixpoint getField (fields : list (string * json)) (k : string) : option json :=
  match fields with
  | [] => None
  | (k', v) :: rest => if String.eqb k' k then Some v else getField rest k
  end.

(** A text handed to [JSON.parse]. *)
Inductive Text :=
| Malformed
| Parses (v : json).

(** A JavaScript number as far as the percentage arithmetic needs it. *)
Inductive jsnum :=
| Fin (q : Q)
| PosInf
| NegInf
| NaN.

(** [a / b] on integer-valued numbers *)
Definition div (a b : Z) : jsnum :=
  if b =? 0 then
    (if 0 <? a then PosInf else if a <? 0 then NegInf else NaN)
  else Fin (inject_Z a / inject_Z b)%Q.

(** [x * k] for a positive finite constant [k] *)
Definition mulPos (x : jsnum) (k : Q) : jsnum :=
  match x with
  | Fin q => Fin (q * k)%Q
  | other => other
  end.

(** [Math.min(k, x)] for a finite constant [k] *)
Definition Math_min (k : Q) (x : jsnum) : jsnum :=
  match x with
  | Fin q => if Qle_bool k q then Fin k else Fin q
  | PosInf => Fin k
  | NegInf => NegInf
  | NaN => NaN
  end.

(** [Math.max(k, x)] for a finite constant [k] *)
Definition Math_max (k : Q) (x : jsnum) : jsnum :=
  match x with
  | Fin q => if Qle_bool q k then Fin k else Fin q
  | PosInf => PosInf
  | NegInf => Fin k
  | NaN => NaN
  end.

End Js.

(* ===================================================================== *)
(** ** types.ts                                                           *)
(* ===================================================================== *)

Inductive MonitorType := http | icmp.

Record BaseServiceConfig := mkBase {
  id : string;
  name : string;
  interval : Z;
  timeout : Z
}.

(** [ServiceConfig = HttpServiceConfig | IcmpServiceConfig] *)
Inductive ServiceConfig :=
| HttpServiceConfig (base : BaseServiceConfig) (url : string)
| IcmpServiceConfig (base : BaseServiceConfig) (host : string).

Definition base_of (s : ServiceConfig) : BaseServiceConfig :=
  match s with
  | HttpServiceConfig b _ => b
  | IcmpServiceConfig b _ => b
  end.

Definition type_of (s : ServiceConfig) : MonitorType :=
  match s with
  | HttpServiceConfig _ _ => http
  | IcmpServiceConfig _ _ => icmp
  end.

Record MonitoringResult := mkResult {
  serviceId : string;
  timestamp : Z;
  success : bool;
  duration : Z;
  error : option string
}.

Record DowntimePeriod := mkPeriod {
  start : Z;
  end_ : option Z
}.

(* ===================================================================== *)
(** ** The world a check runs in                                          *)
(* ===================================================================== *)

Module Probe.

Module HttpResponse.
Record t := mk {
  status : Z;
  statusText : string;
  body : Js.Text
}.
End HttpResponse.

(** [response.ok] *)
Definition ok (r : HttpResponse.t) : bool :=
  (200 <=? HttpResponse.status r) && (HttpResponse.status r <=? 299).

(** [PingResult] of utils/ping.ts *)
Module PingResult.
Record t := mk {
  alive : bool;
  time : option Q;
  error : option string
}.
End PingResult.

(** What an awaited probe yields to the program, and after how long. A
    request cut short by the [AbortController] is a rejection whose
    [name] is [AbortError]. *)
Inductive Outcome (A : Type) :=
| Resolves (latency : Z) (a : A)
| Rejects (latency : Z) (e : Js.Thrown).
Arguments Resolves {A} latency a.
Arguments Rejects {A} latency e.

Definition latency {A} (o : Outcome A) : Z :=
  match o with
  | Resolves l _ => l
  | Rejects l _ => l
  end.

(** The behaviour of the network: the outcome of the [n]-th probe a check
    makes, counted from 0. *)
Record Network := mkNetwork {
  onFetch : nat -> Outcome HttpResponse.t;
  onPing : nat -> Outcome PingResult.t
}.

Inductive Level := INFO | WARN | ERROR.

Inductive Event :=
| EvFetch (url : string) (timeoutMs : Z)
| EvPing (host : string) (timeoutMs : Z)
| EvSleep (ms : Z)
| EvLog (level : Level) (msg : string).

Record World := mkWorld {
  now : Z;
  probes : nat;
  trace : list Event
}.

(** Computations of an [async] function body: state passing over the
    world. *)
Definition M (A : Type) : Type := World -> A * World.

Definition ret {A} (a : A) : M A := fun w => (a, w).

Definition bind {A B} (m : M A) (k : A -> M B) : M B :=
  fun w => let (a, w') := m w in k a w'.

Declare Scope async_scope.
Delimit Scope async_scope with async.
Notation "'let!' x ':=' m 'in' k" := (bind m (fun x => k))
  (at level 10, x name, m at level 100, k at level 200) : async_scope.
Notation "m ';;' k" := (bind m (fun _ => k))
  (at level 100, k at level 200, right associativity) : async_scope.

(** [Date.now()] *)
Definition Date_now : M Z := fun w => (now w, w).

Definition emit (e : Event) : M unit :=
  fun w => (tt, {| now := now w; probes := probes w; trace := trace w ++ [e] |}).

(** Awaiting one probe: it is recorded, the world decides its outcome and
    the clock has advanced by its latency when the program resumes. *)
Definition await_probe {A} (script : nat -> Outcome A) (e : Event)
  : M (Js.Thrown + A) :=
  fun w =>
    let o := script (probes w) in
    let w' := {| now := now w + latency o; probes := S (probes w);
                 trace := trace w ++ [e] |} in
    match o with
    | Resolves _ a => (inr a, w')
    | Rejects _ err => (inl err, w')
    end.

(** [await fetch(url, { signal })] with the abort timer set to
    [timeoutMs] *)
Definition fetch (net : Network) (url : string) (timeoutMs : Z)
  : M (Js.Thrown + HttpResponse.t) :=
  await_probe (onFetch net) (EvFetch url timeoutMs).

(** [await ping(host, { timeout })] *)
Definition ping (net : Network) (host : string) (timeoutMs : Z)
  : M (Js.Thrown + PingResult.t) :=
  await_probe (onPing net) (EvPing host timeoutMs).

(** [await new Promise(resolve => setTimeout(resolve, ms))] *)
Definition sleep (ms : Z) : M unit :=
  fun w => (tt, {| now := now w + ms; probes := probes w;
                   trace := trace w ++ [EvSleep ms] |}).

(** [this.logger.info / warn / error] *)
Definition log (level : Level) (msg : string) : M unit := emit (EvLog level msg).

Definition isFetch (e : Event) : bool :=
  match e with EvFetch _ _ => true | _ => false end.
Definition isPing (e : Event) : bool :=
  match e with EvPing _ _ => true | _ => false end.
Definition isSleep (e : Event) : bool :=
  match e with EvSleep _ => true | _ => false end.

(** The probes and the sleeps of a trace, in order. *)
Definition fetches (t : list Event) : list Event := List.filter isFetch t.
Definition pings (t : list Event) : list Event := List.filter isPing t.
Definition sleeps (t : list Event) : list Event := List.filter isSleep t.

End Probe.

Module MonitorConfig.
Record t := mk {
  maxConcurrent : Z;
  timeout : Z;
  retryAttempts : Z
}.
End MonitorConfig.

(* ===================================================================== *)
(** ** monitor.ts, first variant (part_001)                               *)
(* ===================================================================== *)

Module Monitor1.
Import Probe.
Open Scope async_scope.

Section UptimeMonitor.
Variable net : Network.
Variable config : MonitorConfig.t.

(** [service.type === 'http' ? service.url : ''] *)
Definition fetchTarget (service : ServiceConfig) : string :=
  match service with
  | HttpServiceConfig _ url => url
  | IcmpServiceConfig _ _ => ""
  end.

(** [service.timeout || this.config.timeout] *)
Definition effectiveTimeout (service : ServiceConfig) : Z :=
  Js.or_number (timeout (base_of service)) (MonitorConfig.timeout config).

(** The [for] loop of [checkHttpService], entered with the loop variable
    at [attempt]; [fuel] bounds the iterations still to run. The result
    is the pair of the locals [error] and [success] when the loop is
    left. *)
Fixpoint httpLoop (service : ServiceConfig) (fuel : nat) (attempt : Z)
  (error : option string) (success : bool) : M (option string * bool) :=
  match fuel with
  | O => ret (error, success)
  | S fuel' =>
    if attempt <=? MonitorConfig.retryAttempts config then
      let! r := fetch net (fetchTarget service) (effectiveTimeout service) in
      match r with
      | inr response =>
        let success := ok response in
        let error :=
          if success then None
          else Some ("HTTP " +:+ pretty (HttpResponse.status response) +:+ ": "
                     +:+ HttpResponse.statusText response) in
        ret (error, success)
      | inl err =>
        let error := Some (Js.errorMessage err) in
        if attempt =? MonitorConfig.retryAttempts config then ret (error, success)
        else (sleep 1000 ;; httpLoop service fuel' (attempt + 1) error success)
      end
    else ret (error, success)
  end.

Definition checkHttpService (service : ServiceConfig) : M MonitoringResult :=
  let! startTime := Date_now in
  let! r := httpLoop service (Z.to_nat (MonitorConfig.retryAttempts config))
                     1 None false in
  let! endTime := Date_now in
  let duration := endTime - startTime in
  let! stamp := Date_now in
  ret {| serviceId := id (base_of service);
         timestamp := stamp;
         success := snd r;
         duration := duration;
         error := fst r |}.

(** The [for] loop of [checkIcmpService]. *)
Fixpoint icmpLoop (service : ServiceConfig) (fuel : nat) (attempt : Z)
  (error : option string) (success : bool) : M (option string * bool) :=
  match fuel with
  | O => ret (error, success)
  | S fuel' =>
    if attempt <=? MonitorConfig.retryAttempts config then
      let! r :=
        match service with
        | IcmpServiceConfig _ host => ping net host (effectiveTimeout service)
        | HttpServiceConfig _ _ => ret (inl (Js.newError "Invalid service type"))
        end in
      match r with
      | inr result =>
        let success := PingResult.alive result in
        let error :=
          if success then None else Some "Host is not responding to ICMP" in
        ret (error, success)
      | inl err =>
        let error := Some (Js.errorMessage err) in
        if attempt =? MonitorConfig.retryAttempts config then ret (error, success)
        else (sleep 1000 ;; icmpLoop service fuel' (attempt + 1) error success)
      end
    else ret (error, success)
  end.

Definition checkIcmpService (service : ServiceConfig) : M MonitoringResult :=
  let! startTime := Date_now in
  let! r := icmpLoop service (Z.to_nat (MonitorConfig.retryAttempts config))
                     1 None false in
  let! endTime := Date_now in
  let duration := endTime - startTime in
  let! stamp := Date_now in
  ret {| serviceId := id (base_of service);
         timestamp := stamp;
         success := snd r;
         duration := duration;
         error := fst r |}.

End UptimeMonitor.
End Monitor1.

(* ===================================================================== *)
(** ** monitor.ts, second variant (part_002)                              *)
(* ===================================================================== *)

Module Monitor2.
Import Probe.
Open Scope async_scope.

(** The value of a predicate whose evaluation may throw. *)
Inductive Verdict := Holds | Fails | Throws.

Definition typeofString (v : option Js.json) : bool :=
  match v with Some (Js.JStr _) => true | _ => false end.
Definition typeofNumber (v : option Js.json) : bool :=
  match v with Some (Js.JNum _) => true | _ => false end.
Definition typeofBoolean (v : option Js.json) : bool :=
  match v with Some (Js.JBool _) => true | _ => false end.
Definition Array_isArray (v : option Js.json) : bool :=
  match v with Some (Js.JArr _) => true | _ => false end.
Definition isLiteral (v : option Js.json) (lit : string) : bool :=
  match v with Some (Js.JStr s) => String.eqb s lit | _ => false end.

(** The arrow function given to [data.every]. [typeof null] is
    ['object'], so on [null] the next conjunct reads a property of [null]
    and throws a [TypeError]; an array or any other non-object has no
    [id]. *)
Definition itemIsServiceStatus (item : Js.json) : Verdict :=
  match item with
  | Js.JNull => Throws
  | Js.JObj fields =>
    let get := Js.getField fields in
    if typeofString (get "id")
       && typeofString (get "name")
       && typeofString (get "type")
       && (isLiteral (get "type") "http" || isLiteral (get "type") "icmp")
       && typeofNumber (get "interval")
       && typeofNumber (get "timeout")
       && typeofBoolean (get "lastStatus")
       && Array_isArray (get "assignedSlaves")
    then Holds else Fails
  | Js.JArr _ => Fails
  | Js.JBool _ | Js.JNum _ | Js.JStr _ => Fails
  end.

(** [data.every(pred)]: stops at the first element on which [pred] is
    false, and throws if [pred] throws before that. *)
Fixpoint every (pred : Js.json -> Verdict) (data : list Js.json) : Verdict :=
  match data with
  | [] => Holds
  | item :: rest =>
    match pred item with
    | Holds => every pred rest
    | Fails => Fails
    | Throws => Throws
    end
  end.

(** What the [try] block of [checkHttpService] assigns to [success] and
    [error] once a response has come back. *)
Definition judgeResponse (response : HttpResponse.t) : option string * bool :=
  if HttpResponse.status response =? 200 then
    match HttpResponse.body response with
    | Js.Malformed => (Some "Invalid JSON response", false)
    | Js.Parses (Js.JArr data) =>
      match every itemIsServiceStatus data with
      | Holds => (None, true)
      | Fails => (Some "Invalid response data format", false)
      | Throws => (Some "Invalid JSON response", false)
      end
    | Js.Parses _ => (Some "Response is not an array of services", false)
    end
  else
    (Some ("HTTP " +:+ pretty (HttpResponse.status response) +:+ ": "
           +:+ HttpResponse.statusText response),
     false).

(** The message the [catch] block of [checkHttpService] stores. *)
Definition classifyError (err : Js.Thrown) : string :=
  let isTimeout :=
    Js.instanceofError err
    && (String.eqb (Js.name err) "AbortError"
        || Js.includes (Js.message err) "timeout"
        || Js.includes (Js.message err) "abort") in
  let isTlsError :=
    Js.instanceofError err
    && (Js.includes (Js.message err) "TLS"
        || Js.includes (Js.message err) "SSL"
        || Js.includes (Js.message err) "CERT") in
  if isTimeout then "Request timed out"
  else if isTlsError then "TLS connection failed"
  else Js.errorMessage err.

(** The locals of [checkHttpService] the loop assigns. *)
Record Locals := mkLocals {
  l_error : option string;
  l_success : bool;
  l_duration : Z
}.

Section UptimeMonitor.
Variable net : Network.
Variable config : MonitorConfig.t.

(** [service.timeout || this.config.timeout] *)
Definition effectiveTimeout (service : ServiceConfig) : Z :=
  Js.or_number (timeout (base_of service)) (MonitorConfig.timeout config).

(** The [for] loop of [checkHttpService]. *)
Fixpoint httpLoop (base : BaseServiceConfig) (url : string) (startTime : Z)
  (fuel : nat) (attempt : Z) (vars : Locals) : M Locals :=
  match fuel with
  | O => ret vars
  | S fuel' =>
    if attempt <=? MonitorConfig.retryAttempts config then
      let! fetchStartTime := Date_now in
      let! r := fetch net url (effectiveTimeout (HttpServiceConfig base url)) in
      match r with
      | inr response =>
        let! t := Date_now in
        let duration := t - fetchStartTime in
        let verdict := judgeResponse response in
        ret {| l_error := fst verdict; l_success := snd verdict;
               l_duration := duration |}
      | inl err =>
        let! t := Date_now in
        let duration := t - startTime in
        let vars' := {| l_error := Some (classifyError err);
                        l_success := l_success vars;
                        l_duration := duration |} in
        if attempt =? MonitorConfig.retryAttempts config then ret vars'
        else (sleep 1000 ;; httpLoop base url startTime fuel' (attempt + 1) vars')
      end
    else ret vars
  end.

(** [checkHttpService]; [inl] is the exception thrown for a service that
    is not an HTTP service. *)
Definition checkHttpService (service : ServiceConfig)
  : M (Js.Thrown + MonitoringResult) :=
  match service with
  | IcmpServiceConfig _ _ =>
    ret (inl (Js.newError "Invalid service type: expected HTTP service"))
  | HttpServiceConfig base url =>
    let! startTime := Date_now in
    let! vars := httpLoop base url startTime
                          (Z.to_nat (MonitorConfig.retryAttempts config)) 1
                          {| l_error := None; l_success := false; l_duration := 0 |} in
    let! stamp := Date_now in
    ret (inr {| serviceId := id base;
                timestamp := stamp;
                success := l_success vars;
                duration := l_duration vars;
                error := Some (Js.or_string (l_error vars) "Unknown error") |})
  end.

(** What the [try] block of [checkIcmpService] assigns to [error] after a
    ping that came back, and whether it logs the permission problem. *)
Definition pingError (result : PingResult.t) : option string :=
  if PingResult.alive result then None
  else Some (Js.or_string (PingResult.error result) "Host is not responding to ICMP").

Definition permissionDenied (error : option string) : bool :=
  match error with
  | Some e => Js.includes (Js.toLowerCase e) "permission denied"
  | None => false
  end.

(** The [for] loop of [checkIcmpService]. *)
Fixpoint icmpLoop (service : ServiceConfig) (fuel : nat) (attempt : Z)
  (error : option string) (success : bool) : M (option string * bool) :=
  match fuel with
  | O => ret (error, success)
  | S fuel' =>
    if attempt <=? MonitorConfig.retryAttempts config then
      let! r :=
        match service with
        | IcmpServiceConfig _ host => ping net host (effectiveTimeout service)
        | HttpServiceConfig _ _ => ret (inl (Js.newError "Invalid service type"))
        end in
      match r with
      | inr result =>
        let success := PingResult.alive result in
        let error := pingError result in
        if permissionDenied error then
          (log ERROR "Permission denied when running ping command. Please ensure sudo privileges are configured." ;;
           ret (Some "Permission denied for ICMP check. Configure sudo privileges.",
                success))
        else ret (error, success)
      | inl err =>
        let error := Some (Js.errorMessage err) in
        if attempt =? MonitorConfig.retryAttempts config then ret (error, success)
        else (sleep 1000 ;; icmpLoop service fuel' (attempt + 1) error success)
      end
    else ret (error, success)
  end.

Definition checkIcmpService (service : ServiceConfig) : M MonitoringResult :=
  let! startTime := Date_now in
  let! r := icmpLoop service (Z.to_nat (MonitorConfig.retryAttempts config))
                     1 None false in
  let! endTime := Date_now in
  let duration := endTime - startTime in
  let! stamp := Date_now in
  ret {| serviceId := id (base_of service);
         timestamp := stamp;
         success := snd r;
         duration := duration;
         error := fst r |}.

(** [checkService]: the dispatch on the type, with its logging and its
    [catch]. *)
Definition checkService (service : ServiceConfig) : M MonitoringResult :=
  log INFO ("Checking service " +:+ name (base_of service) +:+ " ("
            +:+ id (base_of service) +:+ ")") ;;
  let! r :=
    match type_of service with
    | http => checkHttpService service
    | icmp => let! result := checkIcmpService service in ret (inr result)
    end in
  match r with
  | inr result =>
    (if success result then
       log INFO ("Service " +:+ name (base_of service) +:+ " is UP ("
                 +:+ pretty (duration result) +:+ "ms)")
     else
       log WARN ("Service " +:+ name (base_of service) +:+ " is DOWN: "
                 +:+ match error result with Some e => e | None => "null" end)) ;;
    ret result
  | inl err =>
    let errorMessage := Js.errorMessage err in
    log ERROR ("Failed to check service " +:+ name (base_of service) +:+ ": "
               +:+ errorMessage) ;;
    let! stamp := Date_now in
    ret {| serviceId := id (base_of service);
           timestamp := stamp;
           success := false;
           duration := 0;
           error := Some errorMessage |}
  end.

End UptimeMonitor.
End Monitor2.

(* ===================================================================== *)
(** ** types.ts, the coordinator's records                                *)
(* ===================================================================== *)

Module ServiceStatus.
(** A [number] field that went through [JSON.stringify] holds [null]
    ([None]) where the number was not finite. *)
Record t := mk {
  id : string;
  name : string;
  type : MonitorType;
  url : option string;
  host : option string;
  interval : Z;
  timeout : Z;
  createdAt : Z;
  lastCheck : Z;
  lastStatus : bool;
  uptimePercentage : option Js.jsnum;
  uptimePercentage30d : option Js.jsnum;
  assignedSlaves : list string;
  lastDowntime : option DowntimePeriod;
  downtimePeriods : list DowntimePeriod
}.
End ServiceStatus.

Module SlaveStatus.
Record Stats := mkStats {
  cpuUsage : option Q;
  memoryUsage : option Q;
  uptime : option Q
}.
Record t := mk {
  id : string;
  name : option string;
  lastHeartbeat : Z;
  isActive : bool;
  services : list string;
  host : option string;
  port : option Z;
  region : option string;
  datacenter : option string;
  version : option string;
  stats : option Stats
}.
End SlaveStatus.

(** [StorageData], with [services.configs] and [services.status]
    flattened. *)
Record StorageData := mkData {
  configs : list ServiceConfig;
  status : list ServiceStatus.t;
  slaves : list SlaveStatus.t;
  lastUpdated : Z
}.

(* ===================================================================== *)
(** ** storage.ts (part_001), class Storage                               *)
(* ===================================================================== *)

Module Storage.

(** *** JSON text of a snapshot *)

(** What [JSON.stringify] makes of a number. *)
Definition stringifyNumber (x : option Js.jsnum) : option Js.jsnum :=
  match x with
  | Some (Js.Fin q) => Some (Js.Fin q)
  | Some Js.PosInf | Some Js.NegInf | Some Js.NaN | None => None
  end.

Definition stringifyStatus (s : ServiceStatus.t) : ServiceStatus.t :=
  {| ServiceStatus.id := ServiceStatus.id s;
     ServiceStatus.name := ServiceStatus.name s;
     ServiceStatus.type := ServiceStatus.type s;
     ServiceStatus.url := ServiceStatus.url s;
     ServiceStatus.host := ServiceStatus.host s;
     ServiceStatus.interval := ServiceStatus.interval s;
     ServiceStatus.timeout := ServiceStatus.timeout s;
     ServiceStatus.createdAt := ServiceStatus.createdAt s;
     ServiceStatus.lastCheck := ServiceStatus.lastCheck s;
     ServiceStatus.lastStatus := ServiceStatus.lastStatus s;
     ServiceStatus.uptimePercentage := stringifyNumber (ServiceStatus.uptimePercentage s);
     ServiceStatus.uptimePercentage30d := stringifyNumber (ServiceStatus.uptimePercentage30d s);
     ServiceStatus.assignedSlaves := ServiceStatus.assignedSlaves s;
     ServiceStatus.lastDowntime := ServiceStatus.lastDowntime s;
     ServiceStatus.downtimePeriods := ServiceStatus.downtimePeriods s |}.

(** The content of the state file, as [JSON.parse] sees it: text it
    rejects, or the text of a document. A document that parses is taken to
    have the shape the code's type [StorageData] asserts. *)
Inductive FileContent :=
| Corrupt
| Document (d : StorageData).

(** [JSON.stringify(dataToSave, null, 2)] *)
Definition JSON_stringify (d : StorageData) : FileContent :=
  Document {| configs := configs d;
              status := List.map stringifyStatus (status d);
              slaves := slaves d;
              lastUpdated := lastUpdated d |}.

(** *** The object and its environment *)

Inductive ConsoleEntry :=
| ConsoleLog (msg : string)
| ConsoleWarn (msg : string)
| ConsoleError (msg : string) (err : Js.Thrown).

(** A pending [setTimeout] of [debouncedSave]: its callback saves
    [payload] and then clears [saveTimeout]. [shared] says that the
    object handed to [debouncedSave] is the one [this.data] refers to
    ([this.debouncedSave(this.data)]): its content is then that of
    [this.data], and what [save] assigns to it is assigned to [this.data]. *)
Record Timer := mkTimer {
  handle : nat;
  due : Z;
  payload : option StorageData;
  shared : bool
}.

(** A callback of [debouncedSave] suspended at the [await writeFile(...)]
    of [save]: the write was issued, it settles at [settles] with
    [outcome], and the rest of the callback runs then. *)
Record Flush := mkFlush {
  settles : Z;
  outcome : Js.Thrown + unit
}.

Record State := mkState {
  (* the Storage object *)
  dataPath : string;
  initialized : bool;
  data : StorageData;
  saveTimeout : option nat;
  (* its environment *)
  now : Z;
  dirExists : bool;
  file : option FileContent;
  timers : list Timer;
  nextHandle : nat;
  console : list ConsoleEntry;
  writes : list (Z * FileContent);
  (* how long a write issued by a timer callback is under way, and the
     callbacks that wait for theirs *)
  writeMs : Z;
  flushing : list Flush
}.

Definition saveDebounceMs : Z := 5000.

(** Computations of a method body: state passing, with [inl] for a
    thrown exception (a rejected promise). *)
Definition S (A : Type) : Type := State -> (Js.Thrown + A) * State.

Definition ret {A} (a : A) : S A := fun st => (inr a, st).
Definition throw {A} (e : Js.Thrown) : S A := fun st => (inl e, st).
Definition bind {A B} (m : S A) (k : A -> S B) : S B :=
  fun st =>
    match m st with
    | (inr a, st') => k a st'
    | (inl e, st') => (inl e, st')
    end.
(** [try { m } catch (e) { handler e }] *)
Definition try_catch {A} (m : S A) (handler : Js.Thrown -> S A) : S A :=
  fun st =>
    match m st with
    | (inr a, st') => (inr a, st')
    | (inl e, st') => handler e st'
    end.

Declare Scope storage_scope.
Delimit Scope storage_scope with storage.
Notation "'let!' x ':=' m 'in' k" := (bind m (fun x => k))
  (at level 10, x name, m at level 100, k at level 200) : storage_scope.
Notation "m ';;' k" := (bind m (fun _ => k))
  (at level 100, k at level 200, right associativity) : storage_scope.
Open Scope storage_scope.

Definition get {A} (proj : State -> A) : S A := fun st => (inr (proj st), st).
Definition modify (f : State -> State) : S unit := fun st => (inr tt, f st).

Definition set_data (d : StorageData) (st : State) : State :=
  {| dataPath := dataPath st; initialized := initialized st; data := d;
     saveTimeout := saveTimeout st; now := now st; dirExists := dirExists st;
     file := file st; timers := timers st; nextHandle := nextHandle st;
     console := console st; writes := writes st;
     writeMs := writeMs st; flushing := flushing st |}.
Definition set_initialized (b : bool) (st : State) : State :=
  {| dataPath := dataPath st; initialized := b; data := data st;
     saveTimeout := saveTimeout st; now := now st; dirExists := dirExists st;
     file := file st; timers := timers st; nextHandle := nextHandle st;
     console := console st; writes := writes st;
     writeMs := writeMs st; flushing := flushing st |}.
Definition set_saveTimeout (h : option nat) (st : State) : State :=
  {| dataPath := dataPath st; initialized := initialized st; data := data st;
     saveTimeout := h; now := now st; dirExists := dirExists st;
     file := file st; timers := timers st; nextHandle := nextHandle st;
     console := console st; writes := writes st;
     writeMs := writeMs st; flushing := flushing st |}.
Definition set_now (t : Z) (st : State) : State :=
  {| dataPath := dataPath st; initialized := initialized st; data := data st;
     saveTimeout := saveTimeout st; now := t; dirExists := dirExists st;
     file := file st; timers := timers st; nextHandle := nextHandle st;
     console := console st; writes := writes st;
     writeMs := writeMs st; flushing := flushing st |}.
Definition set_dirExists (b : bool) (st : State) : State :=
  {| dataPath := dataPath st; initialized := initialized st; data := data st;
     saveTimeout := saveTimeout st; now := now st; dirExists := b;
     file := file st; timers := timers st; nextHandle := nextHandle st;
     console := console st; writes := writes st;
     writeMs := writeMs st; flushing := flushing st |}.
Definition set_file (c : FileContent) (st : State) : State :=
  {| dataPath := dataPath st; initialized := initialized st; data := data st;
     saveTimeout := saveTimeout st; now := now st; dirExists := dirExists st;
     file := Some c; timers := timers st; nextHandle := nextHandle st;
     console := console st; writes := writes st ++ [(now st, c)];
     writeMs := writeMs st; flushing := flushing st |}.
Definition set_timers (ts : list Timer) (n : nat) (st : State) : State :=
  {| dataPath := dataPath st; initialized := initialized st; data := data st;
     saveTimeout := saveTimeout st; now := now st; dirExists := dirExists st;
     file := file st; timers := ts; nextHandle := n;
     console := console st; writes := writes st;
     writeMs := writeMs st; flushing := flushing st |}.
Definition set_flushing (fs : list Flush) (st : State) : State :=
  {| dataPath := dataPath st; initialized := initialized st; data := data st;
     saveTimeout := saveTimeout st; now := now st; dirExists := dirExists st;
     file := file st; timers := timers st; nextHandle := nextHandle st;
     console := console st; writes := writes st;
     writeMs := writeMs st; flushing := fs |}.
Definition set_writeMs (ms : Z) (st : State) : State :=
  {| dataPath := dataPath st; initialized := initialized st; data := data st;
     saveTimeout := saveTimeout st; now := now st; dirExists := dirExists st;
     file := file st; timers := timers st; nextHandle := nextHandle st;
     console := console st; writes := writes st;
     writeMs := ms; flushing := flushing st |}.

(** A timer that was given the object [this.data] refers to keeps the
    object when [this.data] is assigned another one. *)
Definition release (old : StorageData) (tm : Timer) : Timer :=
  if shared tm
  then {| handle := handle tm; due := due tm; payload := Some old; shared := false |}
  else tm.

(** [this.data = d]: the object [this.data] referred to so far is from
    now on held only by the timers that were given it. An assignment to a
    field of [this.data] is [set_data]. *)
Definition assign_data (d : StorageData) (st : State) : State :=
  set_data d (set_timers (List.map (release (data st)) (timers st))
                         (nextHandle st) st).

Definition add_console (e : ConsoleEntry) (st : State) : State :=
  {| dataPath := dataPath st; initialized := initialized st; data := data st;
     saveTimeout := saveTimeout st; now := now st; dirExists := dirExists st;
     file := file st; timers := timers st; nextHandle := nextHandle st;
     console := console st ++ [e]; writes := writes st;
     writeMs := writeMs st; flushing := flushing st |}.

(** *** Node primitives *)

Definition Date_now : S Z := get now.

(** [existsSync(this.dataPath)] *)
Definition existsSync_dataPath : S bool := get dirExists.

(** [existsSync(this.filePath)] *)
Definition existsSync_filePath : S bool :=
  get (fun st => match file st with Some _ => true | None => false end).

(** [await mkdir(this.dataPath, { recursive: true })] *)
Definition mkdir : S unit := modify (set_dirExists true).

(** [await readFile(this.filePath, 'utf-8')] *)
Definition readFile : S FileContent :=
  fun st =>
    match file st with
    | Some c => (inr c, st)
    | None => (inl Js.ENOENT, st)
    end.

(** [await writeFile(this.filePath, text, 'utf-8')]: one physical write,
    recorded in [writes] with the time it happened. *)
Definition writeFile (c : FileContent) : S unit :=
  fun st =>
    if dirExists st then (inr tt, set_file c st)
    else (inl Js.ENOENT, st).

(** [JSON.parse(text)] *)
Definition JSON_parse (c : FileContent) : S StorageData :=
  match c with
  | Corrupt => throw Js.SyntaxError
  | Document d => ret d
  end.

(** [setTimeout(callback, ms)], returning the handle *)
Definition setTimeout (payload : option StorageData) (isThisData : bool) (ms : Z)
  : S nat :=
  fun st =>
    let h := nextHandle st in
    (inr h,
     set_timers (timers st ++ [{| handle := h; due := now st + ms;
                                  payload := payload; shared := isThisData |}])
                (Datatypes.S h) st).

(** [await writeFile(...)] in a callback of the event loop: the write is
    issued, and the callback is suspended until the write has settled,
    [writeMs] later. *)
Definition suspendOn (write : S unit) : S unit :=
  fun st =>
    match write st with
    | (written, st') =>
      (inr tt,
       set_flushing (flushing st' ++ [{| settles := now st' + writeMs st';
                                         outcome := written |}]) st')
    end.

(** [clearTimeout(handle)] *)
Definition clearTimeout (h : nat) : S unit :=
  modify (fun st =>
    set_timers (List.filter (fun t => negb (Nat.eqb (handle t) h)) (timers st))
               (nextHandle st) st).

(** *** Methods

    The texts written to the console are kept without their pictographs. *)

(** [private log(message)] *)
Definition log (message : string) : S unit :=
  modify (add_console (ConsoleLog ("[STORAGE] " +:+ message))).

Definition ensureInitialized : S unit :=
  let! ok := get initialized in
  if ok then ret tt
  else throw (Js.newError "Storage not initialized. Call initialize() first.").

Definition initializeEmptyState : S StorageData :=
  let! t := Date_now in
  ret {| configs := []; status := []; slaves := []; lastUpdated := t |}.

(** [{ ...base, ...loaded }] for a document that has every top-level
    field: each field of [base] is overwritten. *)
Definition spread (base loaded : StorageData) : StorageData :=
  {| configs := configs loaded; status := status loaded;
     slaves := slaves loaded; lastUpdated := lastUpdated loaded |}.

Definition stamp (d : StorageData) (t : Z) : StorageData :=
  {| configs := configs d; status := status d; slaves := slaves d;
     lastUpdated := t |}.

(** [save(state?)]. Objects are passed by value here, so the assignment
    [dataToSave.lastUpdated = Date.now()] is made visible by returning the
    object as the call leaves it; when [state] is omitted the object is
    [this.data] itself. [Some s] is an object other than the one
    [this.data] refers to; a call that is given that very object is
    [save None], which saves and stamps the same object. The call is one
    step: what else happens while its write is under way is not part of
    it. *)
Definition save (state : option StorageData) : S StorageData :=
  ensureInitialized ;;
  try_catch
    (let! this_data := get data in
     let dataToSave := match state with Some s => s | None => this_data end in
     let! t := Date_now in
     let dataToSave := stamp dataToSave t in
     (match state with
      | Some _ => ret tt
      | None => modify (set_data dataToSave)
      end) ;;
     writeFile (JSON_stringify dataToSave) ;;
     log "Saved monitor state" ;;
     ret dataToSave)
    (fun error =>
       modify (add_console (ConsoleError "Failed to save monitor state:" error)) ;;
       throw error).

Definition initialize : S unit :=
  try_catch
    (let! dirOk := existsSync_dataPath in
     (if negb dirOk then
        mkdir ;;
        let! path := get dataPath in
        log ("Created data directory: " +:+ path)
      else ret tt) ;;
     let! fileOk := existsSync_filePath in
     (if fileOk then
        let! fileContent := readFile in
        try_catch
          (let! loadedData := JSON_parse fileContent in
           let! empty := initializeEmptyState in
           modify (assign_data (spread empty loadedData)) ;;
           let! d := get data in
           log ("Loaded existing monitor state: "
                +:+ pretty (length (configs d)) +:+ " services, "
                +:+ pretty (length (status d)) +:+ " status, "
                +:+ pretty (length (slaves d)) +:+ " slaves"))
          (fun parseError =>
             modify (add_console
               (ConsoleWarn "Failed to parse existing state file, creating new one")))
      else
        let! empty := initializeEmptyState in
        modify (assign_data empty)) ;;
     modify (set_initialized true) ;;
     let! fileOk' := existsSync_filePath in
     if negb fileOk' then
       save None ;;
       log "Created new monitor state file"
     else ret tt)
    (fun error =>
       modify (add_console (ConsoleError "Failed to initialize storage:" error)) ;;
       throw error).

Definition loadState : S StorageData :=
  try_catch
    (let! content := readFile in
     let! state := JSON_parse content in
     let! empty := initializeEmptyState in
     ret (spread empty state))
    (fun error =>
       if Js.isENOENT error then initializeEmptyState
       else throw error).

Definition load : S StorageData :=
  ensureInitialized ;;
  try_catch
    (let! fileContent := readFile in
     JSON_parse fileContent)
    (fun error =>
       modify (add_console (ConsoleError "Failed to load monitor state:" error)) ;;
       throw error).

(** [debouncedSave(state?)]; [isThisData] says that [state] is the
    object [this.data] refers to. *)
Definition debouncedSave_of (isThisData : bool) (state : option StorageData)
  : S unit :=
  let! pending := get saveTimeout in
  (match pending with
   | Some h => clearTimeout h
   | None => ret tt
   end) ;;
  let! h := setTimeout state isThisData saveDebounceMs in
  modify (set_saveTimeout (Some h)).

(** [this.debouncedSave(state)] with no [state] or with an object of the
    caller's. *)
Definition debouncedSave (state : option StorageData) : S unit :=
  debouncedSave_of false state.

(** [this.debouncedSave(this.data)] *)
Definition debouncedSave_this_data : S unit :=
  let! this_data := get data in
  debouncedSave_of true (Some this_data).

(** The callback [debouncedSave] hands to [setTimeout],
    [async () => { await this.save(state); this.saveTimeout = null; }],
    takes two turns of the event loop. The first runs [save] up to its
    [await writeFile(...)]: the object is stamped, the write is issued, and
    the rest waits for the write to settle. When [ensureInitialized]
    throws, the promise of the callback is rejected at once and nothing
    waits. *)
Definition saveCallback (state : option StorageData) : S unit :=
  ensureInitialized ;;
  let! this_data := get data in
  let dataToSave := match state with Some s => s | None => this_data end in
  let! t := Date_now in
  let dataToSave := stamp dataToSave t in
  (match state with
   | Some _ => ret tt
   | None => modify (set_data dataToSave)
   end) ;;
  suspendOn (writeFile (JSON_stringify dataToSave)).

(** The second turn, when the write has settled: the rest of [save], and
    then [this.saveTimeout = null]. A rejection of [save] is not handled
    by the callback and leaves [saveTimeout] as it is. *)
Definition saveCallback_resume (written : Js.Thrown + unit) : S unit :=
  (match written with
   | inr _ => log "Saved monitor state"
   | inl error =>
     modify (add_console (ConsoleError "Failed to save monitor state:" error)) ;;
     throw error
   end) ;;
  modify (set_saveTimeout None).

(** The event loop between two calls: the pending timer that is due
    first, the earlier-set one among equals. *)
Fixpoint earliest (ts : list Timer) : option Timer :=
  match ts with
  | [] => None
  | t :: rest =>
    match earliest rest with
    | Some t' => if due t' <? due t then Some t' else Some t
    | None => Some t
    end
  end.

(** A timer fires: it leaves the queue, the clock stands at its due time
    (or later) and its callback runs up to its [await]. A timer that
    shares its object with [this.data] saves [this.data]. *)
Definition fire (tm : Timer) (st : State) : State :=
  let st1 := set_now (Z.max (now st) (due tm)) st in
  let st2 := set_timers
               (List.filter (fun t => negb (Nat.eqb (handle t) (handle tm))) (timers st1))
               (nextHandle st1) st1 in
  snd (saveCallback (if shared tm then None else payload tm) st2).

(** A write settles: the clock stands at that time (or later) and the
    callback that waited for it runs to its end. *)
Definition settle (f : Flush) (st : State) : State :=
  let st1 := set_now (Z.max (now st) (settles f)) st in
  let st2 := set_flushing (List.tl (flushing st1)) st1 in
  snd (saveCallback_resume (outcome f) st2).

(** What the event loop runs next, and when: the write that was issued
    first, or the timer that is due first; the write, when both come at
    the same time. *)
Inductive Turn :=
| Fires (tm : Timer)
| Settles (f : Flush).

Definition at_ (turn : Turn) : Z :=
  match turn with
  | Fires tm => due tm
  | Settles f => settles f
  end.

Definition nextTurn (st : State) : option Turn :=
  match List.hd_error (flushing st), earliest (timers st) with
  | Some f, Some tm =>
    if settles f <=? due tm then Some (Settles f) else Some (Fires tm)
  | Some f, None => Some (Settles f)
  | None, Some tm => Some (Fires tm)
  | None, None => None
  end.

Definition take (turn : Turn) (st : State) : State :=
  match turn with
  | Fires tm => fire tm st
  | Settles f => settle f st
  end.

Fixpoint runTimers (fuel : nat) (t : Z) (st : State) : State :=
  match fuel with
  | O => st
  | Datatypes.S fuel' =>
    match nextTurn st with
    | Some turn => if at_ turn <=? t then runTimers fuel' t (take turn st) else st
    | None => st
    end
  end.

(** Time passes until the clock reads [t]: every timer due by then
    fires and every write that has settled by then lets its callback
    resume, in order. No callback sets a timer and a timer issues one
    write, so the timers and writes pending at the start bound the number
    of turns. *)
Definition advanceTo (t : Z) (st : State) : State :=
  let st' := runTimers (2 * length (timers st) + length (flushing st)) t st in
  set_now (Z.max (now st') t) st'.

(** The object literal [serviceStatus] of [addService], with [now] the
    value of its [const now = Date.now()]. *)
Definition serviceStatus (service : ServiceConfig) (t : Z) : ServiceStatus.t :=
    {| ServiceStatus.id := id (base_of service);
       ServiceStatus.name := name (base_of service);
       ServiceStatus.type := type_of service;
       ServiceStatus.url :=
         match service with HttpServiceConfig _ u => Some u | _ => None end;
       ServiceStatus.host :=
         match service with IcmpServiceConfig _ h => Some h | _ => None end;
       ServiceStatus.interval := interval (base_of service);
       ServiceStatus.timeout := timeout (base_of service);
       ServiceStatus.createdAt := t;
       ServiceStatus.lastCheck := t;
       ServiceStatus.lastStatus := true;
       ServiceStatus.uptimePercentage := Some (Js.Fin 100);
       ServiceStatus.uptimePercentage30d := Some (Js.Fin 100);
       ServiceStatus.assignedSlaves := [];
       ServiceStatus.lastDowntime := None;
       ServiceStatus.downtimePeriods := [] |}.

Definition addService (service : ServiceConfig) : S unit :=
  let! state := load in
  let! t := Date_now in
  let state :=
    {| configs := configs state;
       status := status state ++ [serviceStatus service t];
       slaves := slaves state;
       lastUpdated := lastUpdated state |} in
  debouncedSave (Some state).

Definition removeService (serviceId : string) : S unit :=
  let! state := load in
  let state :=
    {| configs :=
         List.filter (fun s => negb (String.eqb (id (base_of s)) serviceId))
                     (configs state);
       status :=
         List.filter (fun s => negb (String.eqb (ServiceStatus.id s) serviceId))
                     (status state);
       slaves := slaves state;
       lastUpdated := lastUpdated state |} in
  debouncedSave (Some state).

Definition thirtyDays : Z := 30 * 24 * 60 * 60 * 1000.

(** [period.end || currentTime] *)
Definition endOr (period : DowntimePeriod) (currentTime : Z) : Z :=
  match end_ period with
  | Some e => Js.or_number e currentTime
  | None => currentTime
  end.

Record Percentages := mkPercentages {
  total : Js.jsnum;
  last30d : Js.jsnum
}.

Definition totalDowntimeMs (periods : list DowntimePeriod) (currentTime : Z) : Z :=
  fold_left (fun acc period => acc + (endOr period currentTime - start period))
            periods 0.

Definition recent30dDowntimeMs (periods : list DowntimePeriod) (currentTime : Z) : Z :=
  let thirtyDaysAgo := currentTime - thirtyDays in
  fold_left
    (fun acc period =>
       let start := Z.max (start period) thirtyDaysAgo in
       let end_ := endOr period currentTime in
       acc + (end_ - start))
    (List.filter (fun period => start period >=? thirtyDaysAgo) periods)
    0.

Definition timeWindow30d (service : ServiceStatus.t) (currentTime : Z) : Z :=
  let thirtyDaysAgo := currentTime - thirtyDays in
  let totalTime := currentTime - ServiceStatus.createdAt service in
  Z.min totalTime (currentTime - thirtyDaysAgo).

Definition calculateUptimePercentages (service : ServiceStatus.t) (currentTime : Z)
  : Percentages :=
  let totalTime := currentTime - ServiceStatus.createdAt service in
  let down := totalDowntimeMs (ServiceStatus.downtimePeriods service) currentTime in
  let totalUptimePercentage := Js.mulPos (Js.div (totalTime - down) totalTime) 100 in
  let down30 := recent30dDowntimeMs (ServiceStatus.downtimePeriods service) currentTime in
  let window := timeWindow30d service currentTime in
  let uptime30dPercentage := Js.mulPos (Js.div (window - down30) window) 100 in
  {| total := Js.Math_max 0 (Js.Math_min 100 totalUptimePercentage);
     last30d := Js.Math_max 0 (Js.Math_min 100 uptime30dPercentage) |}.

(** [array.findIndex(s => s.id === serviceId)]; [None] is [-1]. *)
Fixpoint findIndex (serviceId : string) (l : list ServiceStatus.t) : option nat :=
  match l with
  | [] => None
  | s :: rest =>
    if String.eqb (ServiceStatus.id s) serviceId then Some O
    else match findIndex serviceId rest with
         | Some i => Some (Datatypes.S i)
         | None => None
         end
  end.

Definition withPercentages (s : ServiceStatus.t) (p : Percentages) : ServiceStatus.t :=
  {| ServiceStatus.id := ServiceStatus.id s;
     ServiceStatus.name := ServiceStatus.name s;
     ServiceStatus.type := ServiceStatus.type s;
     ServiceStatus.url := ServiceStatus.url s;
     ServiceStatus.host := ServiceStatus.host s;
     ServiceStatus.interval := ServiceStatus.interval s;
     ServiceStatus.timeout := ServiceStatus.timeout s;
     ServiceStatus.createdAt := ServiceStatus.createdAt s;
     ServiceStatus.lastCheck := ServiceStatus.lastCheck s;
     ServiceStatus.lastStatus := ServiceStatus.lastStatus s;
     ServiceStatus.uptimePercentage := Some (total p);
     ServiceStatus.uptimePercentage30d := Some (last30d p);
     ServiceStatus.assignedSlaves := ServiceStatus.assignedSlaves s;
     ServiceStatus.lastDowntime := ServiceStatus.lastDowntime s;
     ServiceStatus.downtimePeriods := ServiceStatus.downtimePeriods s |}.

(** [updateServiceStatus]. The object [status] is stored in the state
    before its percentages are assigned and is the same object afterwards;
    with values, the percentages are computed first. The status as the
    call leaves it is returned. *)
Definition updateServiceStatus (serviceId : string) (status_ : ServiceStatus.t)
  : S ServiceStatus.t :=
  log ("Updating status for service " +:+ serviceId) ;;
  let! state := load in
  let! t1 := Date_now in
  let! t2 := Date_now in
  let status' := withPercentages status_ (calculateUptimePercentages status_ t2) in
  let statuses :=
    match findIndex serviceId (status state) with
    | None => status state ++ [status']
    | Some serviceIndex => <[serviceIndex := status']> (status state)
    end in
  let state :=
    {| configs := configs state; status := statuses; slaves := slaves state;
       lastUpdated := t1 |} in
  modify (assign_data state) ;;
  debouncedSave_this_data ;;
  ret status'.

(** [new Storage(storagePath)] at time [t], in an environment where the
    data directory and the state file are as given: the field
    initialisers. The disk is one that answers a write at once;
    [set_writeMs] gives the store a slower one. *)
Definition new (storagePath : string) (t : Z) (dir : bool)
  (content : option FileContent) : State :=
  {| dataPath := storagePath;
     initialized := false;
     data := {| configs := []; status := []; slaves := []; lastUpdated := t |};
     saveTimeout := None;
     now := t;
     dirExists := dir;
     file := content;
     timers := [];
     nextHandle := O;
     console := [];
     writes := [];
     writeMs := 0;
     flushing := [] |}.

(** *** The readers and the slave statuses *)

(** A [number | null] in a boolean position: [0], [NaN] and [null] are
    falsy. *)
Definition falsyNumber (x : option Js.jsnum) : bool :=
  match x with
  | Some (Js.Fin q) => Qeq_bool q 0
  | Some Js.NaN | None => true
  | Some Js.PosInf | Some Js.NegInf => false
  end.

(** [x || 100] *)
Definition orHundred (x : option Js.jsnum) : option Js.jsnum :=
  if falsyNumber x then Some (Js.Fin 100) else x.

(** [{ ...status, downtimePeriods: status.downtimePeriods || [],
       uptimePercentage30d: status.uptimePercentage30d || 100 }]; an array
    is truthy, so the periods stay. *)
Definition withDefaults (s : ServiceStatus.t) : ServiceStatus.t :=
  {| ServiceStatus.id := ServiceStatus.id s;
     ServiceStatus.name := ServiceStatus.name s;
     ServiceStatus.type := ServiceStatus.type s;
     ServiceStatus.url := ServiceStatus.url s;
     ServiceStatus.host := ServiceStatus.host s;
     ServiceStatus.interval := ServiceStatus.interval s;
     ServiceStatus.timeout := ServiceStatus.timeout s;
     ServiceStatus.createdAt := ServiceStatus.createdAt s;
     ServiceStatus.lastCheck := ServiceStatus.lastCheck s;
     ServiceStatus.lastStatus := ServiceStatus.lastStatus s;
     ServiceStatus.uptimePercentage := ServiceStatus.uptimePercentage s;
     ServiceStatus.uptimePercentage30d := orHundred (ServiceStatus.uptimePercentage30d s);
     ServiceStatus.assignedSlaves := ServiceStatus.assignedSlaves s;
     ServiceStatus.lastDowntime := ServiceStatus.lastDowntime s;
     ServiceStatus.downtimePeriods := ServiceStatus.downtimePeriods s |}.

(** [array.find(s => s.id === serviceId)] *)
Fixpoint find (serviceId : string) (l : list ServiceStatus.t)
  : option ServiceStatus.t :=
  match l with
  | [] => None
  | s :: rest =>
    if String.eqb (ServiceStatus.id s) serviceId then Some s
    else find serviceId rest
  end.

(** [array.find(s => s.id === slaveId)] on slaves *)
Fixpoint findSlave (slaveId : string) (l : list SlaveStatus.t)
  : option SlaveStatus.t :=
  match l with
  | [] => None
  | s :: rest =>
    if String.eqb (SlaveStatus.id s) slaveId then Some s
    else findSlave slaveId rest
  end.

(** [array.findIndex(s => s.id === slaveId)] on slaves; [None] is [-1]. *)
Fixpoint findSlaveIndex (slaveId : string) (l : list SlaveStatus.t) : option nat :=
  match l with
  | [] => None
  | s :: rest =>
    if String.eqb (SlaveStatus.id s) slaveId then Some O
    else match findSlaveIndex slaveId rest with
         | Some i => Some (Datatypes.S i)
         | None => None
         end
  end.

Definition getServices : S (list ServiceConfig) :=
  ensureInitialized ;;
  let! d := get data in
  ret (configs d).

Definition getSlaves : S (list SlaveStatus.t) :=
  ensureInitialized ;;
  let! d := get data in
  ret (slaves d).

(** [getServiceStatus]: it answers from [this.data]. The assignment of
    [[]] to missing [downtimePeriods] does not apply to an array. *)
Definition getServiceStatus (serviceId : string) : S (option ServiceStatus.t) :=
  ensureInitialized ;;
  let! d := get data in
  ret (find serviceId (status d)).

Definition getAllServiceConfigs : S (list ServiceConfig) :=
  let! state := load in
  ret (configs state).

Definition getAllServiceStatus : S (list ServiceStatus.t) :=
  let! state := load in
  ret (List.map withDefaults (status state)).

Definition getAllSlaveStatus : S (list SlaveStatus.t) :=
  let! state := load in
  ret (slaves state).

Definition loadServiceStatus (serviceId : string) : S (option ServiceStatus.t) :=
  let! state := load in
  match find serviceId (status state) with
  | Some s => ret (Some (withDefaults s))
  | None => ret None
  end.

Definition updateSlaveStatus (slaveId : string) (status_ : SlaveStatus.t) : S unit :=
  let! state := load in
  let slaves' :=
    match findSlaveIndex slaveId (slaves state) with
    | Some index => <[index := status_]> (slaves state)
    | None => slaves state ++ [status_]
    end in
  let state :=
    {| configs := configs state; status := status state; slaves := slaves';
       lastUpdated := lastUpdated state |} in
  debouncedSave (Some state).

(** [getSlaveStatus]: the file is loaded, and the answer is read from
    [this.data]. *)
Definition getSlaveStatus (slaveId : string) : S (option SlaveStatus.t) :=
  load ;;
  let! d := get data in
  ret (findSlave slaveId (slaves d)).

End Storage.

(* ===================================================================== *)
(** ** index.ts (part_002), class UptimeSlave                             *)
(* ===================================================================== *)

Module Slave.

(** A task of [cron.schedule]: the service its callback checks, and
    whether it still fires. *)
Record ScheduledTask := mkTask {
  service : ServiceConfig;
  running : bool
}.

(** Who started a check: the callback of a cron task, or [addService]
    for its initial check, which afterwards stores the handle [task] in
    [this.tasks]. *)
Inductive Origin :=
| Cron
| Initial (task : nat).

(** An activation suspended at an [await]: in
    [await this.monitor.checkService(service)] or, after it, in
    [await this.sendReport(result)]. *)
Inductive Job :=
| Checking (origin : Origin) (service : ServiceConfig)
| Reporting (origin : Origin) (service : ServiceConfig).

Record State := mkState {
  monitor : gmap string ServiceConfig;  (* this.monitor.services *)
  tasks : gmap string nat;              (* this.tasks, by handle *)
  cron : list ScheduledTask;            (* the scheduler's tasks, by handle *)
  jobs : list Job;
  reports : list MonitoringResult       (* the calls of sendReport, in order *)
}.

Definition initial : State :=
  {| monitor := ∅; tasks := ∅; cron := []; jobs := []; reports := [] |}.

(** What the event loop runs next. *)
Inductive Label :=
| CallAddService (service : ServiceConfig)
| CronTick (task : nat)
| CheckSettles (job : nat) (result : MonitoringResult)
| ReportSettles (job : nat) (delivered : bool)
| CallRemoveService (serviceId : string).

(** [task.stop()] *)
Definition stop (task : ScheduledTask) : ScheduledTask :=
  {| service := service task; running := false |}.

(** [addService] up to its first suspension: the service is added to
    the monitor, the task is scheduled and running, the initial check is
    under way; [this.tasks.set] has not happened yet.

    [cron.schedule] checks the expression it is given and throws when it
    does not take it. The library is not part of the repository:
    [schedules interval] says whether it takes the expression
    [*/interval * * * * *]. When it throws, [addService] rejects there:
    the service was added to the monitor, and there is no task, no check
    and no report. *)
Definition addService_enter (schedules : Z -> bool) (service : ServiceConfig)
  (st : State) : State :=
  if schedules (interval (base_of service)) then
    {| monitor := <[id (base_of service) := service]> (monitor st);
       tasks := tasks st;
       cron := cron st ++ [{| service := service; running := true |}];
       jobs := jobs st ++ [Checking (Initial (length (cron st))) service];
       reports := reports st |}
  else
    {| monitor := <[id (base_of service) := service]> (monitor st);
       tasks := tasks st;
       cron := cron st;
       jobs := jobs st;
       reports := reports st |}.

(** [removeService], which does not suspend. *)
Definition removeService (serviceId : string) (st : State) : State :=
  match tasks st !! serviceId with
  | Some task =>
    {| monitor := delete serviceId (monitor st);
       tasks := delete serviceId (tasks st);
       cron := alter stop task (cron st);
       jobs := jobs st;
       reports := reports st |}
  | None =>
    {| monitor := delete serviceId (monitor st);
       tasks := tasks st;
       cron := cron st;
       jobs := jobs st;
       reports := reports st |}
  end.

(** One turn of the event loop; [None] when the turn cannot happen in
    that state. [checkService] resolves with a result for the service it
    was given and never rejects. *)
Definition step (schedules : Z -> bool) (st : State) (l : Label)
  : option State :=
  match l with
  | CallAddService service => Some (addService_enter schedules service st)
  | CronTick task =>
    match cron st !! task with
    | Some t =>
      if running t then
        Some {| monitor := monitor st; tasks := tasks st; cron := cron st;
                jobs := jobs st ++ [Checking Cron (service t)];
                reports := reports st |}
      else None
    | None => None
    end
  | CheckSettles job result =>
    match jobs st !! job with
    | Some (Checking origin service) =>
      if String.eqb (serviceId result) (id (base_of service)) then
        Some {| monitor := monitor st; tasks := tasks st; cron := cron st;
                jobs := <[job := Reporting origin service]> (jobs st);
                reports := reports st ++ [result] |}
      else None
    | _ => None
    end
  | ReportSettles job delivered =>
    match jobs st !! job with
    | Some (Reporting Cron _) =>
      Some {| monitor := monitor st; tasks := tasks st; cron := cron st;
              jobs := delete job (jobs st); reports := reports st |}
    | Some (Reporting (Initial task) service) =>
      Some {| monitor := monitor st;
              tasks := if delivered
                       then <[id (base_of service) := task]> (tasks st)
                       else tasks st;
              cron := cron st;
              jobs := delete job (jobs st); reports := reports st |}
    | _ => None
    end
  | CallRemoveService serviceId => Some (removeService serviceId st)
  end.

Fixpoint run (schedules : Z -> bool) (st : State) (ls : list Label)
  : option State :=
  match ls with
  | [] => Some st
  | l :: rest =>
    match step schedules st l with
    | Some st' => run schedules st' rest
    | None => None
    end
  end.

Definition isFor (serviceId_ : string) (r : MonitoringResult) : bool :=
  String.eqb (serviceId r) serviceId_.

(** The reports sent for a service so far. *)
Definition reportsFor (serviceId : string) (st : State) : list MonitoringResult :=
  List.filter (isFor serviceId) (reports st).

Definition isCheckingFor (serviceId : string) (j : Job) : bool :=
  match j with
  | Checking _ service => String.eqb (id (base_of service)) serviceId
  | Reporting _ _ => false
  end.

(** The checks of a service that are in flight. *)
Definition inFlight (serviceId : string) (st : State) : list Job :=
  List.filter (isCheckingFor serviceId) (jobs st).

Definition addsService (serviceId : string) (l : Label) : bool :=
  match l with
  | CallAddService service => String.eqb (id (base_of service)) serviceId
  | _ => false
  end.

End Slave.

(* ===================================================================== *)
(** ** index.ts (part_002), the routes and the heartbeat                  *)
(* ===================================================================== *)

Module Api.

(** The body of [POST /service], as its schema admits it. *)
Module Body.
Record t := mk {
  id : string;
  name : string;
  type : MonitorType;
  interval : Z;
  timeout : Z;
  url : option string;
  host : option string
}.
End Body.

(** [!x] for an optional string: [undefined] and [''] are falsy. *)
Definition missing (x : option string) : bool :=
  match x with
  | Some s => negb (Js.truthy_string s)
  | None => true
  end.

Definition baseOf (body : Body.t) : BaseServiceConfig :=
  {| id := Body.id body; name := Body.name body;
     interval := Body.interval body; timeout := Body.timeout body |}.

(** The handler of [POST /service] up to its call of [addService]: the
    error it throws, or the [body as ServiceConfig] it hands on. *)
Definition postService (body : Body.t) : Js.Thrown + ServiceConfig :=
  match Body.type body with
  | http =>
    match Body.url body with
    | Some u =>
      if Js.truthy_string u then inr (HttpServiceConfig (baseOf body) u)
      else inl (Js.newError "URL is required for HTTP services")
    | None => inl (Js.newError "URL is required for HTTP services")
    end
  | icmp =>
    match Body.host body with
    | Some h =>
      if Js.truthy_string h then inr (IcmpServiceConfig (baseOf body) h)
      else inl (Js.newError "Host is required for ICMP services")
    | None => inl (Js.newError "Host is required for ICMP services")
    end
  end.

(** The fields of [SlaveConfig] the heartbeat reads. *)
Module SlaveConfig.
Record t := mk {
  id : string;
  name : option string;
  masterUrl : string;
  apiKey : string
}.
End SlaveConfig.

(** [Array.from(array.keys())]: the indices of the array. *)
Definition keys {A} (array : list A) : list nat := seq 0 (length array).

(** [JSON.stringify] of an array of indices. *)
Definition stringifyIndices (l : list nat) : string :=
  match l with
  | [] => "[]"
  | x :: rest =>
    fold_left (fun acc y => acc +:+ "," +:+ pretty y) rest ("[" +:+ pretty x) +:+ "]"
  end.

(** The headers of the request [sendHeartbeat] makes; [services] is
    what [this.monitor.getServices()] returns. *)
Definition heartbeatHeaders (config : SlaveConfig.t) (services : list ServiceConfig)
  : list (string * string) :=
  [("Authorization", "Bearer " +:+ SlaveConfig.apiKey config);
   ("Content-Type", "application/json");
   ("X-Slave-Id", SlaveConfig.id config);
   ("X-Slave-Name", Js.or_string (SlaveConfig.name config) "Unnamed Slave");
   ("X-Slave-Services", stringifyIndices (keys services))].

(** Reading a header. *)
Fixpoint header (name : string) (headers : list (string * string)) : option string :=
  match headers with
  | [] => None
  | (k, v) :: rest => if String.eqb k name then Some v else header name rest
  end.

End Api.

(* ===================================================================== *)
(** ** monitor.ts, the registry of the monitor                            *)
(* ===================================================================== *)

Module Registry.

(** [Map<string, ServiceConfig>]: the entries in insertion order. *)
Definition t : Type := list (string * ServiceConfig).

(** [map.set(key, value)]: the value of a key that is present is
    replaced where it stands, a new key goes to the end. *)
Fixpoint set (key : string) (value : ServiceConfig) (m : t) : t :=
  match m with
  | [] => [(key, value)]
  | (k, v) :: rest =>
    if String.eqb k key then (k, value) :: rest
    else (k, v) :: set key value rest
  end.

(** [map.delete(key)] *)
Definition delete (key : string) (m : t) : t :=
  List.filter (fun e => negb (String.eqb (fst e) key)) m.

(** [map.get(key)] *)
Fixpoint get (key : string) (m : t) : option ServiceConfig :=
  match m with
  | [] => None
  | (k, v) :: rest => if String.eqb k key then Some v else get key rest
  end.

Definition empty : t := [].

Definition addService (service : ServiceConfig) (m : t) : t :=
  set (id (base_of service)) service m.

Definition removeService (serviceId : string) (m : t) : t :=
  delete serviceId m.

Definition clearServices (m : t) : t := [].

(** [Array.from(this.services.values())] *)
Definition getServices (m : t) : list ServiceConfig := List.map snd m.

(** The calls made on a monitor. *)
Inductive Call :=
| AddService (service : ServiceConfig)
| RemoveService (serviceId : string)
| ClearServices.

Definition call (m : t) (c : Call) : t :=
  match c with
  | AddService service => addService service m
  | RemoveService serviceId => removeService serviceId m
  | ClearServices => clearServices m
  end.

End Registry.

(* ===================================================================== *)
(** ** utils/ping.ts, the variant on the ping package                     *)
(* ===================================================================== *)

Module Ping.
Import Probe.

(** The fields of [PingResponse] (types/ping.d.ts) that [ping] reads. *)
Record PingResponse := mkResponse {
  alive : bool;
  output : string;
  time : Q
}.

(** [options.timeout || 5000] *)
Definition timeoutOf (timeout : option Z) : Z :=
  match timeout with
  | Some t => Js.or_number t 5000
  | None => 5000
  end.

(** [ping(host, options)], given what the awaited
    [pingModule.promise.probe] yields: the promise it returns, settled
    when the probe is. *)
Definition ping (probe : Outcome PingResponse) (timeout : option Z)
  : Outcome PingResult.t :=
  match probe with
  | Resolves lat result =>
    Resolves lat
      {| PingResult.alive := alive result;
         PingResult.time := Some (time result);
         PingResult.error := if alive result then None else Some (output result) |}
  | Rejects lat err =>
    Resolves lat
      {| PingResult.alive := false;
         PingResult.time := Some (inject_Z (timeoutOf timeout));
         PingResult.error := Some (Js.errorMessage err) |}
  end.

End Ping.

(* ===================================================================== *)
(** ** storage.ts (part_001), class StateStorage                          *)
(* ===================================================================== *)

Module StateStorage.

(** The value of [StoredState.slaves]. *)
Record SlaveEntry := mkSlave {
  name : string;
  lastSeen : Z;
  services_ : list string
}.

(** [StoredState]: two objects used as maps from id to value. *)
Record StoredState := mkStored {
  services : gmap string ServiceStatus.t;
  slaves : gmap string SlaveEntry
}.

(** The content of the state file, as [JSON.parse] sees it. *)
Inductive FileContent :=
| Corrupt
| Stored (s : StoredState).

Record State := mkState {
  dirExists : bool;
  file : option FileContent;
  writes : list FileContent
}.

Definition S (A : Type) : Type := State -> (Js.Thrown + A) * State.

Definition ret {A} (a : A) : S A := fun st => (inr a, st).
Definition throw {A} (e : Js.Thrown) : S A := fun st => (inl e, st).
Definition bind {A B} (m : S A) (k : A -> S B) : S B :=
  fun st =>
    match m st with
    | (inr a, st') => k a st'
    | (inl e, st') => (inl e, st')
    end.
Definition try_catch {A} (m : S A) (handler : Js.Thrown -> S A) : S A :=
  fun st =>
    match m st with
    | (inr a, st') => (inr a, st')
    | (inl e, st') => handler e st'
    end.

Declare Scope state_storage_scope.
Delimit Scope state_storage_scope with state_storage.
Notation "'let!' x ':=' m 'in' k" := (bind m (fun x => k))
  (at level 10, x name, m at level 100, k at level 200) : state_storage_scope.
Notation "m ';;' k" := (bind m (fun _ => k))
  (at level 100, k at level 200, right associativity) : state_storage_scope.
Open Scope state_storage_scope.

(** [await mkdir(this.dataDir, { recursive: true })] *)
Definition mkdir : S unit :=
  fun st => (inr tt, {| dirExists := true; file := file st; writes := writes st |}).

(** [await readFile(this.stateFile, 'utf-8')] *)
Definition readFile : S FileContent :=
  fun st =>
    match file st with
    | Some c => (inr c, st)
    | None => (inl Js.ENOENT, st)
    end.

(** [await writeFile(this.stateFile, text, 'utf-8')] *)
Definition writeFile (c : FileContent) : S unit :=
  fun st =>
    if dirExists st then
      (inr tt, {| dirExists := true; file := Some c; writes := writes st ++ [c] |})
    else (inl Js.ENOENT, st).

(** [JSON.parse(data) as StoredState] *)
Definition JSON_parse (c : FileContent) : S StoredState :=
  match c with
  | Corrupt => throw Js.SyntaxError
  | Stored s => ret s
  end.

(** [JSON.stringify(state, null, 2)] *)
Definition JSON_stringify (s : StoredState) : FileContent :=
  Stored {| services := Storage.stringifyStatus <$> services s;
            slaves := slaves s |}.

(** [loadState]; [None] is [null]. *)
Definition loadState : S (option StoredState) :=
  try_catch
    (mkdir ;;
     let! data := readFile in
     let! state := JSON_parse data in
     ret (Some state))
    (fun error =>
       if Js.isENOENT error then ret None
       else throw error).

Definition saveState (state : StoredState) : S unit :=
  mkdir ;;
  writeFile (JSON_stringify state).

(** The names a plain object inherits from [Object.prototype]. *)
Definition objectPrototype : list string :=
  ["constructor"; "hasOwnProperty"; "isPrototypeOf"; "propertyIsEnumerable";
   "toLocaleString"; "toString"; "valueOf"; "__defineGetter__";
   "__defineSetter__"; "__lookupGetter__"; "__lookupSetter__"; "__proto__"].

(** What [object[id]] yields on a plain object: the value of its own
    property, or else the member of [Object.prototype] of that name. *)
Inductive Property (A : Type) :=
| Own (a : A)
| Inherited (name : string).
Arguments Own {A} a.
Arguments Inherited {A} name.

(** [object[id] = value] for a value that is an object. Where the
    object has no own property [__proto__], an assignment to that name
    goes to the setter of [Object.prototype]: the prototype changes and no
    property is added, so [JSON.stringify] does not see the value. *)
Definition assign {A} (id : string) (value : A) (object : gmap string A)
  : gmap string A :=
  match object !! id with
  | Some _ => <[id := value]> object
  | None => if String.eqb id "__proto__" then object else <[id := value]> object
  end.

(** [object[id] || null] on an object that came out of [JSON.parse];
    [None] is [null]. Its own values are objects and the members of
    [Object.prototype] are functions or objects, all truthy. *)
Definition read {A} (id : string) (object : gmap string A) : option (Property A) :=
  match object !! id with
  | Some a => Some (Own a)
  | None =>
    if existsb (String.eqb id) objectPrototype then Some (Inherited id) else None
  end.

(** [(await this.loadState()) || { services: {}, slaves: {} }] *)
Definition orEmpty (state : option StoredState) : StoredState :=
  match state with
  | Some s => s
  | None => {| services := ∅; slaves := ∅ |}
  end.

Definition updateServiceStatus (id : string) (status : ServiceStatus.t) : S unit :=
  let! loaded := loadState in
  let state := orEmpty loaded in
  let state := {| services := assign id status (services state);
                  slaves := slaves state |} in
  saveState state.

Definition updateSlaveStatus (id : string) (status : SlaveEntry) : S unit :=
  let! loaded := loadState in
  let state := orEmpty loaded in
  let state := {| services := services state;
                  slaves := assign id status (slaves state) |} in
  saveState state.

(** [getServiceStatus]; [None] is [null]. *)
Definition getServiceStatus (id : string)
  : S (option (Property ServiceStatus.t)) :=
  let! state := loadState in
  match state with
  | None => ret None
  | Some s => ret (read id (services s))
  end.

End StateStorage.

(* ===================================================================== *)
(** ** Vocabulary of the properties                                       *)
(* ===================================================================== *)

Module Sample.

Definition apiBase : BaseServiceConfig :=
  {| id := "api"; name := "API"; interval := 30; timeout := 5000 |}.

Definition api : ServiceConfig :=
  HttpServiceConfig apiBase "http://api.local/status".

Definition gatewayBase : BaseServiceConfig :=
  {| id := "gw"; name := "Gateway"; interval := 10; timeout := 2000 |}.

Definition gateway : ServiceConfig :=
  IcmpServiceConfig gatewayBase "10.0.0.1".

(** The defaults of the slave: [retryAttempts: 3], [timeout: 30000]. *)
Definition config : MonitorConfig.t :=
  {| MonitorConfig.maxConcurrent := 50;
     MonitorConfig.timeout := 30000;
     MonitorConfig.retryAttempts := 3 |}.

Definition response500 : Probe.HttpResponse.t :=
  {| Probe.HttpResponse.status := 500;
     Probe.HttpResponse.statusText := "Internal Server Error";
     Probe.HttpResponse.body := Js.Malformed |}.

Definition unreachable : Probe.PingResult.t :=
  {| Probe.PingResult.alive := false; Probe.PingResult.time := None;
     Probe.PingResult.error := Some "Host unreachable" |}.

Definition reachable : Probe.PingResult.t :=
  {| Probe.PingResult.alive := true; Probe.PingResult.time := Some (20 # 1)%Q;
     Probe.PingResult.error := None |}.

(** An endpoint that answers every request with status 500 after 40 ms. *)
Definition always500 : Probe.Network :=
  {| Probe.onFetch := fun _ => Probe.Resolves 40 response500;
     Probe.onPing := fun _ => Probe.Resolves 20 unreachable |}.

Definition world0 : Probe.World :=
  {| Probe.now := 1000000; Probe.probes := 0; Probe.trace := [] |}.

Definition statusItem : Js.json :=
  Js.JObj [("id", Js.JStr "db"); ("name", Js.JStr "Database");
           ("type", Js.JStr "icmp"); ("interval", Js.JNum (10 # 1)%Q);
           ("timeout", Js.JNum (2000 # 1)%Q); ("lastStatus", Js.JBool true);
           ("assignedSlaves", Js.JArr [Js.JStr "slave1"])].

Definition response200 : Probe.HttpResponse.t :=
  {| Probe.HttpResponse.status := 200; Probe.HttpResponse.statusText := "OK";
     Probe.HttpResponse.body := Js.Parses (Js.JArr [statusItem]) |}.

Definition refused : Js.Thrown :=
  {| Js.instanceofError := true; Js.name := "TypeError";
     Js.message := "fetch failed"; Js.code := None;
     Js.asString := "TypeError: fetch failed" |}.

Definition aborted : Js.Thrown :=
  {| Js.instanceofError := true; Js.name := "AbortError";
     Js.message := "The operation was aborted"; Js.code := None;
     Js.asString := "AbortError: The operation was aborted" |}.

(** A network that refuses the first connection after 30 ms and serves
    the following ones in 40 ms. *)
Definition flaky : Probe.Network :=
  {| Probe.onFetch := fun n =>
       match n with
       | O => Probe.Rejects 30 refused
       | S _ => Probe.Resolves 40 response200
       end;
     Probe.onPing := fun n =>
       match n with
       | O => Probe.Rejects 10 refused
       | S _ => Probe.Resolves 20 reachable
       end |}.

(** An endpoint on which every request is aborted by the 5000 ms
    timeout. *)
Definition hanging : Probe.Network :=
  {| Probe.onFetch := fun _ => Probe.Rejects 5000 aborted;
     Probe.onPing := fun _ => Probe.Resolves 2000 unreachable |}.

Definition day : Z := 24 * 60 * 60 * 1000.

(** The status [addService] creates for [api] at time [t], with the
    downtime periods [periods]. *)
Definition statusAt (t : Z) (periods : list DowntimePeriod) : ServiceStatus.t :=
  {| ServiceStatus.id := "api";
     ServiceStatus.name := "API";
     ServiceStatus.type := http;
     ServiceStatus.url := Some "http://api.local/status";
     ServiceStatus.host := None;
     ServiceStatus.interval := 30;
     ServiceStatus.timeout := 5000;
     ServiceStatus.createdAt := t;
     ServiceStatus.lastCheck := t;
     ServiceStatus.lastStatus := true;
     ServiceStatus.uptimePercentage := Some (Js.Fin 100);
     ServiceStatus.uptimePercentage30d := Some (Js.Fin 100);
     ServiceStatus.assignedSlaves := [];
     ServiceStatus.lastDowntime := None;
     ServiceStatus.downtimePeriods := periods |}.

(** An outage from day 5 to day 20 of the service's life. *)
Definition oldOutage : DowntimePeriod :=
  {| start := 5 * day; end_ := Some (20 * day) |}.

(** An outage from day 15 to day 20. *)
Definition recentOutage : DowntimePeriod :=
  {| start := 15 * day; end_ := Some (20 * day) |}.

(** A snapshot with one service and its status, last written at
    time 5. *)
Definition snapshot : StorageData :=
  {| configs := [api];
     status := [statusAt 0 [recentOutage]];
     slaves := [];
     lastUpdated := 5 |}.

(** A storage object that was initialised on an empty data directory
    at time 1000000. *)
Definition store : Storage.State :=
  snd (Storage.initialize (Storage.new "./data" 1000000 false None)).

(** Three save requests within 5 s of the first. *)
Definition requests : list (Z * option StorageData) :=
  [(1002000, None);
   (1004900, Some {| configs := []; status := [statusAt 0 [recentOutage]];
                     slaves := []; lastUpdated := 5 |})].

(** The same store on a disk that takes 1000 ms for a write. *)
Definition slowStore : Storage.State := Storage.set_writeMs 1000 store.

(** That store while a write is under way: a save of [snapshot] was
    requested at 1000000, its timer fired at 1005000, and the write it
    issued settles at 1006000. *)
Definition writing : Storage.State :=
  Storage.advanceTo 1005000
    (snd (Storage.debouncedSave (Some snapshot) slowStore)).

(** [snapshot] without its config. *)
Definition emptied : StorageData :=
  {| configs := []; status := [statusAt 0 [recentOutage]];
     slaves := []; lastUpdated := 5 |}.

(** Two save requests, at 1005200 and at 1006500. *)
Definition late : list (Z * option StorageData) :=
  [(1005200, Some snapshot); (1006500, Some emptied)].

Definition gatewayUp (t : Z) : MonitoringResult :=
  {| serviceId := "gw"; timestamp := t; success := true; duration := 20;
     error := None |}.

(** A [cron.schedule] for the examples: it takes the steps from 1 to
    59 and throws for every other. *)
Definition schedules (interval : Z) : bool :=
  (1 <=? interval) && (interval <=? 59).

(** The slave after [gateway] was added and reported once, with the
    check of the first cron tick still in flight. *)
Definition checking : list Slave.Label :=
  [Slave.CallAddService gateway;
   Slave.CheckSettles 0 (gatewayUp 1000020);
   Slave.ReportSettles 0 true;
   Slave.CronTick 0].

Definition busy : Slave.State :=
  match Slave.run schedules Slave.initial checking with
  | Some st => st
  | None => Slave.initial
  end.

End Sample.

Module Spec.
Import Probe.

(** Every probe attempt observes the HTTP status [code]. *)
Definition alwaysStatus (net : Network) (code : Z) : Prop :=
  forall n, exists lat text content,
    onFetch net n
    = Resolves lat {| HttpResponse.status := code;
                      HttpResponse.statusText := text;
                      HttpResponse.body := content |}.

(** The events a computation added to the trace. *)
Definition added (before after : World) : list Event :=
  drop (length (trace before)) (trace after).

(** The 500 scenario in the specification's words: the whole attempt
    budget is spent, with the fixed delay between consecutive attempts,
    and the failure is reported. *)
Definition retriesEvery500 (config : MonitorConfig.t) (w : World)
  (out : MonitoringResult * World) : Prop :=
  let n := Z.to_nat (MonitorConfig.retryAttempts config) in
  length (fetches (added w (snd out))) = n
  /\ sleeps (added w (snd out)) = repeat (EvSleep 1000) (n - 1)
  /\ success (fst out) = false
  /\ exists text, error (fst out) = Some ("HTTP 500: " +:+ text).

(** The first [n] probes made from probe number [from] on are rejected. *)
Definition rejectedBefore {A} (script : nat -> Outcome A) (from n : nat) : Prop :=
  forall j, (j < n)%nat -> exists lat err, script (from + j)%nat = Rejects lat err.

(** The world after [n] attempts that were rejected and each followed by
    the inter-retry sleep; [ev] is the event of the probe. *)
Fixpoint afterRejects {A} (script : nat -> Outcome A) (ev : Event) (n : nat)
  (w : World) : World :=
  match n with
  | O => w
  | S n' =>
    afterRejects script ev n'
      {| now := now w + latency (script (probes w)) + 1000;
         probes := S (probes w);
         trace := (trace w ++ [ev]) ++ [EvSleep 1000] |}
  end.

(** The time [n] rejected attempts and their sleeps take. *)
Fixpoint retryTime {A} (script : nat -> Outcome A) (from n : nat) : Z :=
  match n with
  | O => 0
  | S n' => latency (script from) + 1000 + retryTime script (S from) n'
  end.

(** A check is decided on attempt [n + 1]: the [n] attempts before it
    were rejected and it is within the budget; it either comes back or is
    the last attempt of the budget. *)
Definition decidedOn {A} (script : nat -> Outcome A) (from : nat) (retry : Z)
  (n : nat) : Prop :=
  rejectedBefore script from n
  /\ Z.of_nat n + 1 <= retry
  /\ ((exists lat a, script (from + n)%nat = Resolves lat a)
      \/ Z.of_nat n + 1 = retry).

(** The service-status shape of one element of the response. *)
Definition hasServiceStatusShape (item : Js.json) : Prop :=
  exists fields, item = Js.JObj fields
    /\ (exists s, Js.getField fields "id" = Some (Js.JStr s))
    /\ (exists s, Js.getField fields "name" = Some (Js.JStr s))
    /\ (Js.getField fields "type" = Some (Js.JStr "http")
        \/ Js.getField fields "type" = Some (Js.JStr "icmp"))
    /\ (exists q, Js.getField fields "interval" = Some (Js.JNum q))
    /\ (exists q, Js.getField fields "timeout" = Some (Js.JNum q))
    /\ (exists b, Js.getField fields "lastStatus" = Some (Js.JBool b))
    /\ (exists l, Js.getField fields "assignedSlaves" = Some (Js.JArr l)).

(** The response is status 200 with a body that parses as an array of
    service statuses. *)
Definition isStatusList (response : HttpResponse.t) : Prop :=
  HttpResponse.status response = 200
  /\ exists items, HttpResponse.body response = Js.Parses (Js.JArr items)
       /\ Forall hasServiceStatusShape items.

(** The message the first variant stores for a response that is not
    [ok]. *)
Definition httpError (response : HttpResponse.t) : option string :=
  if ok response then None
  else Some ("HTTP " +:+ pretty (HttpResponse.status response) +:+ ": "
             +:+ HttpResponse.statusText response).

(** The duration a result reports is the wall time of the deciding
    attempt's probe alone. *)
Definition durationOfDecidingAttempt {A} (script : nat -> Outcome A)
  (from n : nat) (r : MonitoringResult) : Prop :=
  duration r = latency (script (from + n)%nat).

(** A percentage: a number between 0 and 100. *)
Definition inRange (x : Js.jsnum) : Prop :=
  match x with
  | Js.Fin q => (0 <= q /\ q <= 100)%Q
  | Js.PosInf | Js.NegInf | Js.NaN => False
  end.

(** The part of a downtime period that lies in the 30-day window ending
    at [currentTime]. *)
Definition clippedToWindow (period : DowntimePeriod) (currentTime : Z) : Z :=
  let windowStart := currentTime - Storage.thirtyDays in
  let periodEnd := match end_ period with Some e => e | None => currentTime end in
  Z.max 0 (Z.min periodEnd currentTime - Z.max (start period) windowStart).

(** A period overlaps the window. *)
Definition overlapsWindow (period : DowntimePeriod) (currentTime : Z) : Prop :=
  0 < clippedToWindow period currentTime.

(** The empty, well-formed snapshot stamped [t]. *)
Definition emptyState (t : Z) : StorageData :=
  {| configs := []; status := []; slaves := []; lastUpdated := t |}.

Definition isConsoleError (e : Storage.ConsoleEntry) : bool :=
  match e with Storage.ConsoleError _ _ => true | _ => false end.

(** Loading in the specification's words: on a missing file and on a
    corrupt one alike, the loader returns an empty snapshot and raises
    nothing. *)
Definition toleratesMissingAndCorrupt (loader : Storage.S StorageData) : Prop :=
  forall st,
    Storage.initialized st = true ->
    Storage.file st = None \/ Storage.file st = Some Storage.Corrupt ->
    exists t st', loader st = (inr (emptyState t), st').

(** A number that JSON can hold. *)
Definition finite (x : option Js.jsnum) : Prop :=
  exists q, x = Some (Js.Fin q).

(** A well-formed snapshot: its percentages are numbers. *)
Definition wellFormed (s : StorageData) : Prop :=
  Forall (fun x => finite (ServiceStatus.uptimePercentage x)
                   /\ finite (ServiceStatus.uptimePercentage30d x))
         (status s).

(** [save(s)] followed by [load()]. *)
Definition saveThenLoad (s : StorageData) : Storage.S StorageData :=
  Storage.bind (Storage.save (Some s)) (fun _ => Storage.load).

(** The round trip in the specification's words: what is loaded is the
    snapshot that was handed to [save], [lastUpdated] included. *)
Definition roundTrips (st : Storage.State) (s : StorageData) : Prop :=
  exists st', saveThenLoad s st = (inr s, st').

(** The number of stored configs with the id of a status. *)
Definition configsOf (d : StorageData) (s : ServiceStatus.t) : nat :=
  length (List.filter
            (fun c => String.eqb (id (base_of c)) (ServiceStatus.id s))
            (configs d)).

(** Every stored status has exactly one stored config with its id. *)
Definition everyStatusHasItsConfig (d : StorageData) : Prop :=
  Forall (fun s => configsOf d s = 1%nat) (status d).

(** A burst of debounced save requests: each is issued when the clock
    reads its time. *)
Fixpoint burst (requests : list (Z * option StorageData)) (st : Storage.State)
  : Storage.State :=
  match requests with
  | [] => st
  | (t, state) :: rest =>
    burst rest (snd (Storage.debouncedSave state (Storage.advanceTo t st)))
  end.

(** The requests follow one another, from time [from] on, each less
    than one debounce window after the one before. *)
Fixpoint withinWindow (from : Z) (requests : list (Z * option StorageData)) : Prop :=
  match requests with
  | [] => True
  | (t, _) :: rest =>
    from <= t /\ t < from + Storage.saveDebounceMs /\ withinWindow t rest
  end.

(** What a physical write of [state] at time [t] puts in the file. *)
Definition written (st : Storage.State) (state : option StorageData) (t : Z)
  : Storage.FileContent :=
  Storage.JSON_stringify
    (Storage.stamp (match state with Some s => s | None => Storage.data st end) t).

(** The store has one save pending, requested at time [t] with [state],
    no write is under way, and nothing was written or changed in memory
    since [st0]. *)
Definition pendingAt (st0 st : Storage.State) (t : Z) (state : option StorageData)
  : Prop :=
  exists h,
    Storage.timers st
    = [{| Storage.handle := h; Storage.due := t + Storage.saveDebounceMs;
          Storage.payload := state; Storage.shared := false |}]
    /\ Storage.flushing st = []
    /\ Storage.saveTimeout st = Some h
    /\ Storage.now st = t
    /\ Storage.writes st = Storage.writes st0
    /\ Storage.data st = Storage.data st0
    /\ Storage.initialized st = true
    /\ Storage.dirExists st = true.

(** The requests of a burst lie in the one debounce window that the
    first of them, at [first], opens, in the order they are issued. *)
Fixpoint inOneWindow (first from : Z) (requests : list (Z * option StorageData))
  : Prop :=
  match requests with
  | [] => True
  | (t, _) :: rest =>
    from <= t /\ t < first + Storage.saveDebounceMs /\ inOneWindow first t rest
  end.

(** Removal in the specification's words: whatever happens after
    [removeService] has returned, no further report for the service is
    sent. *)
Definition silentAfterRemoval (schedules : Z -> bool) (serviceId : string)
  (st : Slave.State) (after : list Slave.Label) : Prop :=
  forall st',
    Slave.run schedules (Slave.removeService serviceId st) after = Some st' ->
    Slave.reportsFor serviceId st'
    = Slave.reportsFor serviceId (Slave.removeService serviceId st).

(** The only task of the service that still fires is the one
    [this.tasks] holds for it. *)
Definition onlyRegisteredRuns (serviceId : string) (st : Slave.State) : Prop :=
  forall handle task,
    Slave.cron st !! handle = Some task ->
    Slave.running task = true ->
    id (base_of (Slave.service task)) = serviceId ->
    Slave.tasks st !! serviceId = Some handle.

(** No task of the service fires any more. *)
Definition allStopped (serviceId : string) (st : Slave.State) : Prop :=
  forall handle task,
    Slave.cron st !! handle = Some task ->
    id (base_of (Slave.service task)) = serviceId ->
    Slave.running task = false.

End Spec.

(** Vocabulary of the further properties. *)
Module Behaviour.
Import Probe.

(** [k] probes [ev], with the inter-retry sleep between consecutive
    ones. *)
Fixpoint retryTrace (ev : Event) (k : nat) : list Event :=
  match k with
  | O => []
  | S k' =>
    match k' with
    | O => [ev]
    | S _ => ev :: EvSleep 1000 :: retryTrace ev k'
    end
  end.

(** What a check did: [k] probes [ev] and a sleep of 1000 ms between
    consecutive ones, and no other probe. *)
Definition probedTimes (isProbe : Event -> bool) (ev : Event) (k : nat)
  (before after : World) : Prop :=
  List.filter isProbe (Spec.added before after) = repeat ev k
  /\ sleeps (Spec.added before after) = repeat (EvSleep 1000) (k - 1).

(** Who started the activation a job belongs to. *)
Definition originOf (j : Slave.Job) : Slave.Origin :=
  match j with
  | Slave.Checking o _ => o
  | Slave.Reporting o _ => o
  end.

(** The service a job checks. *)
Definition serviceOf (j : Slave.Job) : ServiceConfig :=
  match j with
  | Slave.Checking _ s => s
  | Slave.Reporting _ s => s
  end.

(** Every handle the slave holds, in [this.tasks] or in an [addService]
    that has not returned, is the handle of a scheduled task. *)
Definition handlesScheduled (st : Slave.State) : Prop :=
  (forall k h, Slave.tasks st !! k = Some h -> (h < length (Slave.cron st))%nat)
  /\ Forall (fun j => forall h, originOf j = Slave.Initial h ->
                                (h < length (Slave.cron st))%nat)
            (Slave.jobs st).

(** Task [h] checks [service] and fires, and nothing holds its handle:
    no entry of [this.tasks], and no [addService] that has yet to
    return. *)
Definition orphaned (h : nat) (service : ServiceConfig) (st : Slave.State) : Prop :=
  Slave.cron st !! h = Some {| Slave.service := service; Slave.running := true |}
  /\ (forall k, Slave.tasks st !! k <> Some h)
  /\ Forall (fun j => originOf j <> Slave.Initial h) (Slave.jobs st).

(** The services of the [addService] calls among the turns. *)
Definition addedBy (ls : list Slave.Label) : list ServiceConfig :=
  flat_map (fun l => match l with
                     | Slave.CallAddService s => [s]
                     | _ => []
                     end) ls.

(** [r] is a result for one of [services]. *)
Definition reportsOn (services : list ServiceConfig) (r : MonitoringResult) : Prop :=
  exists service, In service services /\ id (base_of service) = serviceId r.

(** Every task, every check in flight and every report is for one of
    [services]. *)
Definition accountedFor (services : list ServiceConfig) (st : Slave.State) : Prop :=
  Forall (fun t => In (Slave.service t) services) (Slave.cron st)
  /\ Forall (fun j => In (serviceOf j) services) (Slave.jobs st)
  /\ Forall (reportsOn services) (Slave.reports st).

(** The error of [ensureInitialized]. *)
Definition notInitialized : Js.Thrown :=
  Js.newError "Storage not initialized. Call initialize() first.".

End Behaviour.

(** Inputs for the further properties. *)
Module Example.

(** A monitor that is given no attempt. *)
Definition noBudget : MonitorConfig.t :=
  {| MonitorConfig.maxConcurrent := 50;
     MonitorConfig.timeout := 30000;
     MonitorConfig.retryAttempts := 0 |}.

(** A ping package whose first probe throws and whose later probes
    come back alive. *)
Definition probeScript (n : nat) : Probe.Outcome Ping.PingResponse :=
  match n with
  | O => Probe.Rejects 15 Sample.refused
  | S _ => Probe.Resolves 20
             {| Ping.alive := true; Ping.output := "64 bytes from 10.0.0.1";
                Ping.time := (20 # 1)%Q |}
  end.

(** The network seen through [ping]. *)
Definition pinged : Probe.Network :=
  {| Probe.onFetch := Probe.onFetch Sample.flaky;
     Probe.onPing := fun n => Ping.ping (probeScript n) (Some 2000) |}.

(** A slave as the master records it. *)
Definition slave : SlaveStatus.t :=
  {| SlaveStatus.id := "slave-1";
     SlaveStatus.name := Some "Slave 1";
     SlaveStatus.lastHeartbeat := 1000000;
     SlaveStatus.isActive := true;
     SlaveStatus.services := ["api"];
     SlaveStatus.host := Some "10.0.0.2";
     SlaveStatus.port := Some 3001;
     SlaveStatus.region := None;
     SlaveStatus.datacenter := None;
     SlaveStatus.version := None;
     SlaveStatus.stats := None |}.

(** The configuration of a slave. *)
Definition slaveConfig : Api.SlaveConfig.t :=
  {| Api.SlaveConfig.id := "slave-1";
     Api.SlaveConfig.name := None;
     Api.SlaveConfig.masterUrl := "http://master.local:3000";
     Api.SlaveConfig.apiKey := "secret" |}.

(** A machine on which [StateStorage] has not run yet. *)
Definition freshDisk : StateStorage.State :=
  {| StateStorage.dirExists := false;
     StateStorage.file := None;
     StateStorage.writes := [] |}.

(** A machine whose state file does not parse. *)
Definition brokenDisk : StateStorage.State :=
  {| StateStorage.dirExists := true;
     StateStorage.file := Some StateStorage.Corrupt;
     StateStorage.writes := [] |}.

(** A slave as [StateStorage] records it. *)
Definition slaveEntry : StateStorage.SlaveEntry :=
  {| StateStorage.name := "Slave 1";
     StateStorage.lastSeen := 1000000;
     StateStorage.services_ := ["api"] |}.

(** A failed check of [Sample.api]. *)
Definition apiDown : MonitoringResult :=
  {| serviceId := "api"; timestamp := 1020000; success := false;
     duration := 12; error := Some "HTTP 500: Internal Server Error" |}.

(** The store of [Sample.store] after it saved [Sample.snapshot]. *)
Definition running : Storage.State :=
  snd (Storage.save (Some Sample.snapshot) Sample.store).

End Example.

(* ===================================================================== *)
(** ** The check executor                                                 *)
(* ===================================================================== *)

Section Executor.
Import Probe Spec.
Variable net : Network.
Variable config : MonitorConfig.t.
Open Scope async_scope.

Lemma afterRejects_now {A} (script : nat -> Outcome A) ev n w :
  now (afterRejects script ev n w) = now w + retryTime script (probes w) n.
Proof.
  revert w. induction n as [|n IH]; intros w; simpl.
  - lia.
  - rewrite IH. simpl. lia.
Qed.

Lemma afterRejects_probes {A} (script : nat -> Outcome A) ev n w :
  probes (afterRejects script ev n w) = (probes w + n)%nat.
Proof.
  revert w. induction n as [|n IH]; intros w; simpl.
  - lia.
  - rewrite IH. simpl. lia.
Qed.

Lemma rejectedBefore_head {A} (script : nat -> Outcome A) from n :
  rejectedBefore script from (S n) ->
  exists lat err, script from = Rejects lat err.
Proof.
  intros H. destruct (H O) as (lat & err & E); [lia|].
  rewrite Nat.add_0_r in E. eauto.
Qed.

Lemma rejectedBefore_tail {A} (script : nat -> Outcome A) from n :
  rejectedBefore script from (S n) -> rejectedBefore script (S from) n.
Proof.
  intros H j Hj. destruct (H (S j)) as (lat & err & E); [lia|].
  replace (S from + j)%nat with (from + S j)%nat by lia. eauto.
Qed.

(** *** The bound on the iterations

    The loops are run with the attempt budget as their bound. A bound of
    [retryAttempts - attempt + 1] iterations is never the reason a loop
    stops: with any larger bound the loop computes the same. *)

Lemma httpLoop1_bound service fuel :
  forall extra attempt error success w,
    MonitorConfig.retryAttempts config - attempt + 1 <= Z.of_nat fuel ->
    Monitor1.httpLoop net config service (fuel + extra) attempt error success w
    = Monitor1.httpLoop net config service fuel attempt error success w.
Proof.
  induction fuel as [|fuel IH]; intros extra attempt error success w Hle.
  - destruct extra as [|extra]; [reflexivity|]. simpl.
    replace (attempt <=? MonitorConfig.retryAttempts config) with false
      by (symmetry; apply Z.leb_gt; lia).
    reflexivity.
  - change (S fuel + extra)%nat with (S (fuel + extra)). cbn [Monitor1.httpLoop].
    destruct (attempt <=? MonitorConfig.retryAttempts config); [|reflexivity].
    unfold bind. destruct (fetch _ _ _ w) as [[err|response] w1]; [|reflexivity].
    destruct (attempt =? MonitorConfig.retryAttempts config); [reflexivity|].
    destruct (sleep 1000 w1) as [u w2]. apply IH. lia.
Qed.

Lemma icmpLoop1_bound service fuel :
  forall extra attempt error success w,
    MonitorConfig.retryAttempts config - attempt + 1 <= Z.of_nat fuel ->
    Monitor1.icmpLoop net config service (fuel + extra) attempt error success w
    = Monitor1.icmpLoop net config service fuel attempt error success w.
Proof.
  induction fuel as [|fuel IH]; intros extra attempt error success w Hle.
  - destruct extra as [|extra]; [reflexivity|]. simpl.
    replace (attempt <=? MonitorConfig.retryAttempts config) with false
      by (symmetry; apply Z.leb_gt; lia).
    reflexivity.
  - change (S fuel + extra)%nat with (S (fuel + extra)). cbn [Monitor1.icmpLoop].
    destruct (attempt <=? MonitorConfig.retryAttempts config); [|reflexivity].
    unfold bind. destruct service as [b url|b host].
    + unfold ret.
      destruct (attempt =? MonitorConfig.retryAttempts config); [reflexivity|].
      destruct (sleep 1000 w) as [u w2]. apply IH. lia.
    + destruct (ping _ _ _ w) as [[err|result] w1]; [|reflexivity].
      destruct (attempt =? MonitorConfig.retryAttempts config); [reflexivity|].
      destruct (sleep 1000 w1) as [u w2]. apply IH. lia.
Qed.

Lemma httpLoop2_bound base url startTime fuel :
  forall extra attempt vars w,
    MonitorConfig.retryAttempts config - attempt + 1 <= Z.of_nat fuel ->
    Monitor2.httpLoop net config base url startTime (fuel + extra) attempt vars w
    = Monitor2.httpLoop net config base url startTime fuel attempt vars w.
Proof.
  induction fuel as [|fuel IH]; intros extra attempt vars w Hle.
  - destruct extra as [|extra]; [reflexivity|]. simpl.
    replace (attempt <=? MonitorConfig.retryAttempts config) with false
      by (symmetry; apply Z.leb_gt; lia).
    reflexivity.
  - change (S fuel + extra)%nat with (S (fuel + extra)). cbn [Monitor2.httpLoop].
    destruct (attempt <=? MonitorConfig.retryAttempts config); [|reflexivity].
    unfold bind. destruct (Date_now w) as [t0 w0].
    destruct (fetch _ _ _ w0) as [[err|response] w1]; [|reflexivity].
    destruct (Date_now w1) as [t1 w1'].
    destruct (attempt =? MonitorConfig.retryAttempts config); [reflexivity|].
    destruct (sleep 1000 w1') as [u w2]. apply IH. lia.
Qed.

Lemma icmpLoop2_bound service fuel :
  forall extra attempt error success w,
    MonitorConfig.retryAttempts config - attempt + 1 <= Z.of_nat fuel ->
    Monitor2.icmpLoop net config service (fuel + extra) attempt error success w
    = Monitor2.icmpLoop net config service fuel attempt error success w.
Proof.
  induction fuel as [|fuel IH]; intros extra attempt error success w Hle.
  - destruct extra as [|extra]; [reflexivity|]. simpl.
    replace (attempt <=? MonitorConfig.retryAttempts config) with false
      by (symmetry; apply Z.leb_gt; lia).
    reflexivity.
  - change (S fuel + extra)%nat with (S (fuel + extra)). cbn [Monitor2.icmpLoop].
    destruct (attempt <=? MonitorConfig.retryAttempts config); [|reflexivity].
    unfold bind. destruct service as [b url|b host].
    + unfold ret.
      destruct (attempt =? MonitorConfig.retryAttempts config); [reflexivity|].
      destruct (sleep 1000 w) as [u w2]. apply IH. lia.
    + destruct (ping _ _ _ w) as [[err|result] w1]; [|reflexivity].
      destruct (attempt =? MonitorConfig.retryAttempts config); [reflexivity|].
      destruct (sleep 1000 w1) as [u w2]. apply IH. lia.
Qed.

(** *** The second variant of the HTTP check *)

Lemma httpLoop2_rejected base url startTime n :
  forall fuel attempt vars w,
    rejectedBefore (onFetch net) (probes w) n ->
    attempt + Z.of_nat n <= MonitorConfig.retryAttempts config ->
    exists vars',
      Monitor2.l_success vars' = Monitor2.l_success vars
      /\ Monitor2.httpLoop net config base url startTime (n + fuel) attempt vars w
         = Monitor2.httpLoop net config base url startTime fuel
             (attempt + Z.of_nat n) vars'
             (afterRejects (onFetch net)
                (EvFetch url (Monitor2.effectiveTimeout config (HttpServiceConfig base url)))
                n w).
Proof.
  induction n as [|n IH]; intros fuel attempt vars w Hrej Hle.
  - exists vars. split; [reflexivity|]. simpl. f_equal. lia.
  - destruct (rejectedBefore_head _ _ _ Hrej) as (lat & err & E).
    apply rejectedBefore_tail in Hrej.
    destruct (IH fuel (attempt + 1)
                {| Monitor2.l_error := Some (Monitor2.classifyError err);
                   Monitor2.l_success := Monitor2.l_success vars;
                   Monitor2.l_duration := now w + lat - startTime |}
                {| now := now w + latency (onFetch net (probes w)) + 1000;
                   probes := S (probes w);
                   trace := (trace w ++ [EvFetch url (Monitor2.effectiveTimeout config (HttpServiceConfig base url))])
                            ++ [EvSleep 1000] |}
                Hrej ltac:(lia)) as (vars' & Hs & Heq).
    exists vars'. split; [exact Hs|].
    replace (attempt + Z.of_nat (S n)) with (attempt + 1 + Z.of_nat n) by lia.
    cbn [afterRejects]. rewrite <- Heq. clear Heq.
    assert (Hin : (attempt <=? MonitorConfig.retryAttempts config) = true)
      by (apply Z.leb_le; lia).
    assert (Hlast : (attempt =? MonitorConfig.retryAttempts config) = false)
      by (apply Z.eqb_neq; lia).
    change (S n + fuel)%nat with (S (n + fuel)).
    cbn [Monitor2.httpLoop]. rewrite Hin.
    unfold bind, Date_now, fetch, await_probe, sleep. rewrite E. simpl.
    rewrite Hlast. reflexivity.
Qed.

Lemma httpLoop2_resolved base url startTime fuel attempt vars w lat response :
  attempt <= MonitorConfig.retryAttempts config ->
  onFetch net (probes w) = Resolves lat response ->
  Monitor2.httpLoop net config base url startTime (S fuel) attempt vars w
  = ({| Monitor2.l_error := fst (Monitor2.judgeResponse response);
        Monitor2.l_success := snd (Monitor2.judgeResponse response);
        Monitor2.l_duration := lat |},
     {| now := now w + lat; probes := S (probes w);
        trace := trace w ++ [EvFetch url (Monitor2.effectiveTimeout config (HttpServiceConfig base url))] |}).
Proof.
  intros Hle E. cbn [Monitor2.httpLoop].
  replace (attempt <=? MonitorConfig.retryAttempts config) with true
    by (symmetry; apply Z.leb_le; lia).
  unfold bind, Date_now, fetch, await_probe, ret. rewrite E. simpl.
  do 2 f_equal. lia.
Qed.

Lemma httpLoop2_exhausted base url startTime fuel vars w lat err :
  onFetch net (probes w) = Rejects lat err ->
  Monitor2.httpLoop net config base url startTime (S fuel)
    (MonitorConfig.retryAttempts config) vars w
  = ({| Monitor2.l_error := Some (Monitor2.classifyError err);
        Monitor2.l_success := Monitor2.l_success vars;
        Monitor2.l_duration := now w + lat - startTime |},
     {| now := now w + lat; probes := S (probes w);
        trace := trace w ++ [EvFetch url (Monitor2.effectiveTimeout config (HttpServiceConfig base url))] |}).
Proof.
  intros E. cbn [Monitor2.httpLoop].
  rewrite Z.leb_refl.
  unfold bind, Date_now, fetch, await_probe, ret. rewrite E. simpl.
  rewrite Z.eqb_refl. reflexivity.
Qed.

(** The budget written as the attempts before the deciding one, the
    deciding one, and the rest. *)
Lemma budget_split n :
  Z.of_nat n + 1 <= MonitorConfig.retryAttempts config ->
  exists rest,
    Z.to_nat (MonitorConfig.retryAttempts config) = (n + S rest)%nat.
Proof.
  intros H.
  exists (Z.to_nat (MonitorConfig.retryAttempts config) - n - 1)%nat. lia.
Qed.

(** A check of the second variant that is decided by a response on
    attempt [n + 1]. *)
Lemma checkHttpService2_resolved base url w n lat response :
  rejectedBefore (onFetch net) (probes w) n ->
  Z.of_nat n + 1 <= MonitorConfig.retryAttempts config ->
  onFetch net (probes w + n) = Resolves lat response ->
  let ev := EvFetch url (Monitor2.effectiveTimeout config (HttpServiceConfig base url)) in
  let wn := afterRejects (onFetch net) ev n w in
  Monitor2.checkHttpService net config (HttpServiceConfig base url) w
  = (inr {| serviceId := id base;
            timestamp := now wn + lat;
            success := snd (Monitor2.judgeResponse response);
            duration := lat;
            error := Some (Js.or_string (fst (Monitor2.judgeResponse response))
                                        "Unknown error") |},
     {| now := now wn + lat; probes := S (probes wn);
        trace := trace wn ++ [ev] |}).
Proof.
  intros Hrej Hle E ev wn. subst wn ev.
  destruct (budget_split n Hle) as (rest & Hfuel).
  unfold Monitor2.checkHttpService, bind at 1, Date_now at 1.
  rewrite Hfuel.
  destruct (httpLoop2_rejected base url (now w) n (S rest) 1
              {| Monitor2.l_error := None; Monitor2.l_success := false;
                 Monitor2.l_duration := 0 |} w Hrej ltac:(lia))
    as (vars' & _ & Heq).
  unfold bind at 1. rewrite Heq.
  rewrite (httpLoop2_resolved base url (now w) rest (1 + Z.of_nat n) vars'
             (afterRejects (onFetch net) _ n w) lat response); [reflexivity|lia|].
  rewrite afterRejects_probes. exact E.
Qed.

(** A check of the second variant whose every attempt was rejected. *)
Lemma checkHttpService2_exhausted base url w n lat err :
  rejectedBefore (onFetch net) (probes w) n ->
  Z.of_nat n + 1 = MonitorConfig.retryAttempts config ->
  onFetch net (probes w + n) = Rejects lat err ->
  let ev := EvFetch url (Monitor2.effectiveTimeout config (HttpServiceConfig base url)) in
  let wn := afterRejects (onFetch net) ev n w in
  Monitor2.checkHttpService net config (HttpServiceConfig base url) w
  = (inr {| serviceId := id base;
            timestamp := now wn + lat;
            success := false;
            duration := retryTime (onFetch net) (probes w) n + lat;
            error := Some (Js.or_string (Some (Monitor2.classifyError err))
                                        "Unknown error") |},
     {| now := now wn + lat; probes := S (probes wn);
        trace := trace wn ++ [ev] |}).
Proof.
  intros Hrej Hle E ev wn. subst wn ev.
  destruct (budget_split n ltac:(lia)) as (rest & Hfuel).
  unfold Monitor2.checkHttpService, bind at 1, Date_now at 1.
  rewrite Hfuel.
  destruct (httpLoop2_rejected base url (now w) n (S rest) 1
              {| Monitor2.l_error := None; Monitor2.l_success := false;
                 Monitor2.l_duration := 0 |} w Hrej ltac:(lia))
    as (vars' & Hs & Heq).
  unfold bind at 1. rewrite Heq.
  replace (1 + Z.of_nat n) with (MonitorConfig.retryAttempts config) by lia.
  rewrite (httpLoop2_exhausted base url (now w) rest vars'
             (afterRejects (onFetch net) _ n w) lat err).
  2:{ rewrite afterRejects_probes. exact E. }
  unfold bind, Date_now, ret. cbn [Monitor2.l_success Monitor2.l_duration Monitor2.l_error now].
  rewrite Hs. cbn [Monitor2.l_success].
  do 3 f_equal. rewrite afterRejects_now. lia.
Qed.

(** *** The first variant of the HTTP check *)

Lemma httpLoop1_rejected service n :
  forall fuel attempt error success w,
    rejectedBefore (onFetch net) (probes w) n ->
    attempt + Z.of_nat n <= MonitorConfig.retryAttempts config ->
    exists error',
      Monitor1.httpLoop net config service (n + fuel) attempt error success w
      = Monitor1.httpLoop net config service fuel (attempt + Z.of_nat n)
          error' success
          (afterRejects (onFetch net)
             (EvFetch (Monitor1.fetchTarget service)
                      (Monitor1.effectiveTimeout config service)) n w).
Proof.
  induction n as [|n IH]; intros fuel attempt error success w Hrej Hle.
  - exists error. simpl. f_equal. lia.
  - destruct (rejectedBefore_head _ _ _ Hrej) as (lat & err & E).
    apply rejectedBefore_tail in Hrej.
    destruct (IH fuel (attempt + 1) (Some (Js.errorMessage err)) success
                {| now := now w + latency (onFetch net (probes w)) + 1000;
                   probes := S (probes w);
                   trace := (trace w ++ [EvFetch (Monitor1.fetchTarget service)
                                           (Monitor1.effectiveTimeout config service)])
                            ++ [EvSleep 1000] |}
                Hrej ltac:(lia)) as (error' & Heq).
    exists error'.
    replace (attempt + Z.of_nat (S n)) with (attempt + 1 + Z.of_nat n) by lia.
    cbn [afterRejects]. rewrite <- Heq. clear Heq.
    change (S n + fuel)%nat with (S (n + fuel)).
    cbn [Monitor1.httpLoop].
    replace (attempt <=? MonitorConfig.retryAttempts config) with true
      by (symmetry; apply Z.leb_le; lia).
    unfold bind, fetch, await_probe, sleep. rewrite E. simpl.
    replace (attempt =? MonitorConfig.retryAttempts config) with false
      by (symmetry; apply Z.eqb_neq; lia).
    reflexivity.
Qed.

Lemma checkHttpService1_resolved service w n lat response :
  rejectedBefore (onFetch net) (probes w) n ->
  Z.of_nat n + 1 <= MonitorConfig.retryAttempts config ->
  onFetch net (probes w + n) = Resolves lat response ->
  let ev := EvFetch (Monitor1.fetchTarget service)
                    (Monitor1.effectiveTimeout config service) in
  let wn := afterRejects (onFetch net) ev n w in
  Monitor1.checkHttpService net config service w
  = ({| serviceId := id (base_of service);
        timestamp := now wn + lat;
        success := ok response;
        duration := retryTime (onFetch net) (probes w) n + lat;
        error := httpError response |},
     {| now := now wn + lat; probes := S (probes wn);
        trace := trace wn ++ [ev] |}).
Proof.
  intros Hrej Hle E ev wn. subst wn ev.
  destruct (budget_split n Hle) as (rest & Hfuel).
  unfold Monitor1.checkHttpService, bind at 1, Date_now at 1.
  rewrite Hfuel.
  destruct (httpLoop1_rejected service n (S rest) 1 None false w Hrej ltac:(lia))
    as (error' & Heq).
  unfold bind at 1. rewrite Heq. clear Heq.
  cbn [Monitor1.httpLoop].
  replace (1 + Z.of_nat n <=? MonitorConfig.retryAttempts config) with true
    by (symmetry; apply Z.leb_le; lia).
  unfold bind, Date_now, fetch, await_probe, ret.
  rewrite afterRejects_probes, E. simpl.
  unfold httpError. do 3 f_equal.
  rewrite afterRejects_now. lia.
Qed.

Lemma checkHttpService1_exhausted service w n lat err :
  rejectedBefore (onFetch net) (probes w) n ->
  Z.of_nat n + 1 = MonitorConfig.retryAttempts config ->
  onFetch net (probes w + n) = Rejects lat err ->
  let ev := EvFetch (Monitor1.fetchTarget service)
                    (Monitor1.effectiveTimeout config service) in
  let wn := afterRejects (onFetch net) ev n w in
  Monitor1.checkHttpService net config service w
  = ({| serviceId := id (base_of service);
        timestamp := now wn + lat;
        success := false;
        duration := retryTime (onFetch net) (probes w) n + lat;
        error := Some (Js.errorMessage err) |},
     {| now := now wn + lat; probes := S (probes wn);
        trace := trace wn ++ [ev] |}).
Proof.
  intros Hrej Hle E ev wn. subst wn ev.
  destruct (budget_split n ltac:(lia)) as (rest & Hfuel).
  unfold Monitor1.checkHttpService, bind at 1, Date_now at 1.
  rewrite Hfuel.
  destruct (httpLoop1_rejected service n (S rest) 1 None false w Hrej ltac:(lia))
    as (error' & Heq).
  unfold bind at 1. rewrite Heq. clear Heq.
  cbn [Monitor1.httpLoop].
  replace (1 + Z.of_nat n <=? MonitorConfig.retryAttempts config) with true
    by (symmetry; apply Z.leb_le; lia).
  unfold bind, Date_now, fetch, await_probe, ret.
  rewrite afterRejects_probes, E. simpl.
  replace (1 + Z.of_nat n =? MonitorConfig.retryAttempts config) with true
    by (symmetry; apply Z.eqb_eq; lia).
  simpl. do 3 f_equal.
  rewrite afterRejects_now. lia.
Qed.

(** *** The ICMP check of the second variant *)

Lemma icmpLoop2_rejected base host n :
  forall fuel attempt error success w,
    rejectedBefore (onPing net) (probes w) n ->
    attempt + Z.of_nat n <= MonitorConfig.retryAttempts config ->
    exists error',
      Monitor2.icmpLoop net config (IcmpServiceConfig base host) (n + fuel)
        attempt error success w
      = Monitor2.icmpLoop net config (IcmpServiceConfig base host) fuel
          (attempt + Z.of_nat n) error' success
          (afterRejects (onPing net)
             (EvPing host (Monitor2.effectiveTimeout config (IcmpServiceConfig base host)))
             n w).
Proof.
  induction n as [|n IH]; intros fuel attempt error success w Hrej Hle.
  - exists error. simpl. f_equal. lia.
  - destruct (rejectedBefore_head _ _ _ Hrej) as (lat & err & E).
    apply rejectedBefore_tail in Hrej.
    destruct (IH fuel (attempt + 1) (Some (Js.errorMessage err)) success
                {| now := now w + latency (onPing net (probes w)) + 1000;
                   probes := S (probes w);
                   trace := (trace w ++ [EvPing host (Monitor2.effectiveTimeout config (IcmpServiceConfig base host))])
                            ++ [EvSleep 1000] |}
                Hrej ltac:(lia)) as (error' & Heq).
    exists error'.
    replace (attempt + Z.of_nat (S n)) with (attempt + 1 + Z.of_nat n) by lia.
    cbn [afterRejects]. rewrite <- Heq. clear Heq.
    change (S n + fuel)%nat with (S (n + fuel)).
    cbn [Monitor2.icmpLoop].
    replace (attempt <=? MonitorConfig.retryAttempts config) with true
      by (symmetry; apply Z.leb_le; lia).
    unfold bind, ping, await_probe, sleep. rewrite E. simpl.
    replace (attempt =? MonitorConfig.retryAttempts config) with false
      by (symmetry; apply Z.eqb_neq; lia).
    reflexivity.
Qed.

Lemma checkIcmpService2_resolved base host w n lat result :
  rejectedBefore (onPing net) (probes w) n ->
  Z.of_nat n + 1 <= MonitorConfig.retryAttempts config ->
  onPing net (probes w + n) = Resolves lat result ->
  exists r w',
    Monitor2.checkIcmpService net config (IcmpServiceConfig base host) w = (r, w')
    /\ success r = PingResult.alive result
    /\ duration r = retryTime (onPing net) (probes w) n + lat.
Proof.
  intros Hrej Hle E.
  destruct (budget_split n Hle) as (rest & Hfuel).
  unfold Monitor2.checkIcmpService, bind at 1, Date_now at 1.
  rewrite Hfuel.
  destruct (icmpLoop2_rejected base host n (S rest) 1 None false w Hrej ltac:(lia))
    as (error' & Heq).
  unfold bind at 1. rewrite Heq. clear Heq.
  cbn [Monitor2.icmpLoop].
  replace (1 + Z.of_nat n <=? MonitorConfig.retryAttempts config) with true
    by (symmetry; apply Z.leb_le; lia).
  unfold bind at 1, ping, await_probe.
  rewrite afterRejects_probes, E.
  destruct (Monitor2.permissionDenied (Monitor2.pingError result));
    unfold bind, log, emit, Date_now, ret; simpl;
    do 2 eexists; (split; [reflexivity|]); simpl;
    (split; [reflexivity|]); rewrite afterRejects_now; lia.
Qed.

Lemma checkIcmpService2_exhausted base host w n lat err :
  rejectedBefore (onPing net) (probes w) n ->
  Z.of_nat n + 1 = MonitorConfig.retryAttempts config ->
  onPing net (probes w + n) = Rejects lat err ->
  exists r w',
    Monitor2.checkIcmpService net config (IcmpServiceConfig base host) w = (r, w')
    /\ success r = false
    /\ duration r = retryTime (onPing net) (probes w) n + lat.
Proof.
  intros Hrej Hle E.
  destruct (budget_split n ltac:(lia)) as (rest & Hfuel).
  unfold Monitor2.checkIcmpService, bind at 1, Date_now at 1.
  rewrite Hfuel.
  destruct (icmpLoop2_rejected base host n (S rest) 1 None false w Hrej ltac:(lia))
    as (error' & Heq).
  unfold bind at 1. rewrite Heq. clear Heq.
  cbn [Monitor2.icmpLoop].
  replace (1 + Z.of_nat n <=? MonitorConfig.retryAttempts config) with true
    by (symmetry; apply Z.leb_le; lia).
  unfold bind at 1, ping, await_probe.
  rewrite afterRejects_probes, E.
  replace (1 + Z.of_nat n =? MonitorConfig.retryAttempts config) with true
    by (symmetry; apply Z.eqb_eq; lia).
  unfold bind, Date_now, ret; simpl.
  do 2 eexists; (split; [reflexivity|]); simpl.
  split; [reflexivity|]. rewrite afterRejects_now. lia.
Qed.

(** *** The result names the service that was checked *)

Lemma checkHttpService2_serviceId service w r w' :
  Monitor2.checkHttpService net config service w = (inr r, w') ->
  serviceId r = id (base_of service).
Proof.
  destruct service as [base url|base host]; simpl.
  - unfold bind, Date_now, ret.
    destruct (Monitor2.httpLoop _ _ _ _ _ _ _ _ _) as [vars w1].
    intros H. injection H as <- _. reflexivity.
  - unfold ret. discriminate.
Qed.

Lemma checkIcmpService2_serviceId service w :
  serviceId (fst (Monitor2.checkIcmpService net config service w))
  = id (base_of service).
Proof.
  unfold Monitor2.checkIcmpService, bind, Date_now, ret.
  destruct (Monitor2.icmpLoop _ _ _ _ _ _ _ _) as [r w1]. reflexivity.
Qed.

(** [checkService] never rejects, and its result carries the id of the
    service it was given. *)
Lemma checkService_serviceId service w :
  serviceId (fst (Monitor2.checkService net config service w))
  = id (base_of service).
Proof.
  unfold Monitor2.checkService, bind at 1.
  destruct (log INFO _ w) as [u w0].
  unfold bind at 1.
  destruct service as [base url|base host]; cbn [type_of].
  - destruct (Monitor2.checkHttpService net config (HttpServiceConfig base url) w0)
      as [[err|r] w1] eqn:E.
    + unfold bind, log, emit, Date_now, ret. reflexivity.
    + apply checkHttpService2_serviceId in E.
      unfold bind. destruct (success r);
        match goal with
        | |- context [log ?l ?m w1] => destruct (log l m w1) as [u' w2]
        end; exact E.
  - unfold bind at 1.
    pose proof (checkIcmpService2_serviceId (IcmpServiceConfig base host) w0) as E.
    destruct (Monitor2.checkIcmpService net config (IcmpServiceConfig base host) w0)
      as [r w1].
    unfold ret at 1. unfold bind. destruct (success r);
      match goal with
      | |- context [log ?l ?m w1] => destruct (log l m w1) as [u' w2]
      end; exact E.
Qed.

End Executor.

(** *** Validation of the response body *)

Section Validation.
Import Probe Spec.

Lemma typeofString_iff v :
  Monitor2.typeofString v = true <-> exists s, v = Some (Js.JStr s).
Proof.
  split.
  - destruct v as [[]|]; simpl; try discriminate. eauto.
  - intros (s & ->). reflexivity.
Qed.

Lemma typeofNumber_iff v :
  Monitor2.typeofNumber v = true <-> exists q, v = Some (Js.JNum q).
Proof.
  split.
  - destruct v as [[]|]; simpl; try discriminate. eauto.
  - intros (s & ->). reflexivity.
Qed.

Lemma typeofBoolean_iff v :
  Monitor2.typeofBoolean v = true <-> exists b, v = Some (Js.JBool b).
Proof.
  split.
  - destruct v as [[]|]; simpl; try discriminate. eauto.
  - intros (s & ->). reflexivity.
Qed.

Lemma Array_isArray_iff v :
  Monitor2.Array_isArray v = true <-> exists l, v = Some (Js.JArr l).
Proof.
  split.
  - destruct v as [[]|]; simpl; try discriminate. eauto.
  - intros (s & ->). reflexivity.
Qed.

Lemma isLiteral_iff v lit :
  Monitor2.isLiteral v lit = true <-> v = Some (Js.JStr lit).
Proof.
  split.
  - destruct v as [[]|]; simpl; try discriminate.
    intros H. apply String.eqb_eq in H. congruence.
  - intros ->. simpl. apply String.eqb_refl.
Qed.

Lemma itemIsServiceStatus_Holds item :
  Monitor2.itemIsServiceStatus item = Monitor2.Holds <-> hasServiceStatusShape item.
Proof.
  unfold hasServiceStatusShape. split.
  - destruct item as [| | | | |fields]; simpl; try discriminate.
    destruct (_ && _) eqn:E; [|discriminate]. intros _.
    repeat (apply andb_true_iff in E; destruct E as [E ?]).
    exists fields. split; [reflexivity|].
    repeat split;
      try (apply typeofString_iff; assumption);
      try (apply typeofNumber_iff; assumption);
      try (apply typeofBoolean_iff; assumption);
      try (apply Array_isArray_iff; assumption).
    match goal with
    | H : (_ || _) = true |- _ =>
      apply orb_true_iff in H; destruct H as [H|H];
        apply isLiteral_iff in H; [left|right]; exact H
    end.
  - intros (fields & -> & Hid & Hname & Htype & Hint & Hto & Hls & Has). simpl.
    apply typeofString_iff in Hid, Hname.
    apply typeofNumber_iff in Hint, Hto.
    apply typeofBoolean_iff in Hls. apply Array_isArray_iff in Has.
    assert (Ht : Monitor2.typeofString (Js.getField fields "type") = true)
      by (destruct Htype as [-> | ->]; reflexivity).
    assert (Hl : (Monitor2.isLiteral (Js.getField fields "type") "http"
                  || Monitor2.isLiteral (Js.getField fields "type") "icmp") = true)
      by (destruct Htype as [-> | ->]; reflexivity).
    rewrite Hid, Hname, Ht, Hl, Hint, Hto, Hls, Has. reflexivity.
Qed.

Lemma every_Holds data :
  Monitor2.every Monitor2.itemIsServiceStatus data = Monitor2.Holds
  <-> Forall hasServiceStatusShape data.
Proof.
  induction data as [|item rest IH]; simpl.
  - split; [constructor|reflexivity].
  - split.
    + destruct (Monitor2.itemIsServiceStatus item) eqn:E; try discriminate.
      intros H. constructor.
      * apply itemIsServiceStatus_Holds. exact E.
      * apply IH. exact H.
    + intros H. inversion H as [|? ? Hi Hr]; subst.
      apply itemIsServiceStatus_Holds in Hi. rewrite Hi. apply IH. exact Hr.
Qed.

(** A response is judged a success exactly when it is status 200 with
    an array of service statuses as its body. *)
Lemma judgeResponse_success response :
  snd (Monitor2.judgeResponse response) = true <-> isStatusList response.
Proof.
  unfold Monitor2.judgeResponse, isStatusList.
  destruct (HttpResponse.status response =? 200) eqn:Es.
  - apply Z.eqb_eq in Es.
    destruct (HttpResponse.body response) as [|v] eqn:Eb.
    + simpl. split; [discriminate|]. intros (_ & items & H & _). discriminate.
    + destruct v as [| | | |data|];
        try (simpl; split; [discriminate|];
             intros (_ & items & H & _); discriminate).
      destruct (Monitor2.every Monitor2.itemIsServiceStatus data) eqn:Ev; simpl.
      * split; [|reflexivity]. intros _. split; [exact Es|].
        exists data. split; [reflexivity|]. apply every_Holds. exact Ev.
      * split; [discriminate|]. intros (_ & items & H & Hall).
        injection H as <-. apply every_Holds in Hall. congruence.
      * split; [discriminate|]. intros (_ & items & H & Hall).
        injection H as <-. apply every_Holds in Hall. congruence.
  - apply Z.eqb_neq in Es. simpl. split; [discriminate|].
    intros (H & _). contradiction.
Qed.

End Validation.

(** *** The properties of the check executor *)

Section ExecutorClaims.
Import Probe Spec.

(** C1, as the specification states it, fails: on an endpoint that
    answers 500 to every request, with the default budget of 3 attempts,
    both variants of [checkHttpService] probe once and never sleep. *)
Lemma C1_counterexample :
  alwaysStatus Sample.always500 500
  /\ (let out := Monitor1.checkHttpService Sample.always500 Sample.config
                   Sample.api Sample.world0 in
      length (fetches (added Sample.world0 (snd out))) = 1%nat
      /\ sleeps (added Sample.world0 (snd out)) = []
      /\ ~ retriesEvery500 Sample.config Sample.world0 out)
  /\ (exists r w',
         Monitor2.checkHttpService Sample.always500 Sample.config Sample.api
           Sample.world0 = (inr r, w')
         /\ length (fetches (added Sample.world0 w')) = 1%nat
         /\ sleeps (added Sample.world0 w') = []
         /\ ~ retriesEvery500 Sample.config Sample.world0 (r, w')).
Proof.
  split; [|split].
  - intros n. do 3 eexists. reflexivity.
  - cbn zeta. split; [reflexivity|]. split; [reflexivity|].
    intros (H & _). vm_compute in H. discriminate.
  - do 2 eexists. split; [vm_compute; reflexivity|].
    split; [reflexivity|]. split; [reflexivity|].
    intros (H & _). vm_compute in H. discriminate.
Qed.

(** C1 (amended). For every HTTP service config and every budget of at
    least one attempt, when every probe attempt observes an HTTP 500
    response, [checkHttpService] (in both variants) makes exactly one
    probe attempt and no inter-retry delay, and returns a result with
    [success = false] and the error ["HTTP 500: <statusText>"]; its
    duration is the latency of that one request. *)
Theorem C1_http_500_is_not_retried (net : Network) (config : MonitorConfig.t)
  (base : BaseServiceConfig) (url : string) (w : World) :
  1 <= MonitorConfig.retryAttempts config ->
  alwaysStatus net 500 ->
  exists lat text,
    let result :=
      {| serviceId := id base; timestamp := now w + lat; success := false;
         duration := lat; error := Some ("HTTP 500: " +:+ text) |} in
    let w' :=
      {| now := now w + lat; probes := S (probes w);
         trace := trace w ++ [EvFetch url (Js.or_number (timeout base)
                                             (MonitorConfig.timeout config))] |} in
    Monitor1.checkHttpService net config (HttpServiceConfig base url) w = (result, w')
    /\ Monitor2.checkHttpService net config (HttpServiceConfig base url) w
       = (inr result, w')
    /\ fetches (added w w') = [EvFetch url (Js.or_number (timeout base)
                                              (MonitorConfig.timeout config))]
    /\ sleeps (added w w') = [].
Proof.
  intros Hbudget Hall.
  destruct (Hall (probes w)) as (lat & text & content & E).
  exists lat, text. cbn zeta.
  assert (Hnone : rejectedBefore (onFetch net) (probes w) 0)
    by (intros j Hj; lia).
  split; [|split; [|split]].
  - rewrite (checkHttpService1_resolved net config (HttpServiceConfig base url)
               w 0 lat {| HttpResponse.status := 500;
                          HttpResponse.statusText := text;
                          HttpResponse.body := content |}
               Hnone ltac:(lia));
      [|rewrite Nat.add_0_r; exact E].
    simpl. reflexivity.
  - rewrite (checkHttpService2_resolved net config base url
               w 0 lat {| HttpResponse.status := 500;
                          HttpResponse.statusText := text;
                          HttpResponse.body := content |}
               Hnone ltac:(lia));
      [|rewrite Nat.add_0_r; exact E].
    simpl. reflexivity.
  - unfold added. simpl. rewrite drop_app_length. reflexivity.
  - unfold added. simpl. rewrite drop_app_length. reflexivity.
Qed.

(** C1 (amended) on the endpoint that always answers 500, with the
    default budget of 3 attempts. *)
Lemma C1_http_500_is_not_retried_witness :
  exists lat text,
    Monitor1.checkHttpService Sample.always500 Sample.config Sample.api Sample.world0
    = ({| serviceId := "api"; timestamp := 1000000 + lat; success := false;
          duration := lat; error := Some ("HTTP 500: " +:+ text) |},
       {| now := 1000000 + lat; probes := 1;
          trace := [EvFetch "http://api.local/status" 5000] |}).
Proof.
  destruct (C1_http_500_is_not_retried Sample.always500 Sample.config
              Sample.apiBase "http://api.local/status" Sample.world0)
    as (lat & text & H & _).
  - vm_compute. discriminate.
  - intros n. do 3 eexists. reflexivity.
  - exists lat, text. exact H.
Defined.

(** C3, as the specification states it, fails on the HTTP path. When
    every request is aborted after 5000 ms, the second variant decides on
    attempt 3 and reports 17000 ms; when the first request is refused and
    the second answered in 40 ms, the first variant decides on attempt 2
    and reports 1070 ms. *)
Lemma C3_counterexample :
  (decidedOn (onFetch Sample.hanging) 0 (MonitorConfig.retryAttempts Sample.config) 2
   /\ exists r w',
        Monitor2.checkHttpService Sample.hanging Sample.config Sample.api
          Sample.world0 = (inr r, w')
        /\ duration r = 17000
        /\ latency (onFetch Sample.hanging 2) = 5000
        /\ ~ durationOfDecidingAttempt (onFetch Sample.hanging) 0 2 r)
  /\ (decidedOn (onFetch Sample.flaky) 0 (MonitorConfig.retryAttempts Sample.config) 1
      /\ duration (fst (Monitor1.checkHttpService Sample.flaky Sample.config
                          Sample.api Sample.world0)) = 1070
      /\ latency (onFetch Sample.flaky 1) = 40
      /\ ~ durationOfDecidingAttempt (onFetch Sample.flaky) 0 1
             (fst (Monitor1.checkHttpService Sample.flaky Sample.config
                     Sample.api Sample.world0))).
Proof.
  split; split.
  - split; [|split].
    + intros j Hj. do 2 eexists. reflexivity.
    + vm_compute. discriminate.
    + right. reflexivity.
  - do 2 eexists. split; [vm_compute; reflexivity|].
    split; [reflexivity|]. split; [reflexivity|].
    unfold durationOfDecidingAttempt. simpl. discriminate.
  - split; [|split].
    + intros j Hj. assert (j = O) as -> by lia. do 2 eexists. reflexivity.
    + vm_compute. discriminate.
    + left. do 2 eexists. reflexivity.
  - split; [reflexivity|]. split; [reflexivity|].
    unfold durationOfDecidingAttempt. vm_compute. discriminate.
Qed.

(** C3 (amended). For a check whose outcome is decided on attempt
    [n + 1]: in the second variant of the HTTP check, when the deciding
    attempt received a response, [duration] is the wall time of that
    attempt's request only; when the check ended on the rejection of its
    last attempt, and in the ICMP check and the first variant of the HTTP
    check in every case, [duration] is the time elapsed since the check
    began, that is the earlier failed attempts, the inter-retry sleeps and
    the deciding attempt together. *)
Theorem C3_duration_of_a_check (net : Network) (config : MonitorConfig.t)
  (base base' : BaseServiceConfig) (url host : string) (w : World) (n m : nat) :
  decidedOn (onFetch net) (probes w) (MonitorConfig.retryAttempts config) n ->
  decidedOn (onPing net) (probes w) (MonitorConfig.retryAttempts config) m ->
  (exists r w',
      Monitor2.checkHttpService net config (HttpServiceConfig base url) w = (inr r, w')
      /\ duration r
         = match onFetch net (probes w + n) with
           | Resolves lat _ => lat
           | Rejects lat _ => retryTime (onFetch net) (probes w) n + lat
           end)
  /\ (exists r w',
         Monitor2.checkIcmpService net config (IcmpServiceConfig base' host) w = (r, w')
         /\ duration r
            = retryTime (onPing net) (probes w) m + latency (onPing net (probes w + m)))
  /\ (exists r w',
         Monitor1.checkHttpService net config (HttpServiceConfig base url) w = (r, w')
         /\ duration r
            = retryTime (onFetch net) (probes w) n + latency (onFetch net (probes w + n))).
Proof.
  intros (Hrej & Hle & Hdec) (Hrej' & Hle' & Hdec').
  split; [|split].
  - destruct (onFetch net (probes w + n)) as [lat response|lat err] eqn:E.
    + do 2 eexists. split.
      * apply (checkHttpService2_resolved net config base url w n lat response);
          assumption.
      * reflexivity.
    + destruct Hdec as [(l & a & ?)|Hlast]; [congruence|].
      do 2 eexists. split.
      * apply (checkHttpService2_exhausted net config base url w n lat err);
          assumption.
      * reflexivity.
  - destruct (onPing net (probes w + m)) as [lat result|lat err] eqn:E.
    + destruct (checkIcmpService2_resolved net config base' host w m lat result)
        as (r & w' & H1 & _ & H3); try assumption.
      exists r, w'. split; [exact H1|exact H3].
    + destruct Hdec' as [(l & a & ?)|Hlast]; [congruence|].
      destruct (checkIcmpService2_exhausted net config base' host w m lat err)
        as (r & w' & H1 & _ & H3); try assumption.
      exists r, w'. split; [exact H1|exact H3].
  - destruct (onFetch net (probes w + n)) as [lat response|lat err] eqn:E.
    + do 2 eexists. split.
      * apply (checkHttpService1_resolved net config (HttpServiceConfig base url)
                 w n lat response); assumption.
      * reflexivity.
    + destruct Hdec as [(l & a & ?)|Hlast]; [congruence|].
      do 2 eexists. split.
      * apply (checkHttpService1_exhausted net config (HttpServiceConfig base url)
                 w n lat err); assumption.
      * reflexivity.
Qed.

(** C3 (amended) on the network that refuses the first connection:
    every check is decided on attempt 2. *)
Lemma C3_duration_of_a_check_witness :
  (exists r w',
      Monitor2.checkHttpService Sample.flaky Sample.config Sample.api Sample.world0
      = (inr r, w')
      /\ duration r = 40)
  /\ (exists r w',
         Monitor2.checkIcmpService Sample.flaky Sample.config Sample.gateway
           Sample.world0 = (r, w')
         /\ duration r = 1030)
  /\ (exists r w',
         Monitor1.checkHttpService Sample.flaky Sample.config Sample.api Sample.world0
         = (r, w')
         /\ duration r = 1070).
Proof.
  assert (Hf : decidedOn (onFetch Sample.flaky) (probes Sample.world0)
                 (MonitorConfig.retryAttempts Sample.config) 1).
  { split; [|split].
    - intros j Hj. assert (j = O) as -> by lia. do 2 eexists. reflexivity.
    - vm_compute. discriminate.
    - left. do 2 eexists. reflexivity. }
  assert (Hp : decidedOn (onPing Sample.flaky) (probes Sample.world0)
                 (MonitorConfig.retryAttempts Sample.config) 1).
  { split; [|split].
    - intros j Hj. assert (j = O) as -> by lia. do 2 eexists. reflexivity.
    - vm_compute. discriminate.
    - left. do 2 eexists. reflexivity. }
  exact (C3_duration_of_a_check Sample.flaky Sample.config
           Sample.apiBase Sample.gatewayBase
           "http://api.local/status" "10.0.0.1" Sample.world0 1 1 Hf Hp).
Defined.

(** C10. In the second variant of the HTTP check, a probe yields
    [success = true] if and only if the response status is exactly 200 and
    the body parses as a JSON array in which every element has the
    service-status shape (string [id] and [name], [type] ['http'] or
    ['icmp'], numeric [interval] and [timeout], boolean [lastStatus], array
    [assignedSlaves]); any other status (a 2xx one too), a body that is not
    an array and a body that is not JSON yield [success = false], and so
    does a probe that got no response. The result of the check is that of
    the attempt that decided it. *)
Theorem C10_success_iff_status_list (net : Network) (config : MonitorConfig.t)
  (base : BaseServiceConfig) (url : string) (w : World) (n : nat) :
  decidedOn (onFetch net) (probes w) (MonitorConfig.retryAttempts config) n ->
  exists r w',
    Monitor2.checkHttpService net config (HttpServiceConfig base url) w = (inr r, w')
    /\ (success r = true
        <-> exists lat response,
              onFetch net (probes w + n) = Resolves lat response
              /\ isStatusList response).
Proof.
  intros (Hrej & Hle & Hdec).
  destruct (onFetch net (probes w + n)) as [lat response|lat err] eqn:E.
  - do 2 eexists. split.
    + apply (checkHttpService2_resolved net config base url w n lat response);
        assumption.
    + cbn [success]. rewrite judgeResponse_success. split.
      * intros H. exists lat, response. split; [reflexivity|exact H].
      * intros (lat' & response' & Heq & H). injection Heq as <- <-. exact H.
  - destruct Hdec as [(l & a & ?)|Hlast]; [congruence|].
    do 2 eexists. split.
    + apply (checkHttpService2_exhausted net config base url w n lat err);
        assumption.
    + cbn [success]. split; [discriminate|].
      intros (lat' & response' & Heq & _). discriminate.
Qed.

(** C10 on the network that refuses the first connection and then
    serves a list of one service status. *)
Lemma C10_success_iff_status_list_witness :
  exists r w',
    Monitor2.checkHttpService Sample.flaky Sample.config Sample.api Sample.world0
    = (inr r, w')
    /\ (success r = true
        <-> exists lat response,
              onFetch Sample.flaky 1 = Resolves lat response
              /\ isStatusList response).
Proof.
  apply (C10_success_iff_status_list Sample.flaky Sample.config
           Sample.apiBase "http://api.local/status" Sample.world0 1).
  split; [|split].
  - intros j Hj. assert (j = O) as -> by lia. do 2 eexists. reflexivity.
  - vm_compute. discriminate.
  - left. do 2 eexists. reflexivity.
Defined.

End ExecutorClaims.

(* ===================================================================== *)
(** ** The uptime percentages                                             *)
(* ===================================================================== *)

Section Percentages.
Import Spec.

Lemma Math_min_finite k q :
  exists q', Js.Math_min k (Js.Fin q) = Js.Fin q' /\ (q' <= k)%Q.
Proof.
  simpl. destruct (Qle_bool k q) eqn:E.
  - exists k. split; [reflexivity|apply Qle_refl].
  - exists q. split; [reflexivity|].
    apply Qlt_le_weak, Qnot_le_lt. intros H. apply Qle_bool_iff in H. congruence.
Qed.

Lemma clamp_finite q :
  inRange (Js.Math_max 0 (Js.Math_min 100 (Js.Fin q))).
Proof.
  destruct (Math_min_finite 100 q) as (q' & -> & Hle).
  simpl. destruct (Qle_bool q' 0) eqn:E; simpl.
  - split; [apply Qle_refl|discriminate].
  - split; [|exact Hle].
    apply Qlt_le_weak, Qnot_le_lt. intros H. apply Qle_bool_iff in H. congruence.
Qed.

Lemma clamp_quotient a b :
  b <> 0 -> inRange (Js.Math_max 0 (Js.Math_min 100 (Js.mulPos (Js.div a b) 100))).
Proof.
  intros Hb. unfold Js.div.
  destruct (b =? 0) eqn:E; [apply Z.eqb_eq in E; contradiction|].
  simpl Js.mulPos. apply clamp_finite.
Qed.

Lemma timeWindow30d_spec service currentTime :
  Storage.timeWindow30d service currentTime
  = Z.min (currentTime - ServiceStatus.createdAt service) Storage.thirtyDays.
Proof. unfold Storage.timeWindow30d. f_equal. lia. Qed.

(** Once time has passed since the creation of the service, both
    percentages are between 0 and 100. *)
Lemma percentages_inRange_after_creation service currentTime :
  currentTime <> ServiceStatus.createdAt service ->
  inRange (Storage.total (Storage.calculateUptimePercentages service currentTime))
  /\ inRange (Storage.last30d (Storage.calculateUptimePercentages service currentTime)).
Proof.
  intros Hne. unfold Storage.calculateUptimePercentages. cbn [Storage.total Storage.last30d].
  split; apply clamp_quotient; [lia|].
  rewrite timeWindow30d_spec. unfold Storage.thirtyDays. lia.
Qed.

(** C2: the code at the failing input. For a service checked in the
    millisecond it was created in, and without downtime, both quotients
    are 0/0: the percentages are [NaN], which [Math.min] and [Math.max]
    let through, and not numbers between 0 and 100. *)
Theorem C2_zero_elapsed_time_gives_NaN :
  Storage.calculateUptimePercentages (Sample.statusAt 1000000 []) 1000000
  = {| Storage.total := Js.NaN; Storage.last30d := Js.NaN |}
  /\ ~ inRange (Storage.total
                  (Storage.calculateUptimePercentages (Sample.statusAt 1000000 []) 1000000))
  /\ ~ inRange (Storage.last30d
                  (Storage.calculateUptimePercentages (Sample.statusAt 1000000 []) 1000000)).
Proof.
  split; [reflexivity|]. split; intros H; exact H.
Qed.

(** The test of the [filter] in the 30-day sum removes every period that
    began before the window, whatever part of it lies inside. *)
Lemma recent30d_drops_period_begun_before_window period periods currentTime :
  start period < currentTime - Storage.thirtyDays ->
  Storage.recent30dDowntimeMs (period :: periods) currentTime
  = Storage.recent30dDowntimeMs periods currentTime.
Proof.
  intros H. unfold Storage.recent30dDowntimeMs. cbn [List.filter].
  replace (start period >=? currentTime - Storage.thirtyDays) with false
    by (symmetry; rewrite Z.geb_leb; apply Z.leb_gt; lia).
  reflexivity.
Qed.

(** A lone closed period that began inside the window and ended by
    [currentTime] contributes its length, which is its clipped length. *)
Lemma recent30d_counts_period_inside_window period e currentTime :
  end_ period = Some e -> e <> 0 ->
  currentTime - Storage.thirtyDays <= start period -> start period <= e ->
  e <= currentTime ->
  Storage.recent30dDowntimeMs [period] currentTime
  = clippedToWindow period currentTime.
Proof.
  intros He Hnz Hin Hse Hec.
  unfold Storage.recent30dDowntimeMs, clippedToWindow, Storage.endOr, Js.or_number.
  cbn [List.filter].
  replace (start period >=? currentTime - Storage.thirtyDays) with true
    by (symmetry; rewrite Z.geb_leb; apply Z.leb_le; lia).
  cbn [fold_left]. rewrite He.
  replace (e =? 0) with false by (symmetry; apply Z.eqb_neq; exact Hnz).
  revert Hin. generalize (currentTime - Storage.thirtyDays). intros z Hin. lia.
Qed.

(** C4: the code at the failing input. A service is 40 days old and was
    down from day 5 to day 20. The outage overlaps the 30-day window
    (days 10 to 40) in 10 days, but it began before the window, so the
    30-day sum leaves it out altogether: the downtime of the window is 0
    and the 30-day percentage is 100. The denominator is the 30 days the
    specification gives. *)
Theorem C4_period_begun_before_window_is_dropped :
  let currentTime := 40 * Sample.day in
  let service := Sample.statusAt 0 [Sample.oldOutage] in
  overlapsWindow Sample.oldOutage currentTime
  /\ clippedToWindow Sample.oldOutage currentTime = 10 * Sample.day
  /\ Storage.recent30dDowntimeMs (ServiceStatus.downtimePeriods service) currentTime = 0
  /\ Storage.timeWindow30d service currentTime
     = Z.min (currentTime - ServiceStatus.createdAt service) (30 * Sample.day)
  /\ Storage.last30d (Storage.calculateUptimePercentages service currentTime)
     = Js.Fin 100.
Proof.
  cbn zeta. repeat split; reflexivity.
Qed.

End Percentages.

(* ===================================================================== *)
(** ** The durable store                                                  *)
(* ===================================================================== *)

Section DurableStore.
Import Storage Spec.
Open Scope storage_scope.

Lemma stringifyStatus_finite x :
  finite (ServiceStatus.uptimePercentage x) ->
  finite (ServiceStatus.uptimePercentage30d x) ->
  stringifyStatus x = x.
Proof.
  intros (q & Hq) (q' & Hq'). destruct x; simpl in *. subst.
  reflexivity.
Qed.

(** [JSON.parse(JSON.stringify(s))] is [s] for a well-formed [s]. *)
Lemma JSON_stringify_wellFormed s :
  wellFormed s -> JSON_stringify s = Document s.
Proof.
  intros H. unfold JSON_stringify. destruct s as [cs sts sls lu].
  simpl in *. f_equal. f_equal.
  unfold wellFormed in H. simpl in H.
  induction H as [|x l (H1 & H2) _ IH]; simpl; [reflexivity|].
  rewrite stringifyStatus_finite by assumption. f_equal. exact IH.
Qed.

Lemma wellFormed_stamp s t : wellFormed s -> wellFormed (stamp s t).
Proof. intros H. exact H. Qed.

(** [save(s)] on an initialised store whose directory exists: the file
    holds [s] stamped with the time of the save, and the stamped object is
    what the call leaves. *)
Lemma save_Some st s :
  initialized st = true -> dirExists st = true ->
  save (Some s) st
  = (inr (stamp s (now st)),
     add_console (ConsoleLog "[STORAGE] Saved monitor state")
       (set_file (JSON_stringify (stamp s (now st))) st)).
Proof.
  intros Hi Hd. unfold save, ensureInitialized, bind, try_catch, get, modify,
    writeFile, log, ret, Date_now.
  rewrite Hi. simpl. rewrite Hd. simpl. reflexivity.
Qed.

Lemma load_missing st :
  initialized st = true -> file st = None ->
  load st
  = (inl Js.ENOENT,
     add_console (ConsoleError "Failed to load monitor state:" Js.ENOENT) st).
Proof.
  intros Hi Hf. unfold load, ensureInitialized, bind, try_catch, get, modify,
    readFile, throw.
  rewrite Hi. simpl. rewrite Hf. reflexivity.
Qed.

Lemma load_corrupt st :
  initialized st = true -> file st = Some Corrupt ->
  load st
  = (inl Js.SyntaxError,
     add_console (ConsoleError "Failed to load monitor state:" Js.SyntaxError) st).
Proof.
  intros Hi Hf. unfold load, ensureInitialized, bind, try_catch, get, modify,
    readFile, throw.
  rewrite Hi. simpl. rewrite Hf. reflexivity.
Qed.

Lemma load_document st d :
  initialized st = true -> file st = Some (Document d) ->
  load st = (inr d, st).
Proof.
  intros Hi Hf. unfold load, ensureInitialized, bind, try_catch, get, modify,
    readFile, throw.
  rewrite Hi. simpl. rewrite Hf. reflexivity.
Qed.

Lemma loadState_missing st :
  file st = None -> loadState st = (inr (emptyState (now st)), st).
Proof.
  intros Hf. unfold loadState, try_catch, bind, readFile.
  rewrite Hf. reflexivity.
Qed.

Lemma loadState_corrupt st :
  file st = Some Corrupt -> loadState st = (inl Js.SyntaxError, st).
Proof.
  intros Hf. unfold loadState, try_catch, bind, readFile.
  rewrite Hf. reflexivity.
Qed.

Lemma initialize_missing st :
  file st = None ->
  exists st',
    initialize st = (inr tt, st')
    /\ initialized st' = true
    /\ data st' = emptyState (now st)
    /\ file st' = Some (Document (emptyState (now st)))
    /\ List.filter isConsoleError (console st')
       = List.filter isConsoleError (console st).
Proof.
  intros Hf. destruct st as [path ini d h t dir f ts nh con ws].
  simpl in Hf. subst f.
  destruct dir; eexists; (split; [reflexivity|]); simpl;
    repeat split; rewrite ?List.filter_app; simpl; rewrite ?app_nil_r; reflexivity.
Qed.

Lemma initialize_corrupt st :
  file st = Some Corrupt ->
  exists st',
    initialize st = (inr tt, st')
    /\ initialized st' = true
    /\ data st' = data st
    /\ file st' = Some Corrupt
    /\ writes st' = writes st
    /\ last (console st')
       = Some (ConsoleWarn "Failed to parse existing state file, creating new one")
    /\ List.filter isConsoleError (console st')
       = List.filter isConsoleError (console st).
Proof.
  intros Hf. destruct st as [path ini d h t dir f ts nh con ws].
  simpl in Hf. subst f.
  destruct dir; eexists; (split; [reflexivity|]); simpl;
    repeat split; rewrite ?last_snoc, ?List.filter_app; simpl;
    rewrite ?List.filter_app; simpl; rewrite ?app_nil_r; reflexivity.
Qed.

(** C5, as the specification states it, fails for the two loaders that
    return the persisted state: on an initialised store [load] raises when
    the file is missing, and [loadState] raises when the file is corrupt. *)
Lemma C5_counterexample :
  ~ toleratesMissingAndCorrupt load /\ ~ toleratesMissingAndCorrupt loadState.
Proof.
  split; intros H.
  - destruct (H (set_initialized true (new "./data" 0 true None)))
      as (t & st' & E); [reflexivity|left; reflexivity|].
    vm_compute in E. discriminate.
  - destruct (H (set_initialized true (new "./data" 0 true (Some Corrupt))))
      as (t & st' & E); [reflexivity|right; reflexivity|].
    vm_compute in E. discriminate.
Qed.

(** C5 (amended). Starting the store on a missing state file succeeds:
    [initialize] installs the empty, well-formed snapshot and writes it.
    Starting it on a file of corrupt JSON succeeds too: [initialize] keeps
    the snapshot the object holds (the empty one of a new object), leaves
    the file alone and only logs a warning. [loadState] returns the empty
    snapshot for a missing file but raises the parse error for a corrupt
    one, and [load] raises in both cases, after logging the error. *)
Theorem C5_missing_and_corrupt_state_file (missing corrupt : State) :
  file missing = None ->
  file corrupt = Some Corrupt ->
  (exists st',
      initialize missing = (inr tt, st')
      /\ initialized st' = true
      /\ data st' = emptyState (now missing)
      /\ file st' = Some (Document (emptyState (now missing)))
      /\ List.filter isConsoleError (console st')
         = List.filter isConsoleError (console missing))
  /\ (exists st',
         initialize corrupt = (inr tt, st')
         /\ initialized st' = true
         /\ data st' = data corrupt
         /\ file st' = Some Corrupt
         /\ writes st' = writes corrupt
         /\ last (console st')
            = Some (ConsoleWarn "Failed to parse existing state file, creating new one")
         /\ List.filter isConsoleError (console st')
            = List.filter isConsoleError (console corrupt))
  /\ loadState missing = (inr (emptyState (now missing)), missing)
  /\ loadState corrupt = (inl Js.SyntaxError, corrupt)
  /\ load (set_initialized true missing)
     = (inl Js.ENOENT,
        add_console (ConsoleError "Failed to load monitor state:" Js.ENOENT)
          (set_initialized true missing))
  /\ load (set_initialized true corrupt)
     = (inl Js.SyntaxError,
        add_console (ConsoleError "Failed to load monitor state:" Js.SyntaxError)
          (set_initialized true corrupt)).
Proof.
  intros Hm Hc.
  split; [apply initialize_missing; exact Hm|].
  split; [apply initialize_corrupt; exact Hc|].
  split; [apply loadState_missing; exact Hm|].
  split; [apply loadState_corrupt; exact Hc|].
  split; [apply load_missing; [reflexivity|exact Hm]|].
  apply load_corrupt; [reflexivity|exact Hc].
Qed.

(** C5 (amended) on a new store without a data directory and on a new
    store whose state file is corrupt. *)
Lemma C5_missing_and_corrupt_state_file_witness :
  (exists st',
      initialize (new "./data" 1000000 false None) = (inr tt, st')
      /\ initialized st' = true
      /\ data st' = emptyState 1000000
      /\ file st' = Some (Document (emptyState 1000000)))
  /\ (exists st',
         initialize (new "./data" 1000000 true (Some Corrupt)) = (inr tt, st')
         /\ data st' = emptyState 1000000
         /\ file st' = Some Corrupt).
Proof.
  destruct (C5_missing_and_corrupt_state_file
              (new "./data" 1000000 false None)
              (new "./data" 1000000 true (Some Corrupt))
              eq_refl eq_refl)
    as ((st1 & H1 & H2 & H3 & H4 & _) & (st2 & K1 & K2 & K3 & K4 & _) & _).
  split.
  - exists st1. repeat split; assumption.
  - exists st2. repeat split; assumption.
Defined.

(** *** Round trip *)

Lemma saveThenLoad_stamped st s :
  initialized st = true -> dirExists st = true -> wellFormed s ->
  saveThenLoad s st
  = (inr (stamp s (now st)),
     add_console (ConsoleLog "[STORAGE] Saved monitor state")
       (set_file (Document (stamp s (now st))) st)).
Proof.
  intros Hi Hd Hw. unfold saveThenLoad, bind at 1.
  rewrite (save_Some st s Hi Hd).
  rewrite (JSON_stringify_wellFormed (stamp s (now st)) (wellFormed_stamp s _ Hw)).
  apply load_document; [exact Hi|reflexivity].
Qed.

Lemma wellFormed_snapshot : wellFormed Sample.snapshot.
Proof.
  repeat constructor; eexists; reflexivity.
Qed.

(** C7, as the specification states it, fails: a well-formed snapshot
    last updated at time 5 that is saved at time 1000000 is loaded back
    with [lastUpdated = 1000000]. *)
Lemma C7_counterexample :
  wellFormed Sample.snapshot
  /\ initialized Sample.store = true
  /\ fst (saveThenLoad Sample.snapshot Sample.store)
     = inr (stamp Sample.snapshot 1000000)
  /\ ~ roundTrips Sample.store Sample.snapshot.
Proof.
  split; [exact wellFormed_snapshot|]. split; [reflexivity|].
  split; [reflexivity|].
  intros (st' & E). vm_compute in E. discriminate.
Qed.

(** C7 (amended). For every well-formed snapshot [s], saving [s] and
    then loading returns [s] with every field as it was except
    [lastUpdated], which is the time of the save: [save] stamps it on the
    object it is given before writing. The file holds the same stamped
    snapshot, and the snapshot the store keeps in memory is untouched. *)
Theorem C7_round_trip_up_to_lastUpdated (st : State) (s : StorageData) :
  initialized st = true ->
  dirExists st = true ->
  wellFormed s ->
  exists st',
    saveThenLoad s st = (inr (stamp s (now st)), st')
    /\ configs (stamp s (now st)) = configs s
    /\ status (stamp s (now st)) = status s
    /\ slaves (stamp s (now st)) = slaves s
    /\ lastUpdated (stamp s (now st)) = now st
    /\ file st' = Some (Document (stamp s (now st)))
    /\ data st' = data st.
Proof.
  intros Hi Hd Hw. eexists. split.
  - apply saveThenLoad_stamped; assumption.
  - repeat split.
Qed.

(** C7 (amended) on the sample snapshot, saved at time 1000000. *)
Lemma C7_round_trip_up_to_lastUpdated_witness :
  exists st',
    saveThenLoad Sample.snapshot Sample.store
    = (inr (stamp Sample.snapshot 1000000), st').
Proof.
  destruct (C7_round_trip_up_to_lastUpdated Sample.store Sample.snapshot
              eq_refl eq_refl wellFormed_snapshot) as (st' & H & _).
  exists st'. exact H.
Defined.

(** *** A status updated in the millisecond of its creation *)

(** [updateServiceStatus] reaches the 0/0 of the percentages: for the
    status [addService] builds at time 1000000, updated while the clock
    still reads 1000000, it stores [NaN] twice, which the debounced write
    turns into [null]. *)
Lemma updateServiceStatus_at_creation_time :
  exists s st',
    updateServiceStatus "api" (serviceStatus Sample.api 1000000) Sample.store
    = (inr s, st')
    /\ ServiceStatus.uptimePercentage s = Some Js.NaN
    /\ ServiceStatus.uptimePercentage30d s = Some Js.NaN
    /\ exists d x,
         file (advanceTo 1005000 st') = Some (Document d)
         /\ status d = [x]
         /\ ServiceStatus.uptimePercentage x = None
         /\ ServiceStatus.uptimePercentage30d x = None.
Proof.
  do 2 eexists. split; [vm_compute; reflexivity|].
  split; [reflexivity|]. split; [reflexivity|].
  do 2 eexists. split; [vm_compute; reflexivity|].
  repeat split.
Qed.

(** *** Debounced saving *)

Lemma debouncedSave_first st0 st t state :
  timers st = [] -> flushing st = [] -> now st <= t ->
  initialized st = true -> dirExists st = true ->
  writes st = writes st0 -> data st = data st0 ->
  pendingAt st0 (snd (debouncedSave state (advanceTo t st))) t state.
Proof.
  intros Ht Hf Hn Hi Hd Hw Hda.
  destruct st as [path ini d h now0 dir f ts nh con ws ms fl]. simpl in *. subst.
  unfold advanceTo. simpl.
  exists nh. destruct h as [h|]; simpl;
    (repeat split; try reflexivity; try (f_equal; f_equal; lia); try lia).
Qed.

Lemma debouncedSave_next st0 st t0 state0 t state :
  pendingAt st0 st t0 state0 ->
  t0 <= t -> t < t0 + saveDebounceMs ->
  pendingAt st0 (snd (debouncedSave state (advanceTo t st))) t state.
Proof.
  intros (h & Ht & Hf & Hs & Hn & Hw & Hda & Hi & Hd) Hle Hlt.
  destruct st as [path ini d sh now0 dir f ts nh con ws ms fl]. simpl in *. subst.
  unfold advanceTo. simpl.
  replace (t0 + saveDebounceMs <=? t) with false
    by (symmetry; apply Z.leb_gt; lia).
  exists nh. simpl. rewrite Nat.eqb_refl. simpl.
  repeat split; try reflexivity; try assumption; try (f_equal; f_equal; lia); try lia.
Qed.

Lemma last_nonempty {A} (x : A) l d d' :
  List.last (x :: l) d = List.last (x :: l) d'.
Proof.
  revert x. induction l as [|y l IH]; intros x; [reflexivity|].
  change (List.last (y :: l) d = List.last (y :: l) d'). apply IH.
Qed.

Lemma burst_pending st0 requests :
  forall st t0 state0,
    pendingAt st0 st t0 state0 ->
    withinWindow t0 requests ->
    pendingAt st0 (burst requests st)
      (fst (List.last requests (t0, state0)))
      (snd (List.last requests (t0, state0))).
Proof.
  induction requests as [|[t state] rest IH]; intros st t0 state0 Hp Hw.
  - exact Hp.
  - destruct Hw as (Hle & Hlt & Hrest).
    cbn [burst].
    pose proof (debouncedSave_next st0 st t0 state0 t state Hp Hle Hlt) as Hp'.
    specialize (IH _ _ _ Hp' Hrest).
    destruct rest as [|r rest']; [exact IH|].
    change (List.last ((t, state) :: r :: rest') (t0, state0))
      with (List.last (r :: rest') (t0, state0)).
    rewrite (last_nonempty r rest' (t0, state0) (t, state)). exact IH.
Qed.

(** Before the window after the last request has elapsed nothing is
    written. *)
Lemma pending_waits st0 st t state T :
  pendingAt st0 st t state -> T < t + saveDebounceMs ->
  writes (advanceTo T st) = writes st0.
Proof.
  intros (h & Ht & Hf & Hs & Hn & Hw & Hda & Hi & Hd) Hlt.
  destruct st as [path ini d sh now0 dir f ts nh con ws ms fl]. simpl in *. subst.
  unfold advanceTo. simpl.
  replace (t + saveDebounceMs <=? T) with false
    by (symmetry; apply Z.leb_gt; lia).
  reflexivity.
Qed.

(** Once it has elapsed there has been one write, of the state of the
    last request, issued when the window closed. *)
Lemma pending_fires st0 st t state T :
  pendingAt st0 st t state -> t + saveDebounceMs <= T ->
  writes (advanceTo T st)
  = writes st0 ++ [(t + saveDebounceMs, written st0 state (t + saveDebounceMs))]
  /\ timers (advanceTo T st) = [].
Proof.
  intros (h & Ht & Hf & Hs & Hn & Hw & Hda & Hi & Hd) Hle.
  destruct st as [path ini d sh now0 dir f ts nh con ws ms fl]. simpl in *. subst.
  unfold advanceTo. simpl.
  replace (t + saveDebounceMs <=? T) with true
    by (symmetry; apply Z.leb_le; lia).
  unfold fire. simpl. rewrite Nat.eqb_refl. simpl.
  unfold saveCallback, ensureInitialized, bind, get, modify, suspendOn,
    writeFile, ret, Date_now. simpl.
  replace (Z.max t (t + saveDebounceMs)) with (t + saveDebounceMs)
    by (unfold saveDebounceMs; lia).
  unfold written.
  destruct state as [s|]; simpl;
    destruct (t + saveDebounceMs + ms <=? T); simpl; split; reflexivity.
Qed.

Lemma inOneWindow_withinWindow first requests :
  forall from, first <= from ->
    inOneWindow first from requests -> withinWindow from requests.
Proof.
  induction requests as [|[t state] rest IH]; intros from Hf H; simpl in *.
  - exact I.
  - destruct H as (H1 & H2 & H3). repeat split; [lia|lia|].
    apply IH; [lia|exact H3].
Qed.

(** Debouncing from a store on which no write is under way: as long as
    each request comes less than one window after the one before, nothing
    is written until one full window after the last request, and then the
    state of the last request is written, once. *)
Lemma debounce_resets_on_each_request st t1 state1 rest :
  initialized st = true -> dirExists st = true -> timers st = [] ->
  flushing st = [] ->
  now st <= t1 ->
  withinWindow t1 rest ->
  let st' := burst ((t1, state1) :: rest) st in
  let tN := fst (List.last rest (t1, state1)) in
  let stateN := snd (List.last rest (t1, state1)) in
  (forall T, T < tN + saveDebounceMs -> writes (advanceTo T st') = writes st)
  /\ (forall T, tN + saveDebounceMs <= T ->
        writes (advanceTo T st')
        = writes st ++ [(tN + saveDebounceMs,
                         written st stateN (tN + saveDebounceMs))]).
Proof.
  intros Hi Hd Ht Hf Hn Hw st' tN stateN.
  assert (Hp : pendingAt st st' tN stateN).
  { subst st' tN stateN. cbn [burst].
    apply burst_pending; [|exact Hw].
    apply debouncedSave_first; auto. }
  split; intros T HT.
  - apply (pending_waits st st' tN stateN T Hp HT).
  - apply (pending_fires st st' tN stateN T Hp HT).
Qed.

Lemma writing_reachable :
  initialized Sample.writing = true
  /\ dirExists Sample.writing = true
  /\ timers Sample.writing = []
  /\ flushing Sample.writing = [{| settles := 1006000; outcome := inr tt |}]
  /\ now Sample.writing = 1005000.
Proof. vm_compute. repeat split. Qed.

(** C6: the code at the failing input. On a disk that takes 1000 ms
    for a write, the write of an earlier save is under way from 1005000 to
    1006000. A request at 1005200 sets its timer; when the write settles,
    the callback of the earlier save assigns [null] to [saveTimeout] and so
    forgets the handle of that timer; the request at 1006500, in the same
    debounce window, therefore clears nothing. Both timers fire: the two
    requests cause two writes, at 1010200 of the state of the first and at
    1011500 of the state of the second, not one. *)
Theorem C6_request_during_a_write_is_not_coalesced :
  let st := Sample.writing in
  let st' := burst Sample.late st in
  (initialized st = true /\ dirExists st = true /\ timers st = []
   /\ now st <= 1005200)
  /\ inOneWindow 1005200 1005200 [(1006500, Some Sample.emptied)]
  /\ (let requested :=
        snd (debouncedSave (Some Sample.snapshot) (advanceTo 1005200 st)) in
      saveTimeout requested = Some 1%nat
      /\ List.map handle (timers requested) = [1%nat]
      /\ saveTimeout (advanceTo 1006500 requested) = None
      /\ List.map handle (timers (advanceTo 1006500 requested)) = [1%nat])
  /\ List.map handle (timers st') = [1%nat; 2%nat]
  /\ writes (advanceTo 1011500 st')
     = writes st
       ++ [(1010200, written st (Some Sample.snapshot) 1010200);
           (1011500, written st (Some Sample.emptied) 1011500)].
Proof.
  cbn zeta.
  split; [repeat split; try reflexivity; vm_compute; discriminate|].
  split; [vm_compute; repeat split; discriminate|].
  split; [vm_compute; repeat split|].
  split; [vm_compute; reflexivity|].
  vm_compute. reflexivity.
Qed.

(** From a store on which no write is under way, the debounce does what
    it is meant to: for every [N >= 1], [N] debounced save requests issued
    within one debounce window (5000 ms) of the first cause exactly one
    physical write; the write holds the state passed with the last request
    (stamped with the time of the write); and it is issued one full window
    after the last request, not the first: until then nothing is
    written. *)
Theorem debounce_coalesces_at_rest (st : State) (t1 : Z)
  (state1 : option StorageData) (rest : list (Z * option StorageData)) :
  initialized st = true ->
  dirExists st = true ->
  timers st = [] ->
  flushing st = [] ->
  now st <= t1 ->
  inOneWindow t1 t1 rest ->
  let st' := burst ((t1, state1) :: rest) st in
  let tN := fst (List.last rest (t1, state1)) in
  let stateN := snd (List.last rest (t1, state1)) in
  (forall T, T < tN + saveDebounceMs -> writes (advanceTo T st') = writes st)
  /\ (forall T, tN + saveDebounceMs <= T ->
        writes (advanceTo T st')
        = writes st ++ [(tN + saveDebounceMs,
                         written st stateN (tN + saveDebounceMs))]).
Proof.
  intros Hi Hd Ht Hf Hn Hw.
  apply debounce_resets_on_each_request; try assumption.
  apply (inOneWindow_withinWindow t1); [lia|exact Hw].
Qed.

(** Three requests at 1000100, 1002000 and 1004900 on a disk that takes
    1000 ms for a write: nothing is written up to 1009899, and at 1009900
    the state of the third request is. *)
Lemma debounce_coalesces_at_rest_witness :
  let st' :=
    burst ((1000100, Some Sample.snapshot) :: Sample.requests) Sample.slowStore in
  writes (advanceTo 1009899 st') = writes Sample.slowStore
  /\ writes (advanceTo 1009900 st')
     = writes Sample.slowStore
       ++ [(1009900, written Sample.slowStore (Some Sample.emptied) 1009900)].
Proof.
  destruct (debounce_coalesces_at_rest Sample.slowStore 1000100
              (Some Sample.snapshot) Sample.requests) as (H1 & H2).
  - reflexivity.
  - reflexivity.
  - reflexivity.
  - reflexivity.
  - vm_compute. discriminate.
  - vm_compute. repeat split; discriminate.
  - split.
    + apply (H1 1009899). vm_compute. reflexivity.
    + apply (H2 1009900). vm_compute. discriminate.
Defined.

(** *** Services and their statuses *)

(** [addService] schedules the save of the loaded state with the new
    status appended; the configs are the loaded ones. *)
Lemma addService_leaves_configs st d service :
  initialized st = true -> file st = Some (Document d) -> timers st = [] ->
  timers (snd (addService service st))
  = [{| handle := nextHandle st; due := now st + saveDebounceMs;
        payload := Some {| configs := configs d;
                           status := status d ++ [serviceStatus service (now st)];
                           slaves := slaves d;
                           lastUpdated := lastUpdated d |};
        shared := false |}].
Proof.
  intros Hi Hf Ht. unfold addService, bind at 1.
  rewrite (load_document st d Hi Hf).
  destruct st as [path ini da sh now0 dir f ts nh con ws]. simpl in *. subst.
  destruct sh; reflexivity.
Qed.

(** [removeService] schedules the save of the loaded state without the
    config and without the status of the service. *)
Lemma removeService_removes_both_sides st d serviceId :
  initialized st = true -> file st = Some (Document d) -> timers st = [] ->
  exists state,
    timers (snd (removeService serviceId st))
    = [{| handle := nextHandle st; due := now st + saveDebounceMs;
          payload := Some state; shared := false |}]
    /\ (forall c, In c (configs state) -> id (base_of c) <> serviceId)
    /\ (forall s, In s (status state) -> ServiceStatus.id s <> serviceId).
Proof.
  intros Hi Hf Ht. unfold removeService, bind at 1.
  rewrite (load_document st d Hi Hf).
  destruct st as [path ini da sh now0 dir f ts nh con ws]. simpl in *. subst.
  eexists. split; [destruct sh; reflexivity|].
  split; intros x Hx; simpl in Hx; apply List.filter_In in Hx as (_ & Hx);
    apply negb_true_iff, String.eqb_neq in Hx; exact Hx.
Qed.

(** C8: the code at the failing input. On a newly initialised store,
    [addService] for the service [api] followed by the debounced write
    leaves a file with the status of [api] and no config at all: the
    status has no corresponding config. *)
Theorem C8_addService_stores_no_config :
  let st1 := snd (addService Sample.api Sample.store) in
  let st2 := advanceTo (1000000 + saveDebounceMs) st1 in
  exists d,
    file st2 = Some (Document d)
    /\ status d = [serviceStatus Sample.api 1000000]
    /\ configs d = []
    /\ ~ everyStatusHasItsConfig d.
Proof.
  cbn zeta. eexists. split; [vm_compute; reflexivity|].
  split; [reflexivity|]. split; [reflexivity|].
  intros H. inversion H as [|s l Hs _]; subst. vm_compute in Hs. discriminate.
Qed.

End DurableStore.

(* ===================================================================== *)
(** ** The slave's scheduler                                              *)
(* ===================================================================== *)

Section Scheduler.
Import Slave Spec.
Variable schedules : Z -> bool.

Lemma filter_insert_length {A} (f : A -> bool) (l : list A) n x y :
  l !! n = Some x ->
  (length (List.filter f (<[n:=y]> l)) + (if f x then 1 else 0)
   = length (List.filter f l) + (if f y then 1 else 0))%nat.
Proof.
  revert n. induction l as [|a l IH]; intros n H; [discriminate|].
  destruct n as [|n]; simpl in *.
  - injection H as ->. destruct (f x), (f y); simpl; lia.
  - specialize (IH n H). destruct (f a); simpl; lia.
Qed.

Lemma filter_delete_length {A} (f : A -> bool) (l : list A) n x :
  l !! n = Some x ->
  (length (List.filter f (delete n l)) + (if f x then 1 else 0)
   = length (List.filter f l))%nat.
Proof.
  revert n. induction l as [|a l IH]; intros n H; [discriminate|].
  destruct n as [|n]; simpl in *.
  - injection H as ->. destruct (f x); simpl; lia.
  - specialize (IH n H). destruct (f a); simpl; lia.
Qed.

Lemma allStopped_alter_stop sid st handle cron' :
  allStopped sid st ->
  cron' = alter stop handle (cron st) ->
  forall h task, cron' !! h = Some task ->
    id (base_of (service task)) = sid -> running task = false.
Proof.
  intros Hall -> h task Hl Hid.
  destruct (decide (handle = h)) as [->|Hne].
  - rewrite list_lookup_alter_eq in Hl.
    destruct (cron st !! h) as [t|]; [|discriminate].
    injection Hl as <-. reflexivity.
  - rewrite list_lookup_alter_ne in Hl by exact Hne.
    exact (Hall h task Hl Hid).
Qed.

(** [removeService] stops the task of the service when it is the
    registered one. *)
Lemma removeService_stops sid st :
  onlyRegisteredRuns sid st ->
  allStopped sid (removeService sid st).
Proof.
  intros Hreg h task Hl Hid. unfold removeService in Hl.
  destruct (tasks st !! sid) as [h0|] eqn:E; simpl in Hl.
  - destruct (decide (h0 = h)) as [->|Hne].
    + rewrite list_lookup_alter_eq in Hl.
      destruct (cron st !! h) as [t|]; [|discriminate].
      injection Hl as <-. reflexivity.
    + rewrite list_lookup_alter_ne in Hl by exact Hne.
      destruct (running task) eqn:Er; [|reflexivity].
      pose proof (Hreg h task Hl Er Hid) as H. congruence.
  - destruct (running task) eqn:Er; [|reflexivity].
    pose proof (Hreg h task Hl Er Hid) as H. congruence.
Qed.

Lemma removeService_keeps sid st :
  reports (removeService sid st) = reports st
  /\ jobs (removeService sid st) = jobs st.
Proof.
  unfold removeService. destruct (tasks st !! sid); split; reflexivity.
Qed.

(** One turn of the event loop, other than a new [addService] of the
    service: its tasks stay stopped, and a report for it is sent only by
    a check of it that was in flight. *)
Lemma step_after_removal sid st l st' :
  allStopped sid st ->
  addsService sid l = false ->
  step schedules st l = Some st' ->
  allStopped sid st'
  /\ (length (reportsFor sid st') + length (inFlight sid st')
      = length (reportsFor sid st) + length (inFlight sid st))%nat.
Proof.
  intros Hall Hadd Hstep.
  destruct l as [s|h|n r|n b|j]; simpl in Hstep.
  - (* addService of another service *)
    injection Hstep as <-. simpl in Hadd. unfold addService_enter.
    destruct (schedules (interval (base_of s))); [|split; [exact Hall|reflexivity]].
    split.
    + intros h task Hl Hid. simpl in Hl.
      apply lookup_app_Some in Hl as [Hl|(_ & Hl)]; [exact (Hall h task Hl Hid)|].
      destruct (h - length (cron st))%nat; [|discriminate].
      injection Hl as <-. simpl in Hid. subst sid.
      rewrite String.eqb_refl in Hadd. discriminate.
    + unfold reportsFor, inFlight. simpl.
      rewrite List.filter_app, length_app. simpl. rewrite Hadd. simpl. lia.
  - (* a cron tick *)
    destruct (cron st !! h) as [t|] eqn:El; [|discriminate].
    destruct (running t) eqn:Er; [|discriminate].
    injection Hstep as <-. split; [exact Hall|].
    unfold reportsFor, inFlight. simpl.
    rewrite List.filter_app, length_app. simpl.
    destruct (String.eqb (id (base_of (service t))) sid) eqn:Eid; simpl; [|lia].
    apply String.eqb_eq in Eid. pose proof (Hall h t El Eid). congruence.
  - (* a check settles and its result is reported *)
    destruct (jobs st !! n) as [[o s|o s]|] eqn:Ej; try discriminate.
    destruct (String.eqb (serviceId r) (id (base_of s))) eqn:Er; [|discriminate].
    apply String.eqb_eq in Er.
    injection Hstep as <-. split; [exact Hall|].
    unfold reportsFor, inFlight. simpl.
    rewrite List.filter_app, length_app. simpl.
    pose proof (filter_insert_length (isCheckingFor sid) (jobs st) n
                  (Checking o s) (Reporting o s) Ej) as H.
    simpl in H. unfold isFor. rewrite Er.
    destruct (String.eqb (id (base_of s)) sid); simpl in *; lia.
  - (* a report settles *)
    destruct (jobs st !! n) as [[o s|o s]|] eqn:Ej; try discriminate.
    pose proof (filter_delete_length (isCheckingFor sid) (jobs st) n
                  (Reporting o s) Ej) as H. simpl in H.
    destruct o as [|h]; injection Hstep as <-;
      (split; [exact Hall|]); unfold reportsFor, inFlight; simpl; lia.
  - (* removeService *)
    injection Hstep as <-. split.
    + intros h task Hl Hid. unfold removeService in Hl.
      destruct (tasks st !! j) as [h0|]; simpl in Hl.
      * exact (allStopped_alter_stop sid st h0 _ Hall eq_refl h task Hl Hid).
      * exact (Hall h task Hl Hid).
    + unfold reportsFor, inFlight.
      destruct (removeService_keeps j st) as (-> & ->). reflexivity.
Qed.

Lemma run_after_removal sid after :
  forall st st',
    allStopped sid st ->
    forallb (fun l => negb (addsService sid l)) after = true ->
    run schedules st after = Some st' ->
    allStopped sid st'
    /\ (length (reportsFor sid st') + length (inFlight sid st')
        = length (reportsFor sid st) + length (inFlight sid st))%nat.
Proof.
  induction after as [|l after IH]; intros st st' Hall Hno Hrun; simpl in *.
  - injection Hrun as <-. split; [exact Hall|reflexivity].
  - apply andb_true_iff in Hno as (Hl & Hno). apply negb_true_iff in Hl.
    destruct (step schedules st l) as [st1|] eqn:Es; [|discriminate].
    destruct (step_after_removal sid st l st1 Hall Hl Es) as (Hall1 & Hc1).
    destruct (IH st1 st' Hall1 Hno Hrun) as (Hall' & Hc').
    split; [exact Hall'|lia].
Qed.

Lemma busy_reachable :
  Slave.run Sample.schedules initial Sample.checking = Some Sample.busy.
Proof. vm_compute. reflexivity. Qed.

Lemma busy_onlyRegisteredRuns : onlyRegisteredRuns "gw" Sample.busy.
Proof.
  intros h task Hl Hr Hid.
  destruct h as [|h]; [|destruct h; discriminate].
  vm_compute. reflexivity.
Qed.

(** C9, as the specification states it, fails: [gateway] is added and
    reports once, its cron task fires and the check is in flight when
    [removeService] runs; the check then settles and its result is
    reported although the service is gone. *)
Lemma C9_counterexample :
  Slave.run Sample.schedules initial Sample.checking = Some Sample.busy
  /\ monitor (removeService "gw" Sample.busy) !! "gw" = None
  /\ tasks (removeService "gw" Sample.busy) !! "gw" = None
  /\ reportsFor "gw" (removeService "gw" Sample.busy) = [Sample.gatewayUp 1000020]
  /\ Slave.run Sample.schedules (removeService "gw" Sample.busy)
       [CheckSettles 0 (Sample.gatewayUp 1010020)]
     <> None
  /\ ~ silentAfterRemoval Sample.schedules "gw" Sample.busy
        [CheckSettles 0 (Sample.gatewayUp 1010020)].
Proof.
  split; [exact busy_reachable|].
  split; [vm_compute; reflexivity|].
  split; [vm_compute; reflexivity|].
  split; [vm_compute; reflexivity|].
  split; [vm_compute; discriminate|].
  intros H.
  destruct (Slave.run Sample.schedules (removeService "gw" Sample.busy)
              [CheckSettles 0 (Sample.gatewayUp 1010020)]) as [st'|] eqn:E;
    [|vm_compute in E; discriminate].
  specialize (H st' E).
  vm_compute in E. injection E as <-. vm_compute in H. discriminate.
Qed.

(** C9 (amended). When the only task of the service that still fires is
    the one registered for it, then after [removeService(id)] has returned
    and for as long as the service is not added again, no task of the
    service fires, so no new check of it starts; but a check that was in
    flight when the service was removed is not discarded: each report sent
    for the service after the removal comes from one of those checks, and
    every one of them that settles is reported. *)
Theorem C9_only_checks_in_flight_report (sid : string) (st st' : State)
  (after : list Label) :
  onlyRegisteredRuns sid st ->
  forallb (fun l => negb (addsService sid l)) after = true ->
  run schedules (removeService sid st) after = Some st' ->
  allStopped sid st'
  /\ (forall handle task,
        cron st' !! handle = Some task ->
        id (base_of (service task)) = sid ->
        step schedules st' (CronTick handle) = None)
  /\ (length (reportsFor sid st') + length (inFlight sid st')
      = length (reportsFor sid st) + length (inFlight sid st))%nat.
Proof.
  intros Hreg Hno Hrun.
  destruct (run_after_removal sid after (removeService sid st) st'
              (removeService_stops sid st Hreg) Hno Hrun) as (Hall & Hcount).
  split; [exact Hall|]. split.
  - intros h task Hl Hid. simpl. rewrite Hl, (Hall h task Hl Hid). reflexivity.
  - unfold reportsFor, inFlight in *.
    destruct (removeService_keeps sid st) as (Hr & Hj).
    rewrite Hr, Hj in Hcount. exact Hcount.
Qed.

End Scheduler.

Section SchedulerWitness.
Import Slave Spec.

(** C9 (amended) on the slave whose check of the gateway is in flight
    when the gateway is removed. *)
Lemma C9_only_checks_in_flight_report_witness :
  exists st',
    Slave.run Sample.schedules (removeService "gw" Sample.busy)
      [CheckSettles 0 (Sample.gatewayUp 1010020); ReportSettles 0 true] = Some st'
    /\ allStopped "gw" st'
    /\ (length (reportsFor "gw" st') + length (inFlight "gw" st') = 1 + 1)%nat.
Proof.
  destruct (Slave.run Sample.schedules (removeService "gw" Sample.busy)
              [CheckSettles 0 (Sample.gatewayUp 1010020); ReportSettles 0 true])
    as [st'|] eqn:E; [|vm_compute in E; discriminate].
  exists st'. split; [reflexivity|].
  destruct (C9_only_checks_in_flight_report Sample.schedules "gw" Sample.busy st'
              [CheckSettles 0 (Sample.gatewayUp 1010020); ReportSettles 0 true]
              busy_onlyRegisteredRuns eq_refl E) as (H1 & _ & H3).
  split; [exact H1|exact H3].
Defined.

End SchedulerWitness.

(* ===================================================================== *)
(** ** Further properties of the check executor                           *)
(* ===================================================================== *)

Section ExecutorBehaviour.
Import Probe Spec Behaviour.
Variable net : Network.
Variable config : MonitorConfig.t.
Open Scope async_scope.

Lemma retryTrace_S ev k :
  (1 <= k)%nat -> retryTrace ev (S k) = ev :: EvSleep 1000 :: retryTrace ev k.
Proof. destruct k; [lia|reflexivity]. Qed.

Lemma filter_retryTrace (isProbe : Event -> bool) ev k :
  isProbe ev = true -> isProbe (EvSleep 1000) = false ->
  List.filter isProbe (retryTrace ev k) = repeat ev k.
Proof.
  intros He Hs. induction k as [|k IH]; [reflexivity|].
  destruct k as [|k]; [simpl; rewrite He; reflexivity|].
  rewrite retryTrace_S by lia. cbn [List.filter]. rewrite He, Hs, IH. reflexivity.
Qed.

Lemma sleeps_retryTrace ev k :
  isSleep ev = false ->
  sleeps (retryTrace ev k) = repeat (EvSleep 1000) (k - 1).
Proof.
  intros He. unfold sleeps. induction k as [|k IH]; [reflexivity|].
  destruct k as [|k]; [simpl; rewrite He; reflexivity|].
  rewrite retryTrace_S by lia. cbn [List.filter]. rewrite He. simpl isSleep.
  cbn iota. rewrite IH. simpl. rewrite Nat.sub_0_r. reflexivity.
Qed.

Lemma added_app w t : added w {| now := 0; probes := O; trace := trace w ++ t |} = t.
Proof. unfold added. simpl. apply drop_app_length. Qed.

Lemma probedTimes_retryTrace (isProbe : Event -> bool) ev k w w' :
  isProbe ev = true -> isProbe (EvSleep 1000) = false -> isSleep ev = false ->
  trace w' = trace w ++ retryTrace ev k ->
  probedTimes isProbe ev k w w'.
Proof.
  intros He Hs Hn Ht. unfold probedTimes, added. rewrite Ht, drop_app_length.
  split; [apply filter_retryTrace; assumption|apply sleeps_retryTrace; assumption].
Qed.

(** *** The attempt budget *)

Lemma httpLoop1_trace service fuel :
  forall attempt error success w,
    attempt <= MonitorConfig.retryAttempts config ->
    MonitorConfig.retryAttempts config - attempt + 1 <= Z.of_nat fuel ->
    exists k,
      (1 <= k)%nat
      /\ Z.of_nat k <= MonitorConfig.retryAttempts config - attempt + 1
      /\ trace (snd (Monitor1.httpLoop net config service fuel attempt error success w))
         = trace w ++ retryTrace (EvFetch (Monitor1.fetchTarget service)
                                    (Monitor1.effectiveTimeout config service)) k.
Proof.
  induction fuel as [|fuel IH]; intros attempt error success w Hle Hfuel; [lia|].
  cbn [Monitor1.httpLoop].
  replace (attempt <=? MonitorConfig.retryAttempts config) with true
    by (symmetry; apply Z.leb_le; lia).
  unfold bind, fetch, await_probe.
  destruct (onFetch net (probes w)) as [lat response|lat err].
  - exists 1%nat. simpl. repeat split; lia.
  - destruct (attempt =? MonitorConfig.retryAttempts config) eqn:E.
    + exists 1%nat. simpl. repeat split; lia.
    + apply Z.eqb_neq in E. unfold sleep.
      edestruct (IH (attempt + 1) (Some (Js.errorMessage err)) success)
        as (k & Hk1 & Hk2 & Ht); [| |exists (S k); split; [lia|split; [lia|]]].
      3:{ rewrite Ht. simpl trace. rewrite retryTrace_S by lia.
          rewrite <- !app_assoc. reflexivity. }
      all: lia.
Qed.

Lemma httpLoop2_trace base url startTime fuel :
  forall attempt vars w,
    attempt <= MonitorConfig.retryAttempts config ->
    MonitorConfig.retryAttempts config - attempt + 1 <= Z.of_nat fuel ->
    exists k,
      (1 <= k)%nat
      /\ Z.of_nat k <= MonitorConfig.retryAttempts config - attempt + 1
      /\ trace (snd (Monitor2.httpLoop net config base url startTime fuel attempt vars w))
         = trace w ++ retryTrace
                        (EvFetch url (Monitor2.effectiveTimeout config
                                        (HttpServiceConfig base url))) k.
Proof.
  induction fuel as [|fuel IH]; intros attempt vars w Hle Hfuel; [lia|].
  cbn [Monitor2.httpLoop].
  replace (attempt <=? MonitorConfig.retryAttempts config) with true
    by (symmetry; apply Z.leb_le; lia).
  unfold bind, Date_now, fetch, await_probe.
  destruct (onFetch net (probes w)) as [lat response|lat err].
  - exists 1%nat. simpl. repeat split; lia.
  - destruct (attempt =? MonitorConfig.retryAttempts config) eqn:E.
    + exists 1%nat. simpl. repeat split; lia.
    + apply Z.eqb_neq in E. unfold sleep.
      edestruct (IH (attempt + 1)) as (k & Hk1 & Hk2 & Ht);
        [| |exists (S k); split; [lia|split; [lia|]]].
      3:{ rewrite Ht. simpl trace. rewrite retryTrace_S by lia.
          rewrite <- !app_assoc. reflexivity. }
      all: lia.
Qed.

Lemma icmpLoop2_trace base host fuel :
  forall attempt error success w,
    attempt <= MonitorConfig.retryAttempts config ->
    MonitorConfig.retryAttempts config - attempt + 1 <= Z.of_nat fuel ->
    exists k logged,
      (1 <= k)%nat
      /\ Z.of_nat k <= MonitorConfig.retryAttempts config - attempt + 1
      /\ Forall (fun e => isPing e = false /\ isSleep e = false) logged
      /\ trace (snd (Monitor2.icmpLoop net config (IcmpServiceConfig base host)
                       fuel attempt error success w))
         = trace w ++ retryTrace
                        (EvPing host (Monitor2.effectiveTimeout config
                                        (IcmpServiceConfig base host))) k
                   ++ logged.
Proof.
  induction fuel as [|fuel IH]; intros attempt error success w Hle Hfuel; [lia|].
  cbn [Monitor2.icmpLoop].
  replace (attempt <=? MonitorConfig.retryAttempts config) with true
    by (symmetry; apply Z.leb_le; lia).
  unfold bind at 1, ping, await_probe.
  destruct (onPing net (probes w)) as [lat result|lat err].
  - destruct (Monitor2.permissionDenied (Monitor2.pingError result)).
    + exists 1%nat. eexists [_]. unfold bind, log, emit, ret. simpl.
      split; [lia|]. split; [lia|]. split; [|rewrite <- app_assoc; reflexivity].
      repeat constructor.
    + exists 1%nat, []. unfold ret. simpl. rewrite ?app_nil_r.
      repeat split; try lia. constructor.
  - destruct (attempt =? MonitorConfig.retryAttempts config) eqn:E.
    + exists 1%nat, []. unfold ret. simpl. rewrite ?app_nil_r.
      repeat split; try lia. constructor.
    + apply Z.eqb_neq in E. unfold bind, sleep.
      edestruct (IH (attempt + 1) (Some (Js.errorMessage err)) success)
        as (k & logged & Hk1 & Hk2 & Hl & Ht);
        [| |exists (S k), logged; split; [lia|split; [lia|split; [exact Hl|]]]].
      3:{ rewrite Ht. simpl trace. rewrite retryTrace_S by lia.
          rewrite <- !app_assoc. reflexivity. }
      all: lia.
Qed.

Lemma probedTimes_logged (isProbe : Event -> bool) ev k w w' logged :
  isProbe ev = true -> isProbe (EvSleep 1000) = false -> isSleep ev = false ->
  Forall (fun e => isProbe e = false /\ isSleep e = false) logged ->
  trace w' = trace w ++ retryTrace ev k ++ logged ->
  probedTimes isProbe ev k w w'.
Proof.
  intros He Hs Hn Hl Ht. unfold probedTimes, added, sleeps.
  rewrite Ht, drop_app_length, !List.filter_app. clear Ht.
  assert (H : List.filter isProbe logged = [] /\ List.filter isSleep logged = []).
  { induction Hl as [|e l (H1 & H2) _ (IH1 & IH2)]; [split; reflexivity|].
    simpl. rewrite H1, H2. split; assumption. }
  destruct H as (H1 & H2). rewrite H1, H2, !app_nil_r.
  split; [apply filter_retryTrace; assumption|apply sleeps_retryTrace; assumption].
Qed.

(** Whatever the network does, a check with a budget of at least one
    attempt probes at least once and at most [retryAttempts] times, and
    sleeps 1000 ms between consecutive probes and at no other time: the
    HTTP check of either variant and the ICMP check. *)
Theorem checks_stay_within_budget (base : BaseServiceConfig) (url host : string)
  (w : World) :
  1 <= MonitorConfig.retryAttempts config ->
  (exists r w' k,
      Monitor2.checkHttpService net config (HttpServiceConfig base url) w = (inr r, w')
      /\ (1 <= k)%nat /\ Z.of_nat k <= MonitorConfig.retryAttempts config
      /\ probedTimes isFetch
           (EvFetch url (Js.or_number (timeout base) (MonitorConfig.timeout config)))
           k w w')
  /\ (exists r w' k,
         Monitor2.checkIcmpService net config (IcmpServiceConfig base host) w = (r, w')
         /\ (1 <= k)%nat /\ Z.of_nat k <= MonitorConfig.retryAttempts config
         /\ probedTimes isPing
              (EvPing host (Js.or_number (timeout base) (MonitorConfig.timeout config)))
              k w w')
  /\ (exists r w' k,
         Monitor1.checkHttpService net config (HttpServiceConfig base url) w = (r, w')
         /\ (1 <= k)%nat /\ Z.of_nat k <= MonitorConfig.retryAttempts config
         /\ probedTimes isFetch
              (EvFetch url (Js.or_number (timeout base) (MonitorConfig.timeout config)))
              k w w').
Proof.
  intros Hb. split; [|split].
  - unfold Monitor2.checkHttpService, bind, Date_now, ret.
    destruct (httpLoop2_trace base url (now w)
                (Z.to_nat (MonitorConfig.retryAttempts config)) 1
                {| Monitor2.l_error := None; Monitor2.l_success := false;
                   Monitor2.l_duration := 0 |} w ltac:(lia) ltac:(lia))
      as (k & Hk1 & Hk2 & Ht).
    destruct (Monitor2.httpLoop _ _ _ _ _ _ _ _ _) as [vars w1].
    eexists. exists w1, k. split; [reflexivity|]. split; [exact Hk1|]. split; [lia|].
    apply probedTimes_retryTrace; try reflexivity. exact Ht.
  - unfold Monitor2.checkIcmpService, bind, Date_now, ret.
    destruct (icmpLoop2_trace base host
                (Z.to_nat (MonitorConfig.retryAttempts config)) 1 None false
                w ltac:(lia) ltac:(lia))
      as (k & logged & Hk1 & Hk2 & Hl & Ht).
    destruct (Monitor2.icmpLoop _ _ _ _ _ _ _ _) as [r w1].
    eexists. exists w1, k. split; [reflexivity|]. split; [exact Hk1|]. split; [lia|].
    apply (probedTimes_logged isPing _ k w w1 logged); try reflexivity; assumption.
  - unfold Monitor1.checkHttpService, bind, Date_now, ret.
    destruct (httpLoop1_trace (HttpServiceConfig base url)
                (Z.to_nat (MonitorConfig.retryAttempts config)) 1 None false
                w ltac:(lia) ltac:(lia))
      as (k & Hk1 & Hk2 & Ht).
    destruct (Monitor1.httpLoop _ _ _ _ _ _ _ _) as [r w1].
    eexists. exists w1, k. split; [reflexivity|]. split; [exact Hk1|]. split; [lia|].
    apply probedTimes_retryTrace; try reflexivity. exact Ht.
Qed.

(** *** A budget without attempts *)

(** With [retryAttempts] at 0 or below no probe is made and no time
    passes: the result is a failure of duration 0, without an error
    message in the first variant of the HTTP check and in the ICMP check
    ([error: null]), with ["Unknown error"] in the second variant of the
    HTTP check. *)
Theorem empty_budget_fails_without_probe (base base' : BaseServiceConfig)
  (url host : string) (w : World) :
  MonitorConfig.retryAttempts config <= 0 ->
  Monitor1.checkHttpService net config (HttpServiceConfig base url) w
  = ({| serviceId := id base; timestamp := now w; success := false;
        duration := 0; error := None |}, w)
  /\ Monitor2.checkHttpService net config (HttpServiceConfig base url) w
     = (inr {| serviceId := id base; timestamp := now w; success := false;
               duration := 0; error := Some "Unknown error" |}, w)
  /\ Monitor2.checkIcmpService net config (IcmpServiceConfig base' host) w
     = ({| serviceId := id base'; timestamp := now w; success := false;
           duration := 0; error := None |}, w).
Proof.
  intros H.
  unfold Monitor1.checkHttpService, Monitor2.checkHttpService,
    Monitor2.checkIcmpService.
  replace (Z.to_nat (MonitorConfig.retryAttempts config)) with O by lia.
  unfold bind, Date_now, ret. simpl. rewrite Z.sub_diag. repeat split.
Qed.

(** *** A service of the wrong type *)

Lemma icmpLoop2_wrong_type base url fuel :
  forall attempt error success w,
    attempt <= MonitorConfig.retryAttempts config ->
    Z.of_nat fuel = MonitorConfig.retryAttempts config - attempt + 1 ->
    Monitor2.icmpLoop net config (HttpServiceConfig base url) fuel attempt
      error success w
    = ((Some "Invalid service type", success),
       {| now := now w + 1000 * (MonitorConfig.retryAttempts config - attempt);
          probes := probes w;
          trace := trace w
                   ++ repeat (EvSleep 1000)
                        (Z.to_nat (MonitorConfig.retryAttempts config - attempt)) |}).
Proof.
  induction fuel as [|fuel IH]; intros attempt error success w Hle Hfuel; [lia|].
  cbn [Monitor2.icmpLoop].
  replace (attempt <=? MonitorConfig.retryAttempts config) with true
    by (symmetry; apply Z.leb_le; lia).
  unfold bind at 1, ret at 1.
  destruct (attempt =? MonitorConfig.retryAttempts config) eqn:E.
  - apply Z.eqb_eq in E. unfold ret. simpl.
    replace (MonitorConfig.retryAttempts config - attempt) with 0 by lia.
    simpl. rewrite app_nil_r. destruct w; simpl. do 2 f_equal. lia.
  - apply Z.eqb_neq in E. unfold bind, sleep.
    rewrite IH by lia. simpl. f_equal. f_equal; [lia|].
    replace (Z.to_nat (MonitorConfig.retryAttempts config - attempt))
      with (S (Z.to_nat (MonitorConfig.retryAttempts config - (attempt + 1))))
      by lia.
    simpl. rewrite <- app_assoc. reflexivity.
Qed.

Lemma icmpLoop1_wrong_type base url fuel :
  forall attempt error success w,
    attempt <= MonitorConfig.retryAttempts config ->
    Z.of_nat fuel = MonitorConfig.retryAttempts config - attempt + 1 ->
    Monitor1.icmpLoop net config (HttpServiceConfig base url) fuel attempt
      error success w
    = ((Some "Invalid service type", success),
       {| now := now w + 1000 * (MonitorConfig.retryAttempts config - attempt);
          probes := probes w;
          trace := trace w
                   ++ repeat (EvSleep 1000)
                        (Z.to_nat (MonitorConfig.retryAttempts config - attempt)) |}).
Proof.
  induction fuel as [|fuel IH]; intros attempt error success w Hle Hfuel; [lia|].
  cbn [Monitor1.icmpLoop].
  replace (attempt <=? MonitorConfig.retryAttempts config) with true
    by (symmetry; apply Z.leb_le; lia).
  unfold bind at 1, ret at 1.
  destruct (attempt =? MonitorConfig.retryAttempts config) eqn:E.
  - apply Z.eqb_eq in E. unfold ret. simpl.
    replace (MonitorConfig.retryAttempts config - attempt) with 0 by lia.
    simpl. rewrite app_nil_r. destruct w; simpl. do 2 f_equal. lia.
  - apply Z.eqb_neq in E. unfold bind, sleep.
    rewrite IH by lia. simpl. f_equal. f_equal; [lia|].
    replace (Z.to_nat (MonitorConfig.retryAttempts config - attempt))
      with (S (Z.to_nat (MonitorConfig.retryAttempts config - (attempt + 1))))
      by lia.
    simpl. rewrite <- app_assoc. reflexivity.
Qed.

(** [checkIcmpService] given an HTTP service does not fail at once: in
    both variants the type test throws inside the retry loop, so the
    check pings nothing, sleeps 1000 ms after every attempt but the last
    and then reports ["Invalid service type"], with the time slept as its
    duration. *)
Theorem checkIcmpService_wrong_type (base : BaseServiceConfig) (url : string)
  (w : World) :
  1 <= MonitorConfig.retryAttempts config ->
  let slept := 1000 * (MonitorConfig.retryAttempts config - 1) in
  let result :=
    {| serviceId := id base; timestamp := now w + slept; success := false;
       duration := slept; error := Some "Invalid service type" |} in
  let w' :=
    {| now := now w + slept; probes := probes w;
       trace := trace w
                ++ repeat (EvSleep 1000)
                     (Z.to_nat (MonitorConfig.retryAttempts config - 1)) |} in
  Monitor2.checkIcmpService net config (HttpServiceConfig base url) w = (result, w')
  /\ Monitor1.checkIcmpService net config (HttpServiceConfig base url) w = (result, w').
Proof.
  intros Hb slept result w'. subst slept result w'. split.
  - unfold Monitor2.checkIcmpService, bind at 1, Date_now at 1. unfold bind at 1.
    rewrite icmpLoop2_wrong_type by lia.
    unfold bind, Date_now, ret. simpl. do 2 f_equal. lia.
  - unfold Monitor1.checkIcmpService, bind at 1, Date_now at 1. unfold bind at 1.
    rewrite icmpLoop1_wrong_type by lia.
    unfold bind, Date_now, ret. simpl. do 2 f_equal. lia.
Qed.

(** *** Success and the error message *)

Lemma judgeResponse_error response :
  snd (Monitor2.judgeResponse response) = true ->
  fst (Monitor2.judgeResponse response) = None.
Proof.
  unfold Monitor2.judgeResponse.
  destruct (HttpResponse.status response =? 200); [|discriminate].
  destruct (HttpResponse.body response) as [|[| | | |data|]]; try discriminate.
  destruct (Monitor2.every _ _); try discriminate. reflexivity.
Qed.

Lemma httpLoop2_success base url startTime fuel :
  forall attempt vars w,
    Monitor2.l_success vars = false ->
    let v := fst (Monitor2.httpLoop net config base url startTime fuel attempt vars w) in
    Monitor2.l_success v = true -> Monitor2.l_error v = None.
Proof.
  induction fuel as [|fuel IH]; intros attempt vars w Hs; cbn zeta.
  - simpl. congruence.
  - cbn [Monitor2.httpLoop].
    destruct (attempt <=? MonitorConfig.retryAttempts config); [|simpl; congruence].
    unfold bind, Date_now, fetch, await_probe.
    destruct (onFetch net (probes w)) as [lat response|lat err].
    + simpl. apply judgeResponse_error.
    + destruct (attempt =? MonitorConfig.retryAttempts config).
      * simpl. congruence.
      * unfold sleep. apply IH. exact Hs.
Qed.

Lemma or_string_nonempty a b : b <> "" -> Js.or_string a b <> "".
Proof.
  intros Hb. unfold Js.or_string. destruct a as [s|]; [|exact Hb].
  destruct s; simpl; [exact Hb|discriminate].
Qed.

(** The result of the second variant of the HTTP check always carries
    an error text, never [null] or the empty string; for a successful
    check the text is ["Unknown error"]. *)
Theorem checkHttpService2_error_is_never_empty (base : BaseServiceConfig)
  (url : string) (w : World) :
  exists r w' e,
    Monitor2.checkHttpService net config (HttpServiceConfig base url) w = (inr r, w')
    /\ error r = Some e
    /\ e <> ""
    /\ (success r = true -> e = "Unknown error").
Proof.
  unfold Monitor2.checkHttpService, bind, Date_now, ret.
  pose proof (httpLoop2_success base url (now w)
                (Z.to_nat (MonitorConfig.retryAttempts config)) 1
                {| Monitor2.l_error := None; Monitor2.l_success := false;
                   Monitor2.l_duration := 0 |} w eq_refl) as H.
  destruct (Monitor2.httpLoop _ _ _ _ _ _ _ _ _) as [vars w1]. simpl in H.
  do 3 eexists. split; [reflexivity|]. simpl.
  split; [reflexivity|]. split.
  - apply or_string_nonempty. discriminate.
  - intros Hs. rewrite (H Hs). reflexivity.
Qed.

Lemma httpLoop1_message service fuel :
  forall attempt error success w,
    success = false ->
    let r := fst (Monitor1.httpLoop net config service fuel attempt error success w) in
    (snd r = true -> fst r = None)
    /\ (error <> None \/ (attempt <= MonitorConfig.retryAttempts config /\ (1 <= fuel)%nat) ->
        snd r = false -> fst r <> None).
Proof.
  induction fuel as [|fuel IH]; intros attempt error success w Hs; cbn zeta.
  - simpl. split; [congruence|]. intros [H|(_ & H)] _; [exact H|lia].
  - cbn [Monitor1.httpLoop].
    destruct (attempt <=? MonitorConfig.retryAttempts config) eqn:Ec.
    + unfold bind, fetch, await_probe.
      destruct (onFetch net (probes w)) as [lat response|lat err].
      * simpl. destruct (ok response); split; try congruence; discriminate.
      * destruct (attempt =? MonitorConfig.retryAttempts config).
        -- simpl. split; [congruence|discriminate].
        -- unfold sleep.
           match goal with
           | |- context [Monitor1.httpLoop _ _ _ _ _ _ _ ?w'] =>
             destruct (IH (attempt + 1) (Some (Js.errorMessage err)) success w' Hs)
               as (H1 & H2)
           end.
           split; [exact H1|]. intros _. apply H2. left. discriminate.
    + simpl. split; [congruence|].
      apply Z.leb_gt in Ec. intros [H|(H & _)] _; [exact H|lia].
Qed.

Lemma icmpLoop2_message service fuel :
  forall attempt error success w e s w',
    success = false ->
    Monitor2.icmpLoop net config service fuel attempt error success w = ((e, s), w') ->
    (s = true -> e = None)
    /\ (error <> None \/ (attempt <= MonitorConfig.retryAttempts config /\ (1 <= fuel)%nat) ->
        s = false -> e <> None).
Proof.
  induction fuel as [|fuel IH]; intros attempt error success w e s w' Hs Heq.
  - simpl in Heq. injection Heq as <- <- _.
    split; [congruence|]. intros [H|(_ & H)] _; [exact H|lia].
  - cbn [Monitor2.icmpLoop] in Heq.
    destruct (attempt <=? MonitorConfig.retryAttempts config) eqn:Ec.
    + assert (Hthrown : forall err w1,
        (if attempt =? MonitorConfig.retryAttempts config
         then ret (Some (Js.errorMessage err), success)
         else (sleep 1000 ;;
               Monitor2.icmpLoop net config service fuel (attempt + 1)
                 (Some (Js.errorMessage err)) success)) w1 = ((e, s), w') ->
        (s = true -> e = None)
        /\ (error <> None
            \/ (attempt <= MonitorConfig.retryAttempts config /\ (1 <= S fuel)%nat) ->
            s = false -> e <> None)).
      { intros err w1 H.
        destruct (attempt =? MonitorConfig.retryAttempts config).
        - unfold ret in H. injection H as <- <- _.
          split; [congruence|intros _ _; discriminate].
        - unfold bind, sleep in H. apply IH in H as (H1 & H2); [|exact Hs].
          split; [exact H1|]. intros _. apply H2. left. discriminate. }
      unfold bind at 1 in Heq.
      destruct service as [b url|b host]; [exact (Hthrown _ _ Heq)|].
      unfold ping, await_probe in Heq.
      destruct (onPing net (probes w)) as [lat result|lat err];
        [|exact (Hthrown _ _ Heq)].
      unfold Monitor2.pingError in Heq.
      destruct (PingResult.alive result) eqn:Ea; simpl in Heq.
      * unfold ret in Heq. injection Heq as <- <- _.
        split; [reflexivity|intros _; discriminate].
      * destruct (Js.includes _ _); unfold bind, log, emit, ret in Heq; simpl in Heq;
          injection Heq as <- <- _;
          (split; [discriminate|intros _ _; discriminate]).
    + unfold ret in Heq. injection Heq as <- <- _. split; [congruence|].
      apply Z.leb_gt in Ec. intros [H|(H & _)] _; [exact H|lia].
Qed.

(** In the first variant of the HTTP check and in the ICMP check a
    successful result has no error ([error: null]), and with a budget of
    at least one attempt a failed result has one. *)
Theorem failure_carries_an_error (service : ServiceConfig) (w : World) :
  1 <= MonitorConfig.retryAttempts config ->
  let r1 := fst (Monitor1.checkHttpService net config service w) in
  let r2 := fst (Monitor2.checkIcmpService net config service w) in
  (success r1 = true -> error r1 = None)
  /\ (success r1 = false -> error r1 <> None)
  /\ (success r2 = true -> error r2 = None)
  /\ (success r2 = false -> error r2 <> None).
Proof.
  intros Hb. cbn zeta.
  unfold Monitor1.checkHttpService, Monitor2.checkIcmpService, bind, Date_now, ret.
  destruct (httpLoop1_message service (Z.to_nat (MonitorConfig.retryAttempts config))
              1 None false w eq_refl) as (H1 & H2).
  destruct (Monitor1.httpLoop _ _ _ _ _ _ _ _) as [[e1 s1] w1].
  destruct (Monitor2.icmpLoop _ _ _ _ _ _ _ _) as [[e2 s2] w2] eqn:E2.
  destruct (icmpLoop2_message service _ _ _ _ _ _ _ _ eq_refl E2) as (H3 & H4).
  simpl in *.
  split; [exact H1|]. split; [apply H2; right; lia|].
  split; [exact H3|]. apply H4; right; lia.
Qed.

(** *** The ICMP check over the repository's [ping] *)

Lemma ping_resolves probe timeout :
  exists result,
    Ping.ping probe timeout = Resolves (latency probe) result
    /\ PingResult.alive result
       = match probe with
         | Resolves _ response => Ping.alive response
         | Rejects _ _ => false
         end.
Proof.
  destruct probe as [lat response|lat err]; eexists; split; reflexivity.
Qed.

(** [ping] turns every failure of the probe into a result, so the
    promise it returns never rejects. An ICMP check that goes through it
    therefore never retries, whatever its budget: it pings once, never
    sleeps, succeeds exactly when the probe came back alive, and its
    duration is the time that one ping took. *)
Theorem checkIcmpService_never_retries (probeScript : nat -> Outcome Ping.PingResponse)
  (pingTimeout : option Z) (base : BaseServiceConfig) (host : string) (w : World) :
  1 <= MonitorConfig.retryAttempts config ->
  (forall n, onPing net n = Ping.ping (probeScript n) pingTimeout) ->
  exists r w',
    Monitor2.checkIcmpService net config (IcmpServiceConfig base host) w = (r, w')
    /\ probedTimes isPing
         (EvPing host (Js.or_number (timeout base) (MonitorConfig.timeout config)))
         1 w w'
    /\ duration r = latency (probeScript (probes w))
    /\ success r
       = match probeScript (probes w) with
         | Resolves _ response => Ping.alive response
         | Rejects _ _ => false
         end.
Proof.
  intros Hb Hnet.
  destruct (ping_resolves (probeScript (probes w)) pingTimeout) as (result & E & Ha).
  rewrite <- Hnet in E.
  unfold Monitor2.checkIcmpService, bind at 1, Date_now at 1.
  replace (Z.to_nat (MonitorConfig.retryAttempts config))
    with (S (Z.to_nat (MonitorConfig.retryAttempts config) - 1)) by lia.
  cbn [Monitor2.icmpLoop].
  replace (1 <=? MonitorConfig.retryAttempts config) with true
    by (symmetry; apply Z.leb_le; lia).
  unfold bind at 1. unfold bind at 1. unfold ping, await_probe. rewrite E.
  destruct (Monitor2.permissionDenied (Monitor2.pingError result));
    unfold bind, log, emit, Date_now, ret; simpl;
    do 2 eexists; (split; [reflexivity|]); simpl;
    (split; [|split; [lia|exact Ha]]);
    unfold probedTimes, added, sleeps; simpl;
    rewrite <- ?app_assoc, drop_app_length; split; reflexivity.
Qed.

End ExecutorBehaviour.

Section ExecutorBehaviourWitnesses.
Import Probe Spec Behaviour.

(** On the network that refuses the first connection, with the default
    budget of 3. *)
Lemma checks_stay_within_budget_witness :
  exists r w' k,
    Monitor2.checkHttpService Sample.flaky Sample.config Sample.api Sample.world0
    = (inr r, w')
    /\ (1 <= k)%nat /\ Z.of_nat k <= 3
    /\ probedTimes isFetch (EvFetch "http://api.local/status" 5000) k
         Sample.world0 w'.
Proof.
  destruct (checks_stay_within_budget Sample.flaky Sample.config Sample.apiBase
              "http://api.local/status" "10.0.0.1" Sample.world0) as (H & _).
  - vm_compute. discriminate.
  - exact H.
Defined.

(** With a budget of 0 on the network that always answers 500. *)
Lemma empty_budget_fails_without_probe_witness :
  Monitor1.checkHttpService Sample.always500 Example.noBudget Sample.api Sample.world0
  = ({| serviceId := "api"; timestamp := 1000000; success := false;
        duration := 0; error := None |}, Sample.world0)
  /\ Monitor2.checkHttpService Sample.always500 Example.noBudget Sample.api
       Sample.world0
     = (inr {| serviceId := "api"; timestamp := 1000000; success := false;
               duration := 0; error := Some "Unknown error" |}, Sample.world0).
Proof.
  destruct (empty_budget_fails_without_probe Sample.always500 Example.noBudget
              Sample.apiBase Sample.gatewayBase "http://api.local/status"
              "10.0.0.1" Sample.world0) as (H1 & H2 & _).
  - vm_compute. discriminate.
  - split; [exact H1|exact H2].
Defined.

(** The HTTP service [api] handed to the ICMP check, with the default
    budget of 3: two sleeps and no ping. *)
Lemma checkIcmpService_wrong_type_witness :
  Monitor2.checkIcmpService Sample.flaky Sample.config Sample.api Sample.world0
  = ({| serviceId := "api"; timestamp := 1002000; success := false;
        duration := 2000; error := Some "Invalid service type" |},
     {| now := 1002000; probes := 0; trace := [EvSleep 1000; EvSleep 1000] |}).
Proof.
  destruct (checkIcmpService_wrong_type Sample.flaky Sample.config Sample.apiBase
              "http://api.local/status" Sample.world0) as (H & _).
  - vm_compute. discriminate.
  - exact H.
Defined.

(** On the endpoint on which every request is aborted. *)
Lemma failure_carries_an_error_witness :
  error (fst (Monitor1.checkHttpService Sample.hanging Sample.config Sample.api
                Sample.world0)) <> None.
Proof.
  destruct (failure_carries_an_error Sample.hanging Sample.config Sample.api
              Sample.world0) as (_ & H & _).
  - vm_compute. discriminate.
  - apply H. reflexivity.
Defined.

(** Over a ping package whose first probe throws: the gateway is
    reported down after that one probe, although the budget is 3. *)
Lemma checkIcmpService_never_retries_witness :
  exists r w',
    Monitor2.checkIcmpService Example.pinged Sample.config Sample.gateway Sample.world0
    = (r, w')
    /\ probedTimes isPing (EvPing "10.0.0.1" 2000) 1 Sample.world0 w'
    /\ duration r = 15
    /\ success r = false.
Proof.
  apply (checkIcmpService_never_retries Example.pinged Sample.config
           Example.probeScript (Some 2000) Sample.gatewayBase "10.0.0.1"
           Sample.world0).
  - vm_compute. discriminate.
  - intros n. reflexivity.
Defined.

End ExecutorBehaviourWitnesses.

(* ===================================================================== *)
(** ** Further properties of the durable store                            *)
(* ===================================================================== *)

Section StoreBehaviour.
Import Storage Spec Behaviour.
Open Scope storage_scope.

(** *** Before [initialize] *)

Lemma ensureInitialized_false st :
  initialized st = false -> ensureInitialized st = (inl notInitialized, st).
Proof.
  intros H. unfold ensureInitialized, bind, get, throw. rewrite H. reflexivity.
Qed.

Lemma load_uninitialized st :
  initialized st = false -> load st = (inl notInitialized, st).
Proof.
  intros H. unfold load, bind. rewrite (ensureInitialized_false st H). reflexivity.
Qed.

(** Until [initialize] has run every method but [loadState] rejects
    with "Storage not initialized. Call initialize() first." and does
    nothing else: nothing is read, scheduled or written
    ([updateServiceStatus] has logged its line by then). *)
Theorem uninitialized_store_rejects (st : State) (state : option StorageData)
  (service : ServiceConfig) (serviceId : string) (status_ : ServiceStatus.t)
  (slave : SlaveStatus.t) :
  initialized st = false ->
  load st = (inl notInitialized, st)
  /\ save state st = (inl notInitialized, st)
  /\ getServices st = (inl notInitialized, st)
  /\ getSlaves st = (inl notInitialized, st)
  /\ getServiceStatus serviceId st = (inl notInitialized, st)
  /\ getAllServiceConfigs st = (inl notInitialized, st)
  /\ getAllServiceStatus st = (inl notInitialized, st)
  /\ getAllSlaveStatus st = (inl notInitialized, st)
  /\ loadServiceStatus serviceId st = (inl notInitialized, st)
  /\ addService service st = (inl notInitialized, st)
  /\ removeService serviceId st = (inl notInitialized, st)
  /\ updateSlaveStatus serviceId slave st = (inl notInitialized, st)
  /\ getSlaveStatus serviceId st = (inl notInitialized, st)
  /\ updateServiceStatus serviceId status_ st
     = (inl notInitialized,
        add_console (ConsoleLog ("[STORAGE] Updating status for service "
                                 +:+ serviceId)) st).
Proof.
  intros H.
  pose proof (ensureInitialized_false st H) as He.
  pose proof (load_uninitialized st H) as Hl.
  repeat split;
    try exact Hl;
    try (unfold save, getServices, getSlaves, getServiceStatus, bind;
         rewrite He; reflexivity);
    try (unfold getAllServiceConfigs, getAllServiceStatus, getAllSlaveStatus,
           loadServiceStatus, addService, removeService, updateSlaveStatus,
           getSlaveStatus, bind;
         rewrite Hl; reflexivity).
  unfold updateServiceStatus, bind at 1, log, modify.
  unfold bind at 1.
  rewrite load_uninitialized by exact H. reflexivity.
Qed.

(** *** A restart *)

Lemma initialize_document st d :
  file st = Some (Document d) ->
  exists st',
    initialize st = (inr tt, st')
    /\ initialized st' = true
    /\ data st' = d
    /\ file st' = Some (Document d)
    /\ writes st' = writes st
    /\ timers st' = List.map (release (data st)) (timers st).
Proof.
  intros Hf. destruct st as [path ini da h t dir f ts nh con ws ms fl].
  simpl in Hf. subst f.
  destruct dir; eexists; (split; [reflexivity|]); simpl;
    destruct d; repeat split.
Qed.

(** What a store saved is what the next process starts from: after
    [save(s)] of a well-formed [s], a new [Storage] on the same directory
    comes out of [initialize] holding [s] with the time of the save as
    [lastUpdated]; it writes nothing and leaves the file as it is. *)
Theorem restart_restores_saved_state (st : State) (s : StorageData)
  (storagePath : string) (t : Z) :
  initialized st = true ->
  dirExists st = true ->
  wellFormed s ->
  let saved := snd (save (Some s) st) in
  exists st',
    initialize (new storagePath t (dirExists saved) (file saved)) = (inr tt, st')
    /\ initialized st' = true
    /\ data st' = stamp s (now st)
    /\ file st' = file saved
    /\ writes st' = [].
Proof.
  intros Hi Hd Hw saved. subst saved.
  rewrite (save_Some st s Hi Hd). cbn [snd].
  rewrite (JSON_stringify_wellFormed _ (wellFormed_stamp s (now st) Hw)).
  destruct (initialize_document
              (new storagePath t
                 (dirExists (add_console (ConsoleLog "[STORAGE] Saved monitor state")
                               (set_file (Document (stamp s (now st))) st)))
                 (file (add_console (ConsoleLog "[STORAGE] Saved monitor state")
                          (set_file (Document (stamp s (now st))) st))))
              (stamp s (now st)) eq_refl)
    as (st' & H1 & H2 & H3 & H4 & H5 & _).
  exists st'. repeat split; assumption.
Qed.

(** *** The event loop *)


(** The two turns of the callback, taken one after the other with
    nothing in between, are [await this.save(state)] followed by
    [this.saveTimeout = null]. *)
Lemma saveCallback_in_two_turns state st :
  initialized st = true ->
  exists written,
    flushing (snd (saveCallback state st))
    = flushing st ++ [{| settles := now st + writeMs st; outcome := written |}]
    /\ snd (saveCallback_resume written
              (set_flushing (flushing st) (snd (saveCallback state st))))
       = snd ((save state ;; modify (set_saveTimeout None)) st).
Proof.
  intros Hi.
  destruct st as [path ini da sh now0 dir f ts nh con ws ms fl].
  simpl in Hi. subst ini.
  unfold saveCallback, saveCallback_resume, save, ensureInitialized, bind,
    try_catch, get, modify, suspendOn, writeFile, log, ret, throw, Date_now.
  destruct state as [s|], dir; simpl; eexists; split; reflexivity.
Qed.








(** *** Two additions within one debounce window *)




(** *** An update is seen in memory before it is on disk *)

Lemma find_upsert sid s' l :
  ServiceStatus.id s' = sid ->
  find sid (match findIndex sid l with
            | None => l ++ [s']
            | Some i => <[i := s']> l
            end) = Some s'.
Proof.
  intros Hid. induction l as [|a l IH]; simpl.
  - rewrite Hid, String.eqb_refl. reflexivity.
  - destruct (String.eqb (ServiceStatus.id a) sid) eqn:E; simpl.
    + rewrite Hid, String.eqb_refl. reflexivity.
    + destruct (findIndex sid l); simpl; rewrite E; exact IH.
Qed.

Lemma find_upsert_other sid other s' l :
  ServiceStatus.id s' = sid -> other <> sid ->
  find other (match findIndex sid l with
              | None => l ++ [s']
              | Some i => <[i := s']> l
              end) = find other l.
Proof.
  intros Hid Hne.
  assert (Hs : String.eqb (ServiceStatus.id s') other = false).
  { apply String.eqb_neq. congruence. }
  induction l as [|a l IH]; simpl.
  - rewrite Hs. reflexivity.
  - destruct (String.eqb (ServiceStatus.id a) sid) eqn:E; simpl.
    + rewrite Hs. apply String.eqb_eq in E.
      replace (String.eqb (ServiceStatus.id a) other) with false; [reflexivity|].
      symmetry. apply String.eqb_neq. congruence.
    + destruct (findIndex sid l); simpl;
        destruct (String.eqb (ServiceStatus.id a) other); try reflexivity; exact IH.
Qed.

(** [updateServiceStatus(id, status)] with [status.id === id] replaces
    [this.data] by the content of the file with [status] put in, so
    [getServiceStatus(id)] answers with the new status at once, and for
    another service with what the file holds; the file itself is not
    touched before the debounce has elapsed, so [loadServiceStatus(id)]
    still answers with the old status. *)
Theorem updated_status_is_answered_from_memory (st : State) (d : StorageData)
  (sid other : string) (status_ : ServiceStatus.t) :
  initialized st = true ->
  file st = Some (Document d) ->
  ServiceStatus.id status_ = sid ->
  other <> sid ->
  let stored :=
    withPercentages status_ (calculateUptimePercentages status_ (now st)) in
  let st' := snd (updateServiceStatus sid status_ st) in
  fst (updateServiceStatus sid status_ st) = inr stored
  /\ fst (getServiceStatus sid st') = inr (Some stored)
  /\ fst (getServiceStatus other st') = inr (find other (status d))
  /\ fst (loadServiceStatus sid st')
     = inr (option_map withDefaults (find sid (status d)))
  /\ file st' = file st
  /\ writes st' = writes st.
Proof.
  intros Hi Hf Hid Hne stored st'. subst stored st'.
  unfold updateServiceStatus, bind at 1, log, modify.
  unfold bind at 1.
  rewrite (load_document _ d) by (simpl; assumption).
  destruct st as [path ini da sh now0 dir f ts nh con ws]. simpl in *. subst ini f.
  unfold bind, Date_now, get, modify, debouncedSave, setTimeout, clearTimeout, ret.
  split; [destruct sh; reflexivity|].
  split.
  { destruct sh; simpl; unfold getServiceStatus, ensureInitialized, bind, get, ret;
      simpl;
      rewrite (find_upsert sid
                 (withPercentages status_ (calculateUptimePercentages status_ now0))
                 (status d) Hid); reflexivity. }
  split.
  { destruct sh; simpl; unfold getServiceStatus, ensureInitialized, bind, get, ret;
      simpl;
      rewrite (find_upsert_other sid other
                 (withPercentages status_ (calculateUptimePercentages status_ now0))
                 (status d) Hid Hne); reflexivity. }
  split.
  { destruct sh; simpl; unfold loadServiceStatus, bind;
      (rewrite (load_document _ d) by reflexivity);
      destruct (find sid (status d)); reflexivity. }
  split; destruct sh; reflexivity.
Qed.

(** *** Two updates within one debounce window *)



(** *** The readers of the file *)

Lemma orHundred_truthy x : falsyNumber (orHundred x) = false.
Proof.
  unfold orHundred. destruct (falsyNumber x) eqn:E; [reflexivity|exact E].
Qed.

(** [getAllServiceStatus] and [loadServiceStatus] answer from the file
    and never hand out a 30-day percentage that is [0], [NaN] or [null]:
    each of these comes out as 100. The statuses are those of the file, in
    its order. *)
Theorem file_readers_never_answer_a_falsy_30d (st : State) (d : StorageData)
  (sid : string) :
  initialized st = true ->
  file st = Some (Document d) ->
  (exists l,
     getAllServiceStatus st = (inr l, st)
     /\ List.map ServiceStatus.id l = List.map ServiceStatus.id (status d)
     /\ Forall (fun s => falsyNumber (ServiceStatus.uptimePercentage30d s) = false) l)
  /\ (exists r,
        loadServiceStatus sid st = (inr r, st)
        /\ (r = None <-> find sid (status d) = None)
        /\ forall s, r = Some s ->
             ServiceStatus.id s = sid
             /\ falsyNumber (ServiceStatus.uptimePercentage30d s) = false).
Proof.
  intros Hi Hf. split.
  - exists (List.map withDefaults (status d)).
    unfold getAllServiceStatus, bind. rewrite (load_document st d Hi Hf).
    split; [reflexivity|]. split.
    + rewrite List.map_map. reflexivity.
    + induction (status d) as [|a l IH]; constructor;
        [apply orHundred_truthy|exact IH].
  - exists (option_map withDefaults (find sid (status d))).
    unfold loadServiceStatus, bind. rewrite (load_document st d Hi Hf).
    split; [destruct (find sid (status d)); reflexivity|].
    split; [destruct (find sid (status d)); simpl; split; congruence|].
    intros s Hs. destruct (find sid (status d)) as [x|] eqn:E; [|discriminate].
    injection Hs as <-. split; [|apply orHundred_truthy].
    simpl. clear -E. induction (status d) as [|a l IH]; [discriminate|].
    simpl in E. destruct (String.eqb (ServiceStatus.id a) sid) eqn:Ea.
    + injection E as <-. apply String.eqb_eq. exact Ea.
    + exact (IH E).
Qed.

(** *** The slave statuses *)



End StoreBehaviour.

Section StoreBehaviourWitnesses.
Import Storage Spec Behaviour.

Lemma uninitialized_store_rejects_witness :
  addService Sample.api (new "./data" 1000000 false None)
  = (inl notInitialized, new "./data" 1000000 false None).
Proof.
  apply (uninitialized_store_rejects (new "./data" 1000000 false None) None
           Sample.api "api" (Sample.statusAt 0 []) Example.slave).
  reflexivity.
Defined.

Lemma restart_restores_saved_state_witness :
  exists st',
    initialize (new "./data" 2000000 (dirExists Example.running)
                  (file Example.running)) = (inr tt, st')
    /\ data st' = stamp Sample.snapshot 1000000.
Proof.
  destruct (restart_restores_saved_state Sample.store Sample.snapshot
              "./data" 2000000 eq_refl eq_refl wellFormed_snapshot)
    as (st' & H1 & _ & H2 & _).
  exists st'. split; [exact H1 | exact H2].
Defined.


Lemma updated_status_is_answered_from_memory_witness :
  fst (getServiceStatus "api"
         (snd (updateServiceStatus "api" (Sample.statusAt 0 []) Example.running)))
  = inr (Some (withPercentages (Sample.statusAt 0 [])
                 (calculateUptimePercentages (Sample.statusAt 0 []) 1000000))).
Proof.
  assert (Hne : "gw" <> "api") by discriminate.
  destruct (updated_status_is_answered_from_memory Example.running
              (stamp Sample.snapshot 1000000) "api" "gw" (Sample.statusAt 0 [])
              eq_refl eq_refl eq_refl Hne) as (_ & H & _).
  exact H.
Defined.

Lemma file_readers_never_answer_a_falsy_30d_witness :
  exists r, loadServiceStatus "api" Example.running = (inr r, Example.running).
Proof.
  destruct (file_readers_never_answer_a_falsy_30d Example.running
              (stamp Sample.snapshot 1000000) "api" eq_refl eq_refl)
    as (_ & r & H & _).
  exists r. exact H.
Defined.



End StoreBehaviourWitnesses.

(* ===================================================================== *)
(** ** Further properties of the uptime percentages                       *)
(* ===================================================================== *)

Section PercentagesBehaviour.
Import Storage.

Lemma full_quotient_is_100 (a : Z) :
  a <> 0 ->
  Js.Math_max 0 (Js.Math_min 100 (Js.mulPos (Js.div (a - 0) a) 100)) = Js.Fin 100.
Proof.
  intros Ha. unfold Js.div.
  destruct (a =? 0) eqn:E; [apply Z.eqb_eq in E; contradiction|].
  simpl Js.mulPos. cbn [Js.Math_min].
  assert (Hq : (inject_Z (a - 0) / inject_Z a * 100 == 100)%Q).
  { rewrite Z.sub_0_r. field. intros H.
    apply Ha. apply (proj1 (inject_Z_injective a 0)). exact H. }
  replace (Qle_bool 100 (inject_Z (a - 0) / inject_Z a * 100)) with true.
  - reflexivity.
  - symmetry. apply Qle_bool_iff. rewrite Hq. apply Qle_refl.
Qed.

(** A service without a downtime period has 100 % uptime, over its
    lifetime and over the last 30 days, at every time other than the
    millisecond of its creation. *)
Theorem no_downtime_is_100_percent (service : ServiceStatus.t) (currentTime : Z) :
  ServiceStatus.downtimePeriods service = [] ->
  currentTime <> ServiceStatus.createdAt service ->
  calculateUptimePercentages service currentTime
  = {| total := Js.Fin 100; last30d := Js.Fin 100 |}.
Proof.
  intros Hp Hne. unfold calculateUptimePercentages, timeWindow30d.
  rewrite Hp. unfold totalDowntimeMs, recent30dDowntimeMs. cbn [List.filter fold_left].
  f_equal; apply full_quotient_is_100.
  - lia.
  - unfold thirtyDays. lia.
Qed.

Lemma recent30d_all_inside periods currentTime :
  Forall (fun p => currentTime - thirtyDays <= start p) periods ->
  recent30dDowntimeMs periods currentTime = totalDowntimeMs periods currentTime.
Proof.
  intros H. unfold recent30dDowntimeMs, totalDowntimeMs.
  generalize 0.
  induction H as [|p l Hp _ IH]; intros acc; [reflexivity|].
  cbn [List.filter].
  replace (start p >=? currentTime - thirtyDays) with true
    by (symmetry; rewrite Z.geb_leb; apply Z.leb_le; exact Hp).
  cbn [fold_left]. rewrite IH. f_equal. lia.
Qed.

(** For a service that is at most 30 days old and whose downtime
    periods all began after it was created, the 30-day percentage is the
    lifetime percentage. *)
Theorem young_service_percentages_agree (service : ServiceStatus.t)
  (currentTime : Z) :
  currentTime - thirtyDays <= ServiceStatus.createdAt service ->
  Forall (fun p => ServiceStatus.createdAt service <= start p)
         (ServiceStatus.downtimePeriods service) ->
  last30d (calculateUptimePercentages service currentTime)
  = total (calculateUptimePercentages service currentTime).
Proof.
  intros Hyoung Hafter. unfold calculateUptimePercentages. cbn [last30d total].
  rewrite recent30d_all_inside.
  - unfold timeWindow30d.
    replace (Z.min (currentTime - ServiceStatus.createdAt service)
               (currentTime - (currentTime - thirtyDays)))
      with (currentTime - ServiceStatus.createdAt service) by lia.
    reflexivity.
  - eapply Forall_impl; [exact Hafter|]. cbn beta. intros p Hp. lia.
Qed.

Lemma no_downtime_is_100_percent_witness :
  calculateUptimePercentages (Sample.statusAt 0 []) 1000000
  = {| total := Js.Fin 100; last30d := Js.Fin 100 |}.
Proof.
  apply no_downtime_is_100_percent; [reflexivity|discriminate].
Defined.

Lemma young_service_percentages_agree_witness :
  last30d (calculateUptimePercentages
             (Sample.statusAt 0 [Sample.recentOutage]) (20 * Sample.day))
  = total (calculateUptimePercentages
             (Sample.statusAt 0 [Sample.recentOutage]) (20 * Sample.day)).
Proof.
  apply young_service_percentages_agree.
  - vm_compute. discriminate.
  - repeat constructor. vm_compute. discriminate.
Defined.

End PercentagesBehaviour.

(* ===================================================================== *)
(** ** Further properties of the slave's scheduler                        *)
(* ===================================================================== *)

Section SchedulerBehaviour.
Import Slave Behaviour.
Variable schedules : Z -> bool.

Lemma lookup_snoc {A} (l : list A) x : (l ++ [x]) !! length l = Some x.
Proof. induction l as [|a l IH]; [reflexivity|exact IH]. Qed.

Lemma insert_snoc {A} (l : list A) x y : <[length l := y]> (l ++ [x]) = l ++ [y].
Proof. induction l as [|a l IH]; [reflexivity|]. simpl. f_equal. exact IH. Qed.

Lemma delete_snoc {A} (l : list A) x : delete (length l) (l ++ [x]) = l.
Proof. induction l as [|a l IH]; [reflexivity|]. simpl. f_equal. exact IH. Qed.

(** The three turns of an [addService], on the job it started. *)
Lemma check_settles_last m t c js rs o service result :
  serviceId result = id (base_of service) ->
  step schedules (mkState m t c (js ++ [Checking o service]) rs)
       (CheckSettles (length js) result)
  = Some (mkState m t c (js ++ [Reporting o service]) (rs ++ [result])).
Proof.
  intros H. unfold step. cbn [jobs monitor tasks cron reports].
  rewrite lookup_snoc, H, String.eqb_refl, insert_snoc. reflexivity.
Qed.

Lemma report_settles_last m t c js rs h service delivered :
  step schedules (mkState m t c (js ++ [Reporting (Initial h) service]) rs)
       (ReportSettles (length js) delivered)
  = Some (mkState m (if delivered then <[id (base_of service) := h]> t else t)
            c js rs).
Proof.
  unfold step. cbn [jobs monitor tasks cron reports].
  rewrite lookup_snoc, delete_snoc. reflexivity.
Qed.

Lemma run_add st s ls :
  run schedules st (CallAddService s :: ls)
  = run schedules (addService_enter schedules s st) ls.
Proof. reflexivity. Qed.

Lemma run_remove st sid ls :
  run schedules st (CallRemoveService sid :: ls)
  = run schedules (removeService sid st) ls.
Proof. reflexivity. Qed.

Lemma run_step st l ls st1 :
  step schedules st l = Some st1 -> run schedules st (l :: ls) = run schedules st1 ls.
Proof. intros H. cbn [run]. rewrite H. reflexivity. Qed.

Lemma initial_handlesScheduled : handlesScheduled initial.
Proof.
  split; simpl.
  - intros k h H. rewrite lookup_empty in H. discriminate.
  - constructor.
Qed.

Lemma step_handlesScheduled st l st' :
  handlesScheduled st -> step schedules st l = Some st' -> handlesScheduled st'.
Proof.
  intros (Ht & Hj) Hstep.
  destruct l as [s|h|n r|n b|j]; simpl in Hstep.
  - injection Hstep as <-. unfold addService_enter.
    destruct (schedules (interval (base_of s))); [|split; [exact Ht|exact Hj]].
    split; simpl.
    + intros k h Hk. rewrite length_app. simpl. specialize (Ht k h Hk). lia.
    + apply Forall_app. split.
      * eapply Forall_impl; [exact Hj|]. cbn beta. intros j H h Ho.
        rewrite length_app. specialize (H h Ho). simpl. lia.
      * constructor; [|constructor]. simpl. intros h Ho. injection Ho as <-.
        rewrite length_app. simpl. lia.
  - destruct (cron st !! h) as [t|] eqn:El; [|discriminate].
    destruct (running t); [|discriminate].
    injection Hstep as <-. split; simpl; [exact Ht|].
    apply Forall_app. split; [exact Hj|].
    constructor; [|constructor]. simpl. intros h' Ho. discriminate.
  - destruct (jobs st !! n) as [[o s|o s]|] eqn:Ej; try discriminate.
    destruct (String.eqb (serviceId r) (id (base_of s))); [|discriminate].
    injection Hstep as <-. split; simpl; [exact Ht|].
    apply Forall_insert; [exact Hj|].
    exact (Forall_lookup_1 _ _ _ _ Hj Ej).
  - destruct (jobs st !! n) as [[o s|o s]|] eqn:Ej; try discriminate.
    pose proof (Forall_lookup_1 _ _ _ _ Hj Ej) as H. simpl in H.
    destruct o as [|h]; injection Hstep as <-; split; simpl.
    + exact Ht.
    + apply Forall_delete. exact Hj.
    + intros k h' Hk. destruct b; [|exact (Ht k h' Hk)].
      apply lookup_insert_Some in Hk as [(_ & <-)|(_ & Hk)];
        [apply H; reflexivity|exact (Ht k h' Hk)].
    + apply Forall_delete. exact Hj.
  - injection Hstep as <-. unfold removeService.
    destruct (tasks st !! j) as [h0|] eqn:E; split; simpl.
    + intros k h Hk. rewrite length_alter.
      apply lookup_delete_Some in Hk as (_ & Hk). exact (Ht k h Hk).
    + rewrite length_alter. exact Hj.
    + exact Ht.
    + exact Hj.
Qed.

Lemma run_handlesScheduled ls :
  forall st st',
    handlesScheduled st -> run schedules st ls = Some st' -> handlesScheduled st'.
Proof.
  induction ls as [|l ls IH]; intros st st' H Hrun; simpl in Hrun.
  - injection Hrun as <-. exact H.
  - destruct (step schedules st l) as [st1|] eqn:Es; [|discriminate].
    exact (IH st1 st' (step_handlesScheduled st l st1 H Es) Hrun).
Qed.

Lemma step_orphaned h service st l st' :
  orphaned h service st -> step schedules st l = Some st' -> orphaned h service st'.
Proof.
  intros (Hc & Ht & Hj) Hstep.
  pose proof (lookup_lt_Some _ _ _ Hc) as Hlt.
  destruct l as [s|h1|n r|n b|j]; simpl in Hstep.
  - injection Hstep as <-. unfold addService_enter.
    destruct (schedules (interval (base_of s)));
      [|split; [exact Hc|split; [exact Ht|exact Hj]]].
    split; [|split]; simpl.
    + apply lookup_app_l_Some. exact Hc.
    + exact Ht.
    + apply Forall_app. split; [exact Hj|].
      constructor; [|constructor]. simpl. intros Ho. injection Ho as Ho. lia.
  - destruct (cron st !! h1) as [t|] eqn:El; [|discriminate].
    destruct (running t); [|discriminate].
    injection Hstep as <-. split; [|split]; simpl; [exact Hc|exact Ht|].
    apply Forall_app. split; [exact Hj|].
    constructor; [|constructor]. simpl. discriminate.
  - destruct (jobs st !! n) as [[o s|o s]|] eqn:Ej; try discriminate.
    destruct (String.eqb (serviceId r) (id (base_of s))); [|discriminate].
    injection Hstep as <-. split; [|split]; simpl; [exact Hc|exact Ht|].
    apply Forall_insert; [exact Hj|].
    exact (Forall_lookup_1 _ _ _ _ Hj Ej).
  - destruct (jobs st !! n) as [[o s|o s]|] eqn:Ej; try discriminate.
    pose proof (Forall_lookup_1 _ _ _ _ Hj Ej) as H. simpl in H.
    destruct o as [|h1]; injection Hstep as <-; (split; [|split]); simpl;
      try exact Hc; try exact Ht; try (apply Forall_delete; exact Hj).
    intros k Hk. destruct b; [|exact (Ht k Hk)].
    apply lookup_insert_Some in Hk as [(_ & Hk)|(_ & Hk)];
      [apply H; congruence|exact (Ht k Hk)].
  - injection Hstep as <-. unfold removeService.
    destruct (tasks st !! j) as [h0|] eqn:E; (split; [|split]); simpl;
      try exact Hc; try exact Ht; try exact Hj.
    + rewrite list_lookup_alter_ne; [exact Hc|].
      intros ->. exact (Ht j E).
    + intros k Hk. apply lookup_delete_Some in Hk as (_ & Hk). exact (Ht k Hk).
Qed.

Lemma run_orphaned h service ls :
  forall st st',
    orphaned h service st -> run schedules st ls = Some st' ->
    orphaned h service st'.
Proof.
  induction ls as [|l ls IH]; intros st st' H Hrun; simpl in Hrun.
  - injection Hrun as <-. exact H.
  - destruct (step schedules st l) as [st1|] eqn:Es; [|discriminate].
    exact (IH st1 st' (step_orphaned h service st l st1 H Es) Hrun).
Qed.

(** When the first report of a service cannot be delivered,
    [addService] rejects before it has put the task into [this.tasks]. The
    task, which [cron.schedule] accepted, was scheduled all the same: it
    goes on firing whatever the slave is asked to do afterwards, and no
    [removeService] can stop it, since no key of [this.tasks] leads to
    it. *)
Theorem undelivered_first_report_orphans_the_task (before : list Label)
  (st : State) (service : ServiceConfig) (result : MonitoringResult) :
  run schedules initial before = Some st ->
  schedules (interval (base_of service)) = true ->
  serviceId result = id (base_of service) ->
  let job := length (jobs st) in
  let handle := length (cron st) in
  exists st1,
    run schedules st [CallAddService service; CheckSettles job result;
            ReportSettles job false] = Some st1
    /\ tasks st1 = tasks st
    /\ forall after st',
         run schedules st1 after = Some st' ->
         cron st' !! handle = Some {| service := service; running := true |}
         /\ step schedules st' (CronTick handle) <> None
         /\ forall k, tasks st' !! k <> Some handle.
Proof.
  intros Hreach Hs Hres job handle.
  pose proof (run_handlesScheduled before initial st
                initial_handlesScheduled Hreach) as (Ht & Hj).
  destruct st as [m t c js rs].
  cbn [jobs monitor tasks cron reports] in *. subst job handle.
  rewrite run_add. unfold addService_enter. rewrite Hs.
  cbn [jobs monitor tasks cron reports].
  rewrite (run_step _ _ _ _ (check_settles_last _ _ _ _ _ _ _ _ Hres)).
  rewrite (run_step _ _ _ _ (report_settles_last _ _ _ _ _ _ _ _)).
  eexists. split; [reflexivity|]. split; [reflexivity|].
  intros after st' Hrun.
  assert (Ho : orphaned (length c) service
                 (mkState (<[id (base_of service) := service]> m) t
                    (c ++ [{| service := service; running := true |}]) js
                    (rs ++ [result]))).
  { split; [|split]; simpl.
    - apply lookup_snoc.
    - intros k Hk. specialize (Ht k _ Hk). lia.
    - eapply Forall_impl; [exact Hj|]. cbn beta. intros j H Ho.
      specialize (H _ Ho). lia. }
  destruct (run_orphaned _ _ after _ st' Ho Hrun) as (Hc & Ht' & _).
  split; [exact Hc|]. split; [|exact Ht'].
  simpl. rewrite Hc. simpl. discriminate.
Qed.

(** [removeService] called while the initial check of [addService] is
    under way finds no task to stop: the task, which [cron.schedule]
    accepted, keeps running, and when [addService] resumes it puts the
    task into [this.tasks]. The slave then checks and reports a service
    its monitor no longer lists. *)
Theorem removal_during_the_initial_check_is_undone (before : list Label)
  (st : State) (service : ServiceConfig) (result : MonitoringResult) :
  run schedules initial before = Some st ->
  schedules (interval (base_of service)) = true ->
  serviceId result = id (base_of service) ->
  let job := length (jobs st) in
  let handle := length (cron st) in
  exists st',
    run schedules st [CallAddService service;
            CallRemoveService (id (base_of service));
            CheckSettles job result;
            ReportSettles job true] = Some st'
    /\ monitor st' !! id (base_of service) = None
    /\ tasks st' !! id (base_of service) = Some handle
    /\ cron st' !! handle = Some {| service := service; running := true |}
    /\ reports st' = reports st ++ [result].
Proof.
  intros Hreach Hs Hres job handle.
  pose proof (run_handlesScheduled before initial st
                initial_handlesScheduled Hreach) as (Ht & Hj).
  destruct st as [m t c js rs].
  cbn [jobs monitor tasks cron reports] in *. subst job handle.
  rewrite run_add, run_remove.
  unfold addService_enter, removeService. rewrite Hs.
  cbn [jobs monitor tasks cron reports].
  destruct (t !! id (base_of service)) as [old|] eqn:E.
  - rewrite (run_step _ _ _ _ (check_settles_last _ _ _ _ _ _ _ _ Hres)).
    rewrite (run_step _ _ _ _ (report_settles_last _ _ _ _ _ _ _ _)).
    eexists. split; [reflexivity|]. simpl.
    split; [apply lookup_delete_eq|].
    split; [apply lookup_insert_eq|].
    split; [|reflexivity].
    rewrite list_lookup_alter_ne; [apply lookup_snoc|].
    specialize (Ht _ _ E). lia.
  - rewrite (run_step _ _ _ _ (check_settles_last _ _ _ _ _ _ _ _ Hres)).
    rewrite (run_step _ _ _ _ (report_settles_last _ _ _ _ _ _ _ _)).
    eexists. split; [reflexivity|]. simpl.
    split; [apply lookup_delete_eq|].
    split; [apply lookup_insert_eq|].
    split; [apply lookup_snoc|reflexivity].
Qed.

(** [addService] for an id that is already registered, with schedules
    that [cron.schedule] accepts, schedules a second task and overwrites
    the entry of [this.tasks]. The first task is lost from sight: it goes
    on firing whatever happens afterwards, and [removeService] stops the
    second task only. *)
Theorem adding_a_service_twice_orphans_the_first_task (before : list Label)
  (st : State) (s1 s2 : ServiceConfig) (r1 r2 : MonitoringResult) :
  run schedules initial before = Some st ->
  schedules (interval (base_of s1)) = true ->
  schedules (interval (base_of s2)) = true ->
  id (base_of s2) = id (base_of s1) ->
  serviceId r1 = id (base_of s1) ->
  serviceId r2 = id (base_of s1) ->
  let job := length (jobs st) in
  let handle := length (cron st) in
  exists st2,
    run schedules st [CallAddService s1; CheckSettles job r1; ReportSettles job true;
            CallAddService s2; CheckSettles job r2; ReportSettles job true]
    = Some st2
    /\ tasks st2 !! id (base_of s1) = Some (Datatypes.S handle)
    /\ forall after st',
         run schedules st2 after = Some st' ->
         cron st' !! handle = Some {| service := s1; running := true |}
         /\ step schedules st' (CronTick handle) <> None
         /\ forall k, tasks st' !! k <> Some handle.
Proof.
  intros Hreach Hs1 Hs2 Hid Hr1 Hr2 job handle.
  pose proof (run_handlesScheduled before initial st
                initial_handlesScheduled Hreach) as (Ht & Hj).
  destruct st as [m t c js rs].
  cbn [jobs monitor tasks cron reports] in *. subst job handle.
  rewrite run_add. unfold addService_enter. rewrite Hs1.
  cbn [jobs monitor tasks cron reports].
  rewrite (run_step _ _ _ _ (check_settles_last _ _ _ _ _ _ _ _ Hr1)).
  rewrite (run_step _ _ _ _ (report_settles_last _ _ _ _ _ _ _ _)).
  rewrite run_add. unfold addService_enter. rewrite Hs2.
  cbn [jobs monitor tasks cron reports].
  rewrite <- Hid in Hr2.
  rewrite (run_step _ _ _ _ (check_settles_last _ _ _ _ _ _ _ _ Hr2)).
  rewrite (run_step _ _ _ _ (report_settles_last _ _ _ _ _ _ _ _)).
  rewrite length_app. simpl length.
  replace (length c + 1)%nat with (Datatypes.S (length c)) by lia.
  eexists. split; [reflexivity|]. simpl.
  split; [rewrite Hid; apply lookup_insert_eq|].
  intros after st' Hrun.
  match type of Hrun with
  | run schedules ?st2 _ = _ => assert (Ho : orphaned (length c) s1 st2)
  end.
  { split; [|split]; simpl.
    - apply lookup_app_l_Some. apply lookup_snoc.
    - intros k Hk. rewrite Hid in Hk.
      apply lookup_insert_Some in Hk as [(_ & Hk)|(Hne & Hk)]; [lia|].
      apply lookup_insert_Some in Hk as [(Heq & _)|(_ & Hk)]; [congruence|].
      specialize (Ht k _ Hk). lia.
    - eapply Forall_impl; [exact Hj|]. cbn beta. intros j H Ho.
      specialize (H _ Ho). lia. }
  destruct (run_orphaned _ _ after _ st' Ho Hrun) as (Hc & Ht' & _).
  split; [exact Hc|]. split; [|exact Ht'].
  simpl. rewrite Hc. simpl. discriminate.
Qed.

(** *** What the slave reports on *)

Lemma accountedFor_mono A B st : accountedFor A st -> accountedFor (A ++ B) st.
Proof.
  intros (Hc & Hj & Hr). split; [|split].
  - eapply Forall_impl; [exact Hc|]. cbn beta. intros t H.
    apply in_or_app. left. exact H.
  - eapply Forall_impl; [exact Hj|]. cbn beta. intros j H.
    apply in_or_app. left. exact H.
  - eapply Forall_impl; [exact Hr|]. cbn beta. intros r (s & Hin & Hid).
    exists s. split; [apply in_or_app; left; exact Hin|exact Hid].
Qed.

Lemma step_accountedFor A st l st' :
  accountedFor A st -> step schedules st l = Some st' ->
  accountedFor (A ++ addedBy [l]) st'.
Proof.
  intros Hacc Hstep.
  destruct l as [s|h|n r|n b|j]; simpl in Hstep; cbn [addedBy flat_map];
    rewrite ?app_nil_r.
  - injection Hstep as <-.
    destruct (accountedFor_mono A [s] st Hacc) as (Hc & Hj & Hr).
    unfold addService_enter.
    destruct (schedules (interval (base_of s)));
      [|split; [exact Hc|split; [exact Hj|exact Hr]]].
    split; [|split]; simpl.
    + apply Forall_app. split; [exact Hc|].
      constructor; [|constructor]. simpl. apply in_or_app. right. left. reflexivity.
    + apply Forall_app. split; [exact Hj|].
      constructor; [|constructor]. simpl. apply in_or_app. right. left. reflexivity.
    + exact Hr.
  - destruct Hacc as (Hc & Hj & Hr).
    destruct (cron st !! h) as [t|] eqn:El; [|discriminate].
    destruct (running t); [|discriminate].
    injection Hstep as <-. split; [|split]; simpl; [exact Hc| |exact Hr].
    apply Forall_app. split; [exact Hj|].
    constructor; [|constructor]. simpl. exact (Forall_lookup_1 _ _ _ _ Hc El).
  - destruct Hacc as (Hc & Hj & Hr).
    destruct (jobs st !! n) as [[o s|o s]|] eqn:Ej; try discriminate.
    destruct (String.eqb (serviceId r) (id (base_of s))) eqn:Er; [|discriminate].
    apply String.eqb_eq in Er.
    pose proof (Forall_lookup_1 _ _ _ _ Hj Ej) as H. simpl in H.
    injection Hstep as <-. split; [|split]; simpl; [exact Hc| |].
    + apply Forall_insert; [exact Hj|exact H].
    + apply Forall_app. split; [exact Hr|].
      constructor; [|constructor]. exists s. split; [exact H|congruence].
  - destruct Hacc as (Hc & Hj & Hr).
    destruct (jobs st !! n) as [[o s|o s]|] eqn:Ej; try discriminate.
    destruct o as [|h]; injection Hstep as <-; (split; [|split]); simpl;
      try exact Hc; try exact Hr; apply Forall_delete; exact Hj.
  - destruct Hacc as (Hc & Hj & Hr).
    injection Hstep as <-. unfold removeService.
    destruct (tasks st !! j) as [h0|]; (split; [|split]); simpl;
      try exact Hc; try exact Hj; try exact Hr.
    apply Forall_alter; [exact Hc|]. intros t _ H. exact H.
Qed.

Lemma run_accountedFor ls :
  forall A st st',
    accountedFor A st -> run schedules st ls = Some st' ->
    accountedFor (A ++ addedBy ls) st'.
Proof.
  induction ls as [|l ls IH]; intros A st st' H Hrun; simpl in Hrun.
  - injection Hrun as <-. simpl. rewrite app_nil_r. exact H.
  - destruct (step schedules st l) as [st1|] eqn:Es; [|discriminate].
    pose proof (IH _ st1 st' (step_accountedFor A st l st1 H Es) Hrun) as H'.
    replace (addedBy (l :: ls)) with (addedBy [l] ++ addedBy ls)
      by (unfold addedBy; simpl; rewrite app_nil_r; reflexivity).
    rewrite app_assoc. exact H'.
Qed.

(** Whatever the slave is asked to do, every report it sends is for the
    id of a service it was asked to add: a check resolves with a result
    for its own service, and a check is started only by [addService] or by
    a task that [addService] scheduled. *)
Theorem reports_only_on_added_services (ls : list Label) (st : State) :
  run schedules initial ls = Some st ->
  Forall (reportsOn (addedBy ls)) (reports st).
Proof.
  intros Hrun.
  assert (H0 : accountedFor [] initial) by (repeat split; constructor).
  destruct (run_accountedFor ls [] initial st H0 Hrun) as (_ & _ & Hr).
  exact Hr.
Qed.

End SchedulerBehaviour.

Section SchedulerBehaviourWitnesses.
Import Slave Behaviour.

Lemma undelivered_first_report_orphans_the_task_witness :
  exists st1,
    Slave.run Sample.schedules Sample.busy [CallAddService Sample.api;
                     CheckSettles 1 Example.apiDown;
                     ReportSettles 1 false] = Some st1
    /\ tasks st1 = tasks Sample.busy.
Proof.
  destruct (undelivered_first_report_orphans_the_task Sample.schedules
              Sample.checking Sample.busy Sample.api Example.apiDown
              busy_reachable eq_refl eq_refl)
    as (st1 & H1 & H2 & _).
  exists st1. split; [exact H1|exact H2].
Defined.

Lemma removal_during_the_initial_check_is_undone_witness :
  exists st',
    Slave.run Sample.schedules Sample.busy [CallAddService Sample.api;
                     CallRemoveService "api";
                     CheckSettles 1 Example.apiDown;
                     ReportSettles 1 true] = Some st'
    /\ monitor st' !! "api" = None
    /\ tasks st' !! "api" = Some 1%nat.
Proof.
  destruct (removal_during_the_initial_check_is_undone Sample.schedules
              Sample.checking Sample.busy Sample.api Example.apiDown
              busy_reachable eq_refl eq_refl)
    as (st' & H1 & H2 & H3 & _).
  exists st'. split; [exact H1|]. split; [exact H2|exact H3].
Defined.

Lemma adding_a_service_twice_orphans_the_first_task_witness :
  exists st2,
    Slave.run Sample.schedules Sample.busy [CallAddService Sample.api;
                     CheckSettles 1 Example.apiDown;
                     ReportSettles 1 true;
                     CallAddService Sample.api;
                     CheckSettles 1 Example.apiDown;
                     ReportSettles 1 true] = Some st2
    /\ tasks st2 !! "api" = Some 2%nat.
Proof.
  destruct (adding_a_service_twice_orphans_the_first_task Sample.schedules
              Sample.checking Sample.busy Sample.api Sample.api
              Example.apiDown Example.apiDown
              busy_reachable eq_refl eq_refl eq_refl eq_refl eq_refl)
    as (st2 & H1 & H2 & _).
  exists st2. split; [exact H1|exact H2].
Defined.

Lemma reports_only_on_added_services_witness :
  Forall (reportsOn (addedBy Sample.checking)) (reports Sample.busy).
Proof.
  exact (reports_only_on_added_services Sample.schedules Sample.checking
           Sample.busy busy_reachable).
Defined.

End SchedulerBehaviourWitnesses.

(* ===================================================================== *)
(** ** Further properties of the monitor's registry and of the routes     *)
(* ===================================================================== *)

Section RegistryBehaviour.
Import Registry.

Lemma keys_set key value m :
  List.map fst (set key value m)
  = match get key m with
    | Some _ => List.map fst m
    | None => List.map fst m ++ [key]
    end.
Proof.
  induction m as [|[k v] m IH]; simpl; [reflexivity|].
  destruct (String.eqb k key) eqn:E; simpl; [reflexivity|].
  rewrite IH. destruct (get key m); reflexivity.
Qed.

Lemma get_None_notin key m : get key m = None -> ~ In key (List.map fst m).
Proof.
  induction m as [|[k v] m IH]; simpl; intros H; [tauto|].
  destruct (String.eqb k key) eqn:E; [discriminate|].
  apply String.eqb_neq in E. intros [Hk|Hin]; [contradiction|exact (IH H Hin)].
Qed.

Lemma get_set_eq key value m : get key (set key value m) = Some value.
Proof.
  induction m as [|[k v] m IH]; simpl.
  - rewrite String.eqb_refl. reflexivity.
  - destruct (String.eqb k key) eqn:E; simpl; rewrite E; [reflexivity|exact IH].
Qed.

Lemma get_set_ne key other value m :
  other <> key -> get other (set key value m) = get other m.
Proof.
  intros Hne.
  assert (Hf : String.eqb key other = false) by (apply String.eqb_neq; congruence).
  induction m as [|[k v] m IH]; simpl.
  - rewrite Hf. reflexivity.
  - destruct (String.eqb k key) eqn:E; simpl.
    + apply String.eqb_eq in E. subst k. rewrite Hf. reflexivity.
    + destruct (String.eqb k other); [reflexivity|exact IH].
Qed.

Lemma NoDup_keys_set key value m :
  List.NoDup (List.map fst m) -> List.NoDup (List.map fst (set key value m)).
Proof.
  intros H. rewrite keys_set. destruct (get key m) eqn:E; [exact H|].
  pose proof (get_None_notin key m E) as Hn.
  clear E. induction (List.map fst m) as [|a l IH]; simpl.
  - constructor; [intros []|constructor].
  - inversion H as [|? ? Ha Hl]; subst. constructor.
    + intros Hin. apply in_app_or in Hin as [Hin|[<-|[]]]; [contradiction|].
      apply Hn. left. reflexivity.
    + apply IH; [exact Hl|]. intros Hin. apply Hn. right. exact Hin.
Qed.

Lemma NoDup_keys_delete key m :
  List.NoDup (List.map fst m) -> List.NoDup (List.map fst (delete key m)).
Proof.
  unfold delete. induction m as [|[k v] m IH]; simpl; intros H; [exact H|].
  inversion H as [|? ? Ha Hl]; subst.
  destruct (negb (String.eqb k key)); simpl; [|exact (IH Hl)].
  constructor; [|exact (IH Hl)].
  intros Hin. apply Ha. clear -Hin.
  induction m as [|[k' v'] m IHm]; simpl in *; [exact Hin|].
  destruct (negb (String.eqb k' key)); simpl in *; [|right; exact (IHm Hin)].
  destruct Hin as [Hin|Hin]; [left; exact Hin|right; exact (IHm Hin)].
Qed.

Lemma keyed_set service m :
  Forall (fun e => fst e = id (base_of (snd e))) m ->
  Forall (fun e => fst e = id (base_of (snd e)))
         (set (id (base_of service)) service m).
Proof.
  induction 1 as [|[k v] m Hk Hm IH]; simpl.
  - constructor; [reflexivity|constructor].
  - destruct (String.eqb k (id (base_of service))) eqn:E.
    + apply String.eqb_eq in E. constructor; [exact E|exact Hm].
    + constructor; [exact Hk|exact IH].
Qed.

Lemma keyed_delete key m :
  Forall (fun e => fst e = id (base_of (snd e))) m ->
  Forall (fun e => fst e = id (base_of (snd e))) (delete key m).
Proof.
  unfold delete. induction 1 as [|[k v] m Hk _ IH]; simpl; [constructor|].
  destruct (negb (String.eqb k key)); [constructor; [exact Hk|exact IH]|exact IH].
Qed.

Lemma get_of_entry k v m :
  List.NoDup (List.map fst m) -> In (k, v) m -> get k m = Some v.
Proof.
  induction m as [|[k' v'] m IH]; simpl; intros Hnd Hin; [contradiction|].
  inversion Hnd as [|? ? Ha Hl]; subst.
  destruct Hin as [Heq|Hin].
  - injection Heq as -> ->. rewrite String.eqb_refl. reflexivity.
  - destruct (String.eqb k' k) eqn:E; [|exact (IH Hl Hin)].
    apply String.eqb_eq in E. subst k'. exfalso. apply Ha.
    apply (in_map fst) in Hin. exact Hin.
Qed.

Lemma calls_keep_one_entry_per_id calls :
  forall m,
    List.NoDup (List.map fst m) ->
    Forall (fun e => fst e = id (base_of (snd e))) m ->
    List.NoDup (List.map fst (fold_left call calls m))
    /\ Forall (fun e => fst e = id (base_of (snd e))) (fold_left call calls m).
Proof.
  induction calls as [|c calls IH]; intros m Hnd Hk; [split; assumption|].
  cbn [fold_left]. apply IH; destruct c as [s|sid|]; simpl.
  - apply NoDup_keys_set. exact Hnd.
  - apply NoDup_keys_delete. exact Hnd.
  - constructor.
  - apply keyed_set. exact Hk.
  - apply keyed_delete. exact Hk.
  - constructor.
Qed.

(** Whatever calls are made on a monitor, [getServices] lists no id
    twice, and the configuration it lists for an id is the one the map
    holds under that id. *)
Theorem monitor_lists_each_id_once (calls : list Call) :
  let m := fold_left call calls empty in
  List.NoDup (List.map (fun s => id (base_of s)) (getServices m))
  /\ forall s, In s (getServices m) -> get (id (base_of s)) m = Some s.
Proof.
  intros m.
  assert (H0 : List.NoDup (List.map fst empty)) by constructor.
  assert (H1 : Forall (fun e => fst e = id (base_of (snd e))) empty) by constructor.
  destruct (calls_keep_one_entry_per_id calls empty H0 H1) as (Hnd & Hk).
  fold m in Hnd, Hk. split.
  - unfold getServices. rewrite List.map_map.
    replace (List.map (fun e => id (base_of (snd e))) m) with (List.map fst m);
      [exact Hnd|].
    clear Hnd. induction Hk as [|e l He _ IH]; simpl; [reflexivity|].
    rewrite He at 1. f_equal. exact IH.
  - intros s Hin. unfold getServices in Hin.
    apply in_map_iff in Hin as ([k v] & Hs & Hin). simpl in Hs. subst v.
    pose proof (proj1 (List.Forall_forall _ _) Hk (k, s) Hin) as Hks. simpl in Hks.
    rewrite <- Hks. exact (get_of_entry k s m Hnd Hin).
Qed.

(** Re-adding an id replaces its configuration where it stands; removal
    forgets the id; neither touches another id. *)
Theorem addService_replaces_removeService_forgets (service : ServiceConfig)
  (other : string) (m : t) :
  other <> id (base_of service) ->
  get (id (base_of service)) (addService service m) = Some service
  /\ get other (addService service m) = get other m
  /\ get (id (base_of service)) (removeService (id (base_of service)) m) = None
  /\ get other (removeService (id (base_of service)) m) = get other m
  /\ length (getServices (addService service m))
     = match get (id (base_of service)) m with
       | Some _ => length (getServices m)
       | None => Datatypes.S (length (getServices m))
       end.
Proof.
  intros Hne. unfold addService, removeService, getServices.
  split; [apply get_set_eq|].
  split; [apply get_set_ne; exact Hne|].
  split; [|split].
  - unfold delete. induction m as [|[k v] m IH]; simpl; [reflexivity|].
    destruct (String.eqb k (id (base_of service))) eqn:E; simpl;
      [exact IH|rewrite E; exact IH].
  - unfold delete. induction m as [|[k v] m IH]; simpl; [reflexivity|].
    destruct (String.eqb k (id (base_of service))) eqn:E; simpl.
    + apply String.eqb_eq in E. subst k.
      replace (String.eqb (id (base_of service)) other) with false; [exact IH|].
      symmetry. apply String.eqb_neq. congruence.
    + destruct (String.eqb k other); [reflexivity|exact IH].
  - rewrite !length_map.
    induction m as [|[k v] m IH]; simpl; [reflexivity|].
    destruct (String.eqb k (id (base_of service))) eqn:E; simpl; [reflexivity|].
    rewrite IH. destruct (get (id (base_of service)) m); reflexivity.
Qed.

Lemma addService_replaces_removeService_forgets_witness :
  get "api" (addService Sample.api (addService Sample.gateway empty))
  = Some Sample.api.
Proof.
  assert (Hne : "gw" <> id (base_of Sample.api)) by discriminate.
  destruct (addService_replaces_removeService_forgets Sample.api "gw"
              (addService Sample.gateway empty) Hne) as (H & _).
  exact H.
Defined.

End RegistryBehaviour.

Section RoutesBehaviour.
Import Api.

(** [POST /service] hands on a body exactly when the target its type
    needs is there and not empty: the URL of an HTTP service or the host
    of an ICMP service. The service it hands on has the type and the base
    fields of the body, and an HTTP service is fetched at a non-empty
    URL. The interval and the timeout are not looked at. *)
Theorem postService_accepts_iff_target_given (body : Body.t) :
  let target := match Body.type body with
                | http => Body.url body
                | icmp => Body.host body
                end in
  match postService body with
  | inr service =>
    missing target = false
    /\ type_of service = Body.type body
    /\ base_of service = baseOf body
    /\ (Body.type body = http -> Monitor1.fetchTarget service <> "")
  | inl e =>
    missing target = true
    /\ Js.message e = match Body.type body with
                      | http => "URL is required for HTTP services"
                      | icmp => "Host is required for ICMP services"
                      end
  end.
Proof.
  unfold postService, missing. destruct (Body.type body).
  - destruct (Body.url body) as [u|]; [|split; reflexivity].
    destruct u; simpl; repeat split; try reflexivity. discriminate.
  - destruct (Body.host body) as [h|]; [|split; reflexivity].
    destruct h; simpl; repeat split; try reflexivity. discriminate.
Qed.

(** The heartbeat tells the master how many services the slave
    monitors and not which: [X-Slave-Services] holds the indices of the
    list of services, so two slaves with as many services send the same
    headers. *)
Theorem heartbeat_names_no_service (config : SlaveConfig.t)
  (services services' : list ServiceConfig) :
  length services = length services' ->
  heartbeatHeaders config services = heartbeatHeaders config services'
  /\ header "X-Slave-Services" (heartbeatHeaders config services)
     = Some (stringifyIndices (seq 0 (length services))).
Proof.
  intros H. unfold heartbeatHeaders, keys. rewrite H. split; reflexivity.
Qed.

Lemma heartbeat_names_no_service_witness :
  header "X-Slave-Services"
    (heartbeatHeaders Example.slaveConfig [Sample.api; Sample.gateway])
  = Some "[0,1]".
Proof.
  destruct (heartbeat_names_no_service Example.slaveConfig
              [Sample.api; Sample.gateway] [Sample.gateway; Sample.api] eq_refl)
    as (_ & H).
  exact H.
Defined.

End RoutesBehaviour.

(* ===================================================================== *)
(** ** Further properties of StateStorage                                 *)
(* ===================================================================== *)

Section StateStorageBehaviour.
Import StateStorage.
Open Scope state_storage_scope.

Lemma loadState_stored st s :
  file st = Some (Stored s) ->
  loadState st
  = (inr (Some s), {| dirExists := true; file := file st; writes := writes st |}).
Proof.
  intros Hf. unfold loadState, try_catch, bind, mkdir, readFile. simpl.
  rewrite Hf. reflexivity.
Qed.

Lemma loadState_missing_file st :
  file st = None ->
  loadState st
  = (inr None, {| dirExists := true; file := None; writes := writes st |}).
Proof.
  intros Hf. unfold loadState, try_catch, bind, mkdir, readFile. simpl.
  rewrite Hf. reflexivity.
Qed.

Lemma loadState_corrupt_file st :
  file st = Some Corrupt ->
  loadState st
  = (inl Js.SyntaxError,
     {| dirExists := true; file := Some Corrupt; writes := writes st |}).
Proof.
  intros Hf. unfold loadState, try_catch, bind, mkdir, readFile. simpl.
  rewrite Hf. reflexivity.
Qed.

(** What [loadState() || { services: {}, slaves: {} }] is on a state
    file that is missing or parses. *)
Lemma loadState_orEmpty st :
  file st <> Some Corrupt ->
  exists loaded,
    loadState st
    = (inr loaded, {| dirExists := true; file := file st; writes := writes st |})
    /\ (forall s, file st = Some (Stored s) -> orEmpty loaded = s)
    /\ (file st = None -> orEmpty loaded = {| services := ∅; slaves := ∅ |}).
Proof.
  intros Hc. destruct (file st) as [[|s]|] eqn:Hf; [congruence| |].
  - exists (Some s). rewrite (loadState_stored st s Hf), Hf.
    split; [reflexivity|]. split; [|discriminate].
    intros s' H. injection H as <-. reflexivity.
  - exists None. rewrite (loadState_missing_file st Hf).
    split; [reflexivity|]. split; [discriminate|reflexivity].
Qed.


(** While the state file does not parse, nothing can be stored or
    read: every method rejects with the error of [JSON.parse], and the
    file is left as it is. *)
Theorem corrupt_state_file_blocks_every_update (st : State) (id : string)
  (status : ServiceStatus.t) (slave : SlaveEntry) :
  file st = Some Corrupt ->
  let st' := {| dirExists := true; file := Some Corrupt; writes := writes st |} in
  loadState st = (inl Js.SyntaxError, st')
  /\ updateServiceStatus id status st = (inl Js.SyntaxError, st')
  /\ updateSlaveStatus id slave st = (inl Js.SyntaxError, st')
  /\ getServiceStatus id st = (inl Js.SyntaxError, st').
Proof.
  intros Hf st'. subst st'.
  pose proof (loadState_corrupt_file st Hf) as Hl.
  split; [exact Hl|].
  unfold updateServiceStatus, updateSlaveStatus, getServiceStatus, bind.
  rewrite Hl. repeat split.
Qed.

(** A status stored under the id [__proto__] is lost, unless the state
    file already has an entry of that name: the assignment changes the
    prototype of the map of services and adds no entry, the file is
    written without the status, and reading the id back yields
    [Object.prototype] in place of a status. *)
Theorem status_with_id_proto_is_lost (st : State) (status : ServiceStatus.t) :
  file st <> Some Corrupt ->
  (forall s, file st = Some (Stored s) -> services s !! "__proto__" = None) ->
  exists st' loaded,
    loadState st
    = (inr loaded, {| dirExists := true; file := file st; writes := writes st |})
    /\ updateServiceStatus "__proto__" status st = (inr tt, st')
    /\ file st' = Some (JSON_stringify (orEmpty loaded))
    /\ getServiceStatus "__proto__" st' = (inr (Some (Inherited "__proto__")), st').
Proof.
  intros Hc Hown.
  destruct (loadState_orEmpty st Hc) as (loaded & Hl & Hs & Hn).
  assert (Hnone : services (orEmpty loaded) !! "__proto__" = None).
  { destruct (file st) as [[|s]|] eqn:Hf; [congruence| |].
    - rewrite (Hs s eq_refl). exact (Hown s eq_refl).
    - rewrite (Hn eq_refl). apply lookup_empty. }
  unfold updateServiceStatus, bind at 1. rewrite Hl.
  unfold saveState, bind, mkdir, writeFile. simpl.
  unfold assign. rewrite Hnone. simpl.
  eexists. exists loaded. split; [reflexivity|]. split; [reflexivity|].
  split; [destruct (orEmpty loaded); reflexivity|].
  unfold getServiceStatus, bind at 1.
  erewrite loadState_stored by reflexivity. simpl. unfold ret. f_equal. f_equal.
  unfold read. rewrite lookup_fmap, Hnone. reflexivity.
Qed.


Lemma corrupt_state_file_blocks_every_update_witness :
  fst (updateServiceStatus "api" (Sample.statusAt 0 []) Example.brokenDisk)
  = inl Js.SyntaxError.
Proof.
  destruct (corrupt_state_file_blocks_every_update Example.brokenDisk "api"
              (Sample.statusAt 0 []) Example.slaveEntry eq_refl) as (_ & H & _).
  rewrite H. reflexivity.
Defined.

Lemma status_with_id_proto_is_lost_witness :
  exists st',
    updateServiceStatus "__proto__" (Sample.statusAt 0 []) Example.freshDisk
    = (inr tt, st')
    /\ getServiceStatus "__proto__" st' = (inr (Some (Inherited "__proto__")), st').
Proof.
  assert (Hc : file Example.freshDisk <> Some Corrupt) by discriminate.
  assert (Hown : forall s, file Example.freshDisk = Some (Stored s) ->
                           services s !! "__proto__" = None) by discriminate.
  destruct (status_with_id_proto_is_lost Example.freshDisk (Sample.statusAt 0 [])
              Hc Hown) as (st' & loaded & _ & H1 & _ & H2).
  exists st'. split; [exact H1|exact H2].
Defined.

End StateStorageBehaviour.
